(** * panda_desk: the Desk session client (src/panda_desk/desk.py)

    A shallow embedding of the [Desk] class: password encoding, the HTTP
    transport, the token store kept in [~/.panda_py/token.conf], the
    control-token arbitration of [take_control] and the condition waits
    built on the status channels.

    Conventions of the embedding.
    - A Python [str] is a [string]: the text in its UTF-8 encoding, so
      [s.encode('utf-8')] reads the bytes off and f-string concatenation
      is [+:+].
    - A Python [bytes] value is a [list Z] of octets.
    - Decoded JSON is the inductive [Json]; JSON numbers are integers
      (the payloads the class inspects carry no fractional number).
    - A method is a function on the state [St] (the object and the world
      around it) returning an [Outcome] and the state it leaves.  The
      world holds the store file as a table of sections, the answers the
      device is going to give and the requests sent to it, and, for each
      WebSocket address, the messages to come with their arrival times.
    - Time is rational seconds, counted from the moment a wait starts.
      The world holds the deadline of the cancel scope the call runs in;
      a message that arrives at or after the deadline is not received,
      the wait is cancelled instead.
    - What lies in the libraries is embedded as far as the class uses
      it: the httpx client by its signatures, ConfigParser by what it
      writes and reads back, trio's cancel scopes and the nursery of
      [trio_async_generator] by their effect on a wait. *)

From Stdlib Require Import ZArith List String Ascii QArith Lia DecimalString.
From stdpp Require Import base gmap strings list.

Local Set Warnings "-register-all".
Local Open Scope Z_scope.

(** ** Text and bytes *)

Definition bytes := list Z.

(** [s.encode('utf-8')] *)
Definition encode_utf8 (s : string) : bytes :=
  map (fun c => Z.of_N (N_of_ascii c)) (list_ascii_of_string s).

(** [b.decode('utf-8')] on the octets of a text *)
Definition decode_utf8 (b : bytes) : string :=
  string_of_list_ascii (map (fun z => ascii_of_N (Z.to_N z)) b).

(** [str(n)] for an [int] *)
Definition str_int (n : Z) : string := NilZero.string_of_int (Z.to_int n).

(** [sep.join(parts)] *)
Definition join (sep : string) (parts : list string) : string :=
  String.concat sep parts.

(** [[s[i : i + n] for i in range(0, len(s), n)]] *)
Fixpoint chunks_upto {A} (fuel n : nat) (s : list A) : list (list A) :=
  match fuel with
  | O => []
  | S fuel' =>
      match s with
      | [] => []
      | _ => take n s :: chunks_upto fuel' n (drop n s)
      end
  end.

Definition chunks {A} (n : nat) (s : list A) : list (list A) :=
  chunks_upto (length s) n s.

(** ** hashlib.sha256 (FIPS 180-4) *)

Module Sha256.

Definition mask32 : Z := 0xFFFFFFFF.
Definition add32 (x y : Z) : Z := Z.land (x + y) mask32.
Definition rotr (n x : Z) : Z :=
  Z.lor (Z.shiftr x n) (Z.land (Z.shiftl x (32 - n)) mask32).
Definition shr (n x : Z) : Z := Z.shiftr x n.
Definition xor3 (x y z : Z) : Z := Z.lxor (Z.lxor x y) z.

Definition Ch (x y z : Z) : Z :=
  Z.lxor (Z.land x y) (Z.land (Z.lxor x mask32) z).
Definition Maj (x y z : Z) : Z :=
  xor3 (Z.land x y) (Z.land x z) (Z.land y z).
Definition Sigma0 (x : Z) : Z := xor3 (rotr 2 x) (rotr 13 x) (rotr 22 x).
Definition Sigma1 (x : Z) : Z := xor3 (rotr 6 x) (rotr 11 x) (rotr 25 x).
Definition sigma0 (x : Z) : Z := xor3 (rotr 7 x) (rotr 18 x) (shr 3 x).
Definition sigma1 (x : Z) : Z := xor3 (rotr 17 x) (rotr 19 x) (shr 10 x).

(** the first [n] primes, by trial division *)
Definition is_prime (p : Z) : bool :=
  forallb (fun d => negb (p mod d =? 0)) (map Z.of_nat (seq 2 (Z.to_nat p - 2))).

Definition primes (n : nat) : list Z :=
  firstn n (List.filter is_prime (map Z.of_nat (seq 2 310))).

(** the integer cube root, one bit after the other from [2^bits] down *)
Fixpoint cube_root_from (bits : nat) (r x : Z) : Z :=
  match bits with
  | O => r
  | S b =>
      let r' := r + 2 ^ Z.of_nat b in
      cube_root_from b (if r' * r' * r' <=? x then r' else r) x
  end.

(** the first 32 bits of the fractional part of the cube root of [p],
    and of its square root *)
Definition frac_cube_root (p : Z) : Z := Z.land (cube_root_from 40 0 (p * 2 ^ 96)) mask32.
Definition frac_square_root (p : Z) : Z := Z.land (Z.sqrt (p * 2 ^ 64)) mask32.

(** the round constants: cube roots of the first 64 primes *)
Definition K : list Z := Eval vm_compute in map frac_cube_root (primes 64).

(** the initial hash value: square roots of the first 8 primes *)
Definition H0 : list Z := Eval vm_compute in map frac_square_root (primes 8).

(** big-endian octets of a word of [n] octets *)
Fixpoint be_bytes (n : nat) (x : Z) : bytes :=
  match n with
  | O => []
  | S n' => Z.land (Z.shiftr x (8 * Z.of_nat n')) 0xFF :: be_bytes n' x
  end.

Definition be_word (b : bytes) : Z :=
  fold_left (fun acc o => Z.lor (Z.shiftl acc 8) o) b 0.

(** the message, a one bit, zero bits up to 56 mod 64 octets, and the
    length in bits on 8 octets *)
Definition pad (msg : bytes) : bytes :=
  let l := Z.of_nat (length msg) in
  msg ++ [0x80] ++ repeat 0 (Z.to_nat ((55 - l) mod 64)) ++ be_bytes 8 (8 * l).

(** W_t = sigma1(W_(t-2)) + W_(t-7) + sigma0(W_(t-15)) + W_(t-16) *)
Fixpoint schedule (n : nat) (ws : list Z) : list Z :=
  match n with
  | O => ws
  | S n' =>
      let back i := nth (length ws - i) ws 0 in
      schedule n'
        (ws ++ [add32 (add32 (sigma1 (back 2%nat)) (back 7%nat))
                      (add32 (sigma0 (back 15%nat)) (back 16%nat))])
  end.

Record regs := Regs { ra : Z; rb : Z; rc : Z; rd : Z;
                      re : Z; rf : Z; rg : Z; rh : Z }.

Definition round (r : regs) (kw : Z * Z) : regs :=
  let t1 := add32 (add32 (add32 (rh r) (Sigma1 (re r)))
                         (add32 (Ch (re r) (rf r) (rg r)) (fst kw)))
                  (snd kw) in
  let t2 := add32 (Sigma0 (ra r)) (Maj (ra r) (rb r) (rc r)) in
  Regs (add32 t1 t2) (ra r) (rb r) (rc r) (add32 (rd r) t1) (re r) (rf r) (rg r).

Definition regs_of (h : list Z) : regs :=
  let g i := nth i h 0 in
  Regs (g 0%nat) (g 1%nat) (g 2%nat) (g 3%nat) (g 4%nat) (g 5%nat) (g 6%nat) (g 7%nat).

Definition list_of (r : regs) : list Z :=
  [ra r; rb r; rc r; rd r; re r; rf r; rg r; rh r].

Definition compress (h : list Z) (block : bytes) : list Z :=
  let ws := schedule 48 (map be_word (chunks 4 block)) in
  let r := fold_left round (combine K ws) (regs_of h) in
  map (fun p => add32 (fst p) (snd p)) (combine h (list_of r)).

(** [hashlib.sha256(msg).digest()] *)
Definition digest (msg : bytes) : bytes :=
  flat_map (be_bytes 4) (fold_left compress (chunks 64 (pad msg)) H0).

End Sha256.

(** ** base64 *)

Module Base64.

Definition alphabet : string :=
  "ABCDEFGHIJKLMNOPQRSTUVWXYZabcdefghijklmnopqrstuvwxyz0123456789+/".

Definition sextet (i : Z) : Z :=
  match String.get (Z.to_nat i) alphabet with
  | Some c => Z.of_N (N_of_ascii c)
  | None => 0
  end.

Definition eq_sign : Z := 61.
Definition newline : Z := 10.

(** [base64.b64encode]: three octets give four characters, the last
    group is padded with [=] *)
Fixpoint b64encode (s : bytes) : bytes :=
  match s with
  | [] => []
  | [a] =>
      [ sextet (Z.shiftr a 2);
        sextet (Z.shiftl (Z.land a 3) 4);
        eq_sign; eq_sign ]
  | [a; b] =>
      [ sextet (Z.shiftr a 2);
        sextet (Z.lor (Z.shiftl (Z.land a 3) 4) (Z.shiftr b 4));
        sextet (Z.shiftl (Z.land b 15) 2);
        eq_sign ]
  | a :: b :: c :: rest =>
      sextet (Z.shiftr a 2)
      :: sextet (Z.lor (Z.shiftl (Z.land a 3) 4) (Z.shiftr b 4))
      :: sextet (Z.lor (Z.shiftl (Z.land b 15) 2) (Z.shiftr c 6))
      :: sextet (Z.land c 63)
      :: b64encode rest
  end.

(** [binascii.b2a_base64]: one line of base64 and its line feed *)
Definition b2a_base64 (s : bytes) : bytes := b64encode s ++ [newline].

Definition MAXBINSIZE : nat := 57.

(** [base64.encodebytes]: the input is cut in pieces of [MAXBINSIZE]
    octets and every piece becomes one line *)
Definition encodebytes (s : bytes) : bytes :=
  concat (map b2a_base64 (chunks MAXBINSIZE s)).

End Base64.

(** ** Desk.encode_password *)

Definition encode_password (username password : string) : string :=
  let bytes_str :=
    join "," (map str_int
      (Sha256.digest (encode_utf8 (password +:+ "#" +:+ username +:+ "@franka")))) in
  decode_utf8 (Base64.encodebytes (encode_utf8 bytes_str)).

(** The digest as the specification words it:
    base64(join(",", SHA256(password + "#" + username + "@franka"))). *)
Definition spec_encodePassword (username password : string) : string :=
  decode_utf8 (Base64.b64encode (encode_utf8
    (join "," (map str_int
      (Sha256.digest (encode_utf8 (password +:+ "#" +:+ username +:+ "@franka"))))))).

(** ** Decoded JSON and the Python operations applied to it *)

Inductive Json :=
| JNull
| JBool (b : bool)
| JInt (n : Z)
| JStr (s : string)
| JArr (items : list Json)
| JObj (fields : list (string * Json)).

Inductive Exn :=
| ConnectionError (text : string)
| TransportError
| JSONDecodeError
| KeyError (key : string)
| TypeError
| AttributeError
| ValueError (msg : string)
| ValueError_interpolation (value : string)
| NoOptionError (option_ section : string)
| UnboundLocalError (name : string)
| ExceptionGroup (e : Exn)
| Cancelled.

(** [ValueError_interpolation value] is the ValueError of ConfigParser,
    "invalid interpolation syntax in <value> at position <n>";
    [ExceptionGroup e] is the group with the one exception [e] that a
    trio nursery raises.

    How a call ends: it returns, it raises, it stays suspended for ever
    ([Pending]), or it was handed a value that the embedding does not
    cover ([IllTyped], the embedding stops there): a value of a type that
    the annotations of the class exclude, or a text that the store file
    does not hold on one line. *)
Inductive Outcome (A : Type) :=
| Return (a : A)
| Raise (e : Exn)
| Pending
| IllTyped.
Arguments Return {A} a.
Arguments Raise {A} e.
Arguments Pending {A}.
Arguments IllTyped {A}.

(** [d[key]] for a dict decoded from JSON, first binding of the key *)
Fixpoint dict_get (key : string) (fields : list (string * Json)) : option Json :=
  match fields with
  | [] => None
  | (k, v) :: rest => if String.eqb k key then Some v else dict_get key rest
  end.

(** [v[key]] with a [str] key *)
Definition getitem (v : Json) (key : string) : Outcome Json :=
  match v with
  | JObj fields =>
      match dict_get key fields with
      | Some x => Return x
      | None => Raise (KeyError key)
      end
  | _ => Raise TypeError
  end.

(** [str(v)]; the text of a list or dict is not modelled *)
Definition py_str (v : Json) : Outcome string :=
  match v with
  | JNull => Return "None"
  | JBool true => Return "True"
  | JBool false => Return "False"
  | JInt n => Return (str_int n)
  | JStr s => Return s
  | JArr _ | JObj _ => IllTyped
  end.

(** a value annotated [str] *)
Definition as_str (v : Json) : Outcome string :=
  match v with
  | JStr s => Return s
  | _ => IllTyped
  end.

(** the characters of a text: a new one starts at every octet that is
    not a UTF-8 continuation octet *)
Definition is_continuation (c : ascii) : bool :=
  Z.land (Z.of_N (N_of_ascii c)) 0xC0 =? 0x80.

Fixpoint chars_from (cur : string) (rest : list ascii) : list string :=
  match rest with
  | [] => [cur]
  | c :: rest' =>
      if is_continuation c
      then chars_from (cur +:+ String c EmptyString) rest'
      else cur :: chars_from (String c EmptyString) rest'
  end.

Definition chars (s : string) : list string :=
  match list_ascii_of_string s with
  | [] => []
  | c :: rest => chars_from (String c EmptyString) rest
  end.

(** [for b in v] *)
Definition py_iter (v : Json) : Outcome (list Json) :=
  match v with
  | JArr items => Return items
  | JStr s => Return (map JStr (chars s))
  | JObj fields => Return (map (fun kv => JStr (fst kv)) fields)
  | JNull | JBool _ | JInt _ => Raise TypeError
  end.

(** [v == s] for a [str] s *)
Definition eq_str (v : Json) (s : string) : bool :=
  match v with
  | JStr s' => String.eqb s' s
  | _ => false
  end.

(** [v == True] and [v == False]: a bool is an int in Python *)
Definition eq_True (v : Json) : bool :=
  match v with
  | JBool b => b
  | JInt n => n =? 1
  | _ => false
  end.

Definition eq_False (v : Json) : bool :=
  match v with
  | JBool b => negb b
  | JInt n => n =? 0
  | _ => false
  end.

(** [key in e.keys()] *)
Definition has_key (e : Json) (key : string) : Outcome bool :=
  match e with
  | JObj fields => Return (bool_decide (is_Some (dict_get key fields)))
  | _ => Raise AttributeError
  end.

(** [s.lower()], as far as a comparison with ASCII names can tell.  The
    characters whose lower case is ASCII are the ASCII characters and the
    KELVIN SIGN (U+212A, the octets E2 84 AA), which becomes "k"; every
    other character is left as it is, and has a lower case outside
    ASCII. *)
Definition lower_ascii (c : ascii) : ascii :=
  let n := N_of_ascii c in
  if ((65 <=? n) && (n <=? 90))%N then ascii_of_N (n + 32) else c.

Fixpoint lower_octets (s : list ascii) : list ascii :=
  match s with
  | [] => []
  | c :: rest =>
      match rest with
      | c1 :: c2 :: rest' =>
          if ((N_of_ascii c =? 0xE2) && (N_of_ascii c1 =? 0x84) && (N_of_ascii c2 =? 0xAA))%N
          then "k"%char :: lower_octets rest'
          else lower_ascii c :: lower_octets rest
      | _ => lower_ascii c :: lower_octets rest
      end
  end.

Definition lower (s : string) : string :=
  string_of_list_ascii (lower_octets (list_ascii_of_string s)).

(** ** The object and the world around it *)

(** [Token], the dataclass *)
Record Token := mkToken { id : string; owned_by : string; token : string }.

(** [Token()] *)
Definition no_token : Token := mkToken "" "" "".

Inductive Method := GET | POST | DELETE.

Definition method_name (m : Method) : string :=
  match m with GET => "get" | POST => "post" | DELETE => "delete" end.

(** What [_request] hands to the HTTP client. *)
Record Request := mkRequest {
  req_method : Method;
  req_url : string;
  req_headers : option (list (string * string));
  req_json : option Json;
  req_files : option (list (string * bytes));
  req_timeout : Z
}.

(** [httpx.Response]: [decoded] is what [response.json()] gives, [None]
    when the body is not JSON. *)
Record Response := mkResponse {
  status_code : Z;
  text : string;
  decoded : option Json
}.

(** The attributes of a [Desk]. *)
Record Desk := mkDesk {
  _legacy : bool;
  _platform : string;
  _hostname : string;
  _logged_in : bool;
  _username : string;
  _token : Token;
  cookie : option string
}.

(** The world.  [conf_file] is [~/.panda_py/token.conf] as ConfigParser
    presents it: for each section the options with the values that
    [config.get] returns (a file with a DEFAULT section, or one that
    ConfigParser cannot read, has no such table); [conf_dir] tells
    whether [~/.panda_py] exists.  [replies] are the answers the device will give, in order,
    and [sent] the requests issued so far, oldest first.  [feeds] gives,
    for each WebSocket address, the messages still to arrive, decoded,
    each with its arrival time in seconds; [deadline] is the deadline of
    the cancel scope the call runs in, on the same clock.
    [strict_exception_groups] is the default of the installed trio: true
    from trio 0.25 on. *)
Record World := mkWorld {
  conf_dir : bool;
  conf_file : option (gmap string (gmap string string));
  replies : list Response;
  sent : list Request;
  feeds : gmap string (list (Q * Json));
  deadline : option Q;
  printed : list string;
  logged : list (string * list Json);
  strict_exception_groups : bool
}.

Record St := mkSt { self : Desk; world : World }.

Definition with_token (t : Token) (d : Desk) : Desk :=
  mkDesk (_legacy d) (_platform d) (_hostname d) (_logged_in d) (_username d) t (cookie d).

Definition with_login (user : string) (c : string) (d : Desk) : Desk :=
  mkDesk (_legacy d) (_platform d) (_hostname d) true user (_token d) (Some c).

Definition with_conf (cfg : gmap string (gmap string string)) (w : World) : World :=
  mkWorld true (Some cfg) (replies w) (sent w) (feeds w) (deadline w) (printed w) (logged w)
          (strict_exception_groups w).

Definition with_exchange (rq : Request) (rest : list Response) (w : World) : World :=
  mkWorld (conf_dir w) (conf_file w) rest (sent w ++ [rq]) (feeds w) (deadline w)
          (printed w) (logged w) (strict_exception_groups w).

Definition with_feed (address : string) (rest : list (Q * Json)) (w : World) : World :=
  mkWorld (conf_dir w) (conf_file w) (replies w) (sent w) (<[address := rest]> (feeds w))
          (deadline w) (printed w) (logged w) (strict_exception_groups w).

Definition with_deadline (d : option Q) (w : World) : World :=
  mkWorld (conf_dir w) (conf_file w) (replies w) (sent w) (feeds w) d (printed w) (logged w)
          (strict_exception_groups w).

Definition with_printed (line : string) (w : World) : World :=
  mkWorld (conf_dir w) (conf_file w) (replies w) (sent w) (feeds w) (deadline w)
          (printed w ++ [line]) (logged w) (strict_exception_groups w).

Definition with_logged (fmt : string) (args : list Json) (w : World) : World :=
  mkWorld (conf_dir w) (conf_file w) (replies w) (sent w) (feeds w) (deadline w)
          (printed w) (logged w ++ [(fmt, args)]) (strict_exception_groups w).

(** ** Calls: state in, outcome and state out *)

Definition M (A : Type) : Type := St -> Outcome A * St.

Definition ret {A} (a : A) : M A := fun st => (Return a, st).

Definition bind {A B} (c : M A) (k : A -> M B) : M B :=
  fun st =>
    match c st with
    | (Return a, st') => k a st'
    | (Raise e, st') => (Raise e, st')
    | (Pending, st') => (Pending, st')
    | (IllTyped, st') => (IllTyped, st')
    end.

Declare Scope call_scope.
Notation "x <- c ;; k" := (bind c (fun x => k))
  (at level 20, c at level 99, k at level 200, only parsing) : call_scope.
Notation "c ;; k" := (bind c (fun _ => k))
  (at level 100, k at level 200, only parsing) : call_scope.
Local Open Scope call_scope.

Definition raise {A} (e : Exn) : M A := fun st => (Raise e, st).

(** a pure step that may raise *)
Definition lift {A} (o : Outcome A) : M A := fun st => (o, st).

Definition get_self : M Desk := fun st => (Return (self st), st).
Definition get_world : M World := fun st => (Return (world st), st).
Definition set_self (f : Desk -> Desk) : M unit :=
  fun st => (Return tt, mkSt (f (self st)) (world st)).
Definition set_world (f : World -> World) : M unit :=
  fun st => (Return tt, mkSt (self st) (f (world st))).

Definition print (line : string) : M unit := set_world (with_printed line).
Definition _logger (fmt : string) (args : list Json) : M unit :=
  set_world (with_logged fmt args).

(** ** Transport *)

(** [parse.urljoin(base, url)] for a base without path and an absolute
    path *)
Definition urljoin (base url : string) : string := base +:+ url.

(** the HTTP client's [get] and [post]: the request goes out and the
    device's next answer comes back; without an answer the client
    raises *)
Definition send (rq : Request) : M Response :=
  fun st =>
    match replies (world st) with
    | [] => (Raise TransportError, mkSt (self st) (with_exchange rq [] (world st)))
    | r :: rest => (Return r, mkSt (self st) (with_exchange rq rest (world st)))
    end.

(** [response.json()] *)
Definition json_of (r : Response) : M Json :=
  match decoded r with
  | Some v => ret v
  | None => raise JSONDecodeError
  end.

Definition _request (method : Method) (url : string)
    (headers : option (list (string * string)))
    (json : option Json)
    (files : option (list (string * bytes)))
    (timeout : Z) : M Response :=
  d <- get_self;;
  let url := urljoin ("https://" +:+ _hostname d) url in
  let kwargs_json := match method with GET => None | _ => json end in
  let kwargs_files := match method with GET => None | _ => files end in
  response <-
    match method with
    | DELETE =>
        (* [AsyncClient.delete] takes neither [json] nor [files]: handing
           it the two keywords is a TypeError of the call itself *)
        raise TypeError
    | _ => send (mkRequest method url headers kwargs_json kwargs_files timeout)
    end;;
  if negb (status_code response =? 200) then
    print ("Attemped to connect to " +:+ url +:+ " with method " +:+ method_name method
           +:+ " and got response " +:+ text response);;
    raise (ConnectionError (text response))
  else ret response.

(** ** configparser: what a value becomes on its way through the file *)

Definition octets (b : bytes) : list ascii :=
  map (fun z => ascii_of_N (Z.to_N z)) b.

(** the white space that [str.strip] removes, each character in UTF-8:
    U+0009 to U+000D, U+001C to U+0020, U+0085, U+00A0, U+1680, U+2000
    to U+200A, U+2028, U+2029, U+202F, U+205F and U+3000 *)
Definition whitespace : list (list ascii) :=
  map octets
    ([ [0x09]; [0x0A]; [0x0B]; [0x0C]; [0x0D]; [0x1C]; [0x1D]; [0x1E]; [0x1F]; [0x20];
       [0xC2; 0x85]; [0xC2; 0xA0]; [0xE1; 0x9A; 0x80] ]
     ++ map (fun z => [0xE2; 0x80; z]) [0x80; 0x81; 0x82; 0x83; 0x84; 0x85; 0x86; 0x87;
                                        0x88; 0x89; 0x8A; 0xA8; 0xA9; 0xAF]
     ++ [ [0xE2; 0x81; 0x9F]; [0xE3; 0x80; 0x80] ]).

(** [s] without the prefix [p] *)
Fixpoint without_prefix (p s : list ascii) : option (list ascii) :=
  match p, s with
  | [], _ => Some s
  | c :: p', d :: s' => if Ascii.eqb c d then without_prefix p' s' else None
  | _ :: _, [] => None
  end.

(** [s] without its first character, when that is one of [patterns] *)
Definition without_first (patterns : list (list ascii)) (s : list ascii)
  : option (list ascii) :=
  fold_right (fun p found =>
                match without_prefix p s with
                | Some rest => Some rest
                | None => found
                end) None patterns.

Fixpoint lstrip_upto (fuel : nat) (patterns : list (list ascii)) (s : list ascii)
  : list ascii :=
  match fuel with
  | O => s
  | S fuel' =>
      match without_first patterns s with
      | Some rest => lstrip_upto fuel' patterns rest
      | None => s
      end
  end.

(** [s.strip()] *)
Definition strip (s : string) : string :=
  let front := list_ascii_of_string s in
  let l := lstrip_upto (length front) whitespace front in
  let r := lstrip_upto (length l) (map (@rev ascii) whitespace) (rev l) in
  string_of_list_ascii (rev r).

(** [value.replace('%%', '')] *)
Fixpoint without_doubled (s : list ascii) : list ascii :=
  match s with
  | [] => []
  | c :: rest =>
      match rest with
      | d :: rest' =>
          if Ascii.eqb c "%" && Ascii.eqb d "%" then without_doubled rest'
          else c :: without_doubled rest
      | [] => [c]
      end
  end.

(** the text after a name and [)s], the name being [[^)]+] *)
Fixpoint after_name (seen : bool) (s : list ascii) : option (list ascii) :=
  match s with
  | [] => None
  | c :: rest =>
      if Ascii.eqb c ")" then
        match rest with
        | d :: rest' => if seen && Ascii.eqb d "s" then Some rest' else None
        | [] => None
        end
      else after_name true rest
  end.

(** the text after a match of [%\(([^)]+)\)s] at the head of [s] *)
Definition after_reference (s : list ascii) : option (list ascii) :=
  match s with
  | c :: d :: rest =>
      if Ascii.eqb c "%" && Ascii.eqb d "(" then after_name false rest else None
  | _ => None
  end.

(** [_KEYCRE.sub('', value)] *)
Fixpoint without_references (fuel : nat) (s : list ascii) : list ascii :=
  match fuel with
  | O => s
  | S fuel' =>
      match after_reference s with
      | Some rest => without_references fuel' rest
      | None =>
          match s with
          | [] => []
          | c :: rest => c :: without_references fuel' rest
          end
      end
  end.

(** [BasicInterpolation.before_set] raises: with the doubled signs and
    the references taken out, a per cent sign is left *)
Definition refused (value : string) : bool :=
  let tmp_value := without_doubled (list_ascii_of_string value) in
  let tmp_value := without_references (length tmp_value) tmp_value in
  existsb (Ascii.eqb "%") tmp_value.

(** [config.set(section, option, value)] as far as it may raise *)
Definition before_set (value : string) : Outcome unit :=
  if refused value then Raise (ValueError_interpolation value) else Return tt.

(** the value is written on one line: it has no line feed and no
    carriage return *)
Definition single_line (value : string) : bool :=
  forallb (fun c => negb (Ascii.eqb c "010") && negb (Ascii.eqb c "013"))
          (list_ascii_of_string value).

(** the value refers to no other option: it has no [%(] *)
Fixpoint has_reference (s : list ascii) : bool :=
  match s with
  | [] => false
  | c :: rest =>
      match rest with
      | d :: _ => (Ascii.eqb c "%" && Ascii.eqb d "(") || has_reference rest
      | [] => false
      end
  end.

(** interpolation of a value without references: [%%] stands for [%] *)
Fixpoint unescape (s : list ascii) : list ascii :=
  match s with
  | [] => []
  | c :: rest =>
      match rest with
      | d :: rest' =>
          if Ascii.eqb c "%" && Ascii.eqb d "%" then "%"%char :: unescape rest'
          else c :: unescape rest
      | [] => [c]
      end
  end.

(** what [config.get] returns for a value written on one line without
    references, once the file has been read again: the parser strips the
    value and [get] interpolates it *)
Definition as_read (value : string) : string :=
  string_of_list_ascii (unescape (list_ascii_of_string (strip value))).

(** a section name that heads a section of its own when read again: not
    empty and not "DEFAULT" (the values of both go to the defaults, and
    the header [[]] is one no parser reads), on one line, and without a
    closing bracket *)
Definition section_name (name : string) : bool :=
  negb (String.eqb name "") && negb (String.eqb name "DEFAULT")
  && single_line name
  && negb (existsb (Ascii.eqb "]") (list_ascii_of_string name)).

(** ** TokenStore *)

Definition section_of (t : Token) : gmap string string :=
  {[ "id" := id t; "owned_by" := owned_by t; "token" := token t ]}.

(** the token as a later session reads it from the store *)
Definition read_back (t : Token) : Token :=
  mkToken (as_read (id t)) (as_read (owned_by t)) (as_read (token t)).

(** the file written for the host and the token is one that ConfigParser
    reads back, value by value *)
Definition writable (hostname : string) (t : Token) : bool :=
  section_name hostname
  && forallb (fun v => single_line v && negb (has_reference (list_ascii_of_string v)))
             [id t; owned_by t; token t].

(** [config.get(section, option)] *)
Definition config_get (cfg : gmap string (gmap string string))
    (section option_ : string) : M string :=
  match cfg !! section ≫= (fun s => s !! option_) with
  | Some v => ret v
  | None => raise (NoOptionError option_ section)
  end.

Definition _load_token : M Token :=
  d <- get_self;;
  w <- get_world;;
  match conf_file w with
  | Some config =>
      if bool_decide (is_Some (config !! _hostname d)) then
        i <- config_get config (_hostname d) "id";;
        o <- config_get config (_hostname d) "owned_by";;
        t <- config_get config (_hostname d) "token";;
        ret (mkToken i o t)
      else ret no_token
  | None => ret no_token
  end.

Definition _save_token (t : Token) : M unit :=
  d <- get_self;;
  w <- get_world;;
  let config := match conf_file w with Some c => c | None => ∅ end in
  (* [config[self._hostname] = {...}] sets the three options in turn *)
  lift (before_set (id t));;
  lift (before_set (owned_by t));;
  lift (before_set (token t));;
  if negb (writable (_hostname d) t) then lift IllTyped else
  let config := <[_hostname d := section_of (read_back t)]> config in
  set_world (with_conf config);;
  set_self (with_token t).

(** ** StatusStream *)

(** what a subscription to [address] will receive *)
Definition feed_of (address : string) (w : World) : list (Q * Json) :=
  default [] (feeds w !! address).

(** A checkpoint at which nothing is received before time [t]: the open
    cancel scope fires when its deadline comes first. *)
Definition checkpoint (t : Q) : M unit :=
  w <- get_world;;
  match deadline w with
  | Some d => if Qle_bool d t then raise Cancelled else ret tt
  | None => ret tt
  end.

(** [await websocket.get_message()] on a channel that stays silent *)
Definition silence {A} : M A :=
  w <- get_world;;
  match deadline w with
  | Some _ => raise Cancelled
  | None => lift Pending
  end.

(** the scope of [trio.move_on_after(seconds)] expires before the scope
    around it: there is none, or its deadline comes later *)
Definition expires_first (seconds : Q) (outer : option Q) : bool :=
  match outer with
  | Some d => negb (Qle_bool d seconds)
  | None => true
  end.

(** [with trio.move_on_after(seconds) as cancel_scope: await body],
    giving [cancel_scope.cancel_called].  The body runs under the earlier
    of the two deadlines.  A cancellation at the scope's own deadline
    ends the block and is recorded; one at the deadline of the scope
    around it, when that comes first or at the same time, passes
    through. *)
Definition move_on_after {A} (seconds : Q) (body : M A) : M bool :=
  fun st =>
    let outer := deadline (world st) in
    let own := expires_first seconds outer in
    let inner := if own then Some seconds else outer in
    let leave st' := mkSt (self st') (with_deadline outer (world st')) in
    match body (mkSt (self st) (with_deadline inner (world st))) with
    | (Return _, st') => (Return false, leave st')
    | (Raise Cancelled, st') =>
        if own then (Return true, leave st') else (Raise Cancelled, leave st')
    | (Raise e, st') => (Raise e, leave st')
    | (Pending, st') => (Pending, st')
    | (IllTyped, st') => (IllTyped, st')
    end.

(** An exception on its way out of the nursery of
    [trio_async_generator]: trio with strict exception groups hands it on
    in a group, earlier versions as it is.  A cancellation is for the
    cancel scope it belongs to and is written [Cancelled] either way. *)
Definition out_of_nursery (strict : bool) (e : Exn) : Exn :=
  match e with
  | Cancelled => Cancelled
  | _ => if strict then ExceptionGroup e else e
  end.

(** the body of the loop, inside the [async with] of the generator *)
Definition in_nursery {A} (body : M A) : M A :=
  fun st =>
    match body st with
    | (Raise e, st') => (Raise (out_of_nursery (strict_exception_groups (world st')) e), st')
    | r => r
    end.

(** Leaving the [async with] of a [trio_async_generator] by [return]:
    the nursery waits for the task that feeds the loop, and that task is
    waiting for the next message of the channel.  The block is left when
    that message has come (it is taken off the channel and dropped); if
    it does not come, it is not left. *)
Definition leave_generator (address : string) (feed : list (Q * Json)) : M unit :=
  match feed with
  | [] => silence
  | (t, _) :: rest =>
      checkpoint t;;
      set_world (with_feed address rest)
  end.

(** [async for event in generator: body], where the body says [Some a]
    for [return a] and [None] to go on with the next message *)
Fixpoint iterate {A} (address : string) (body : Json -> M (option A))
    (feed : list (Q * Json)) : M A :=
  match feed with
  | [] => silence
  | (t, event) :: rest =>
      checkpoint t;;
      set_world (with_feed address rest);;
      r <- in_nursery (body event);;
      match r with
      | Some a =>
          leave_generator address rest;;
          ret a
      | None => iterate address body rest
      end
  end.

(** [async with self.<generator>() as generator] around the loop over
    the decoded messages of [self.connect(address)] *)
Definition async_for {A} (address : string) (body : Json -> M (option A)) : M A :=
  w <- get_world;;
  iterate address body (feed_of address w).

Definition safety_status : string := "admin/api/safety/status".
Definition button_events : string := "desk/api/navigation/events".

(** ** ConditionWait *)

Definition wait_for_brakes_to_open : M unit :=
  async_for safety_status (fun status =>
    brakeState <- lift (getitem status "brakeState");;
    entries <- lift (py_iter brakeState);;
    let brakes_unlocked := map (fun b => eq_str b "Unlocked") entries in
    if forallb (fun b => b) brakes_unlocked then ret (Some tt) else ret None).

Definition wait_for_brakes_to_close : M unit :=
  async_for safety_status (fun status =>
    brakeState <- lift (getitem status "brakeState");;
    entries <- lift (py_iter brakeState);;
    let brakes_locked := map (fun b => eq_str b "Locked") entries in
    if forallb (fun b => b) brakes_locked then ret (Some tt) else ret None).

Definition wait_for_press (button : string) : M Json :=
  async_for button_events (fun e =>
    present <- lift (has_key e button);;
    if present then
      v <- lift (getitem e button);;
      if eq_True v then ret (Some e) else ret None
    else ret None).

Definition wait_for_release (button : string) : M Json :=
  async_for button_events (fun e =>
    present <- lift (has_key e button);;
    if present then
      v <- lift (getitem e button);;
      if eq_False v then ret (Some e) else ret None
    else ret None).

(** ** ControlArbiter *)

Definition login (username password : string) : M unit :=
  r <- _request POST "/admin/api/login" None
        (Some (JObj [("login", JStr username);
                     ("password", JStr (encode_password username password))]))
        None 5;;
  set_self (with_login username (text r));;
  _logger "Login succesful." [].

Definition with_logout (d : Desk) : Desk :=
  mkDesk (_legacy d) (_platform d) (_hostname d) false (_username d) (_token d) (cookie d).

Definition logout : M unit :=
  _request POST "/admin/api/logout" None None None 5;;
  set_self with_logout;;
  _logger "Logout succesful." [].

Definition _get_active_token : M Token :=
  d <- get_self;;
  if _legacy d then ret no_token else
  response <- _request GET "/admin/api/control-token" None None None 5;;
  response <- json_of response;;
  activeToken <- lift (getitem response "activeToken");;
  match activeToken with
  | JNull => ret no_token
  | _ =>
      i <- lift (getitem activeToken "id");;
      i <- lift (py_str i);;
      o <- lift (getitem activeToken "ownedBy");;
      o <- lift (as_str o);;
      ret (mkToken i o "")
  end.

Definition check_has_control : M bool :=
  t <- _get_active_token;;
  d <- get_self;;
  ret (String.eqb (id (_token d)) (id t)).

(** the number of seconds handed to [trio.move_on_after] *)
Definition seconds_of (v : Json) : Outcome Q :=
  match v with
  | JInt n =>
      if n <? 0 then Raise (ValueError "timeout must be non-negative")
      else Return (inject_Z n)
  | JBool b => Return (inject_Z (if b then 1 else 0))
  | _ => Raise TypeError
  end.

Definition take_control (force : bool) : M bool :=
  d <- get_self;;
  if _legacy d then ret true else
  active <- _get_active_token;;
  d <- get_self;;
  if negb (String.eqb (id active) "") && String.eqb (id (_token d)) (id active) then
    _logger "Retaken control." [];;
    ret true
  else if negb (String.eqb (id active) "") && negb force then
    _logger "Cannot take control. User %s is in control." [JStr (owned_by active)];;
    ret false
  else
    response <- _request POST
        ("/admin/api/control-token/request" +:+ (if force then "?force" else ""))
        None (Some (JObj [("requestedBy", JStr (_username d))])) None 5;;
    response <- json_of response;;
    (* the forced branch; [true] when it ran into [return False] *)
    given_up <-
      (if force then
         r <- _request GET "/admin/api/safety" None None None 5;;
         r <- json_of r;;
         timeout <- lift (getitem r "tokenForceTimeout");;
         _logger "You have %d seconds to confirm control by pressing circle button on robot."
                 [timeout];;
         seconds <- lift (seconds_of timeout);;
         cancel_called <- move_on_after seconds (wait_for_press "circle");;
         if cancel_called then
           _logger "Control not confirmed. Giving up." [];;
           ret true
         else ret false
       else ret false);;
    if given_up then ret false else
    i <- lift (getitem response "id");;
    i <- lift (py_str i);;
    d <- get_self;;
    t <- lift (getitem response "token");;
    t <- lift (as_str t);;
    _save_token (mkToken i (_username d) t);;
    _logger "Taken control." [];;
    ret true.

Definition activate_fci : M unit :=
  d <- get_self;;
  if negb (_legacy d) then
    _request POST "/admin/api/control-token/fci" None
      (Some (JObj [("token", JStr (token (_token d)))])) None 5;;
    ret tt
  else ret tt.

Definition deactivate_fci : M unit :=
  d <- get_self;;
  if negb (_legacy d) then
    _request DELETE "/admin/api/control-token/fci" None
      (Some (JObj [("token", JStr (token (_token d)))])) None 5;;
    ret tt
  else ret tt.

Definition set_mode (mode : string) : M unit :=
  d <- get_self;;
  if String.eqb (_platform d) "panda" then
    print "Old panda platform does not support this function"
  else
    url <- (if String.eqb mode "execution" then ret "/desk/api/operating-mode/execution"
           else if String.eqb mode "programming" then ret "/desk/api/operating-mode/programming"
           else raise (ValueError ("Unknown mode " +:+ mode)));;
    _request POST url (Some [("X-Control-Token", token (_token d))]) None None 50;;
    _logger ("Set mode to " +:+ mode +:+ ".") [].

(** [str(force).encode('utf-8')] *)
Definition str_bool (b : bool) : string := if b then "True" else "False".

Definition lock (force : bool) : M unit :=
  d <- get_self;;
  url <- (if String.eqb (_platform d) "panda" then ret "/desk/api/robot/close-brakes"
          else if String.eqb (_platform d) "fr3" then ret "/desk/api/joints/lock"
          else raise (UnboundLocalError "url"));;
  _request POST url (Some [("X-Control-Token", token (_token d))]) None
           (Some [("force", encode_utf8 (str_bool force))]) 50;;
  wait_for_brakes_to_close.

Definition unlock (force : bool) : M unit :=
  d <- get_self;;
  url <- (if String.eqb (_platform d) "panda" then ret "/desk/api/robot/open-brakes"
          else if String.eqb (_platform d) "fr3" then ret "/desk/api/joints/unlock"
          else raise (UnboundLocalError "url"));;
  _request POST url (Some [("X-Control-Token", token (_token d))]) None
           (Some [("force", encode_utf8 (str_bool force))]) 50;;
  wait_for_brakes_to_open.

Definition reboot : M unit :=
  d <- get_self;;
  _request POST "/admin/api/reboot" (Some [("X-Control-Token", token (_token d))])
           None None 5;;
  ret tt.

(** ** Construction *)

Definition panda_names : list string :=
  ["panda"; "fer"; "franka_emika_robot"; "frankaemikarobot"].
Definition fr3_names : list string :=
  ["fr3"; "frankaresearch3"; "franka_research_3"].

Definition mem (s : string) (l : list string) : bool :=
  existsb (String.eqb s) l.

(** [Desk(hostname, platform)]: the platform name is checked in lower
    case and then stored as it was given *)
Definition __init__ (hostname platform : string) (w : World) : Outcome Desk * World :=
  if mem (lower platform) panda_names || mem (lower platform) fr3_names then
    let d := mkDesk false platform hostname false "Not set" no_token None in
    match _load_token (mkSt d w) with
    | (Return t, st) => (Return (with_token t (self st)), world st)
    | (Raise e, st) => (Raise e, world st)
    | (Pending, st) => (Pending, world st)
    | (IllTyped, st) => (IllTyped, world st)
    end
  else (Raise (ValueError "Unknown platform! Must be either 'panda' or 'fr3'!"), w).

(** ** Words used to state the properties *)

(** a success status as the specification has it: 2xx *)
Definition spec_is_success (status : Z) : bool :=
  (200 <=? status) && (status <? 300).

(** the request [_request] builds for the HTTP client *)
Definition request_of (d : Desk) (method : Method) (url : string)
    (headers : option (list (string * string)))
    (json : option Json)
    (files : option (list (string * bytes)))
    (timeout : Z) : Request :=
  mkRequest method (urljoin ("https://" +:+ _hostname d) url) headers
    (match method with GET => None | _ => json end)
    (match method with GET => None | _ => files end)
    timeout.

(** the line [_request] prints before it raises *)
Definition complaint (rq : Request) (r : Response) : string :=
  "Attemped to connect to " +:+ req_url rq +:+ " with method "
  +:+ method_name (req_method rq) +:+ " and got response " +:+ text r.

(** the comma-joined decimal octets of the digest *)
Definition digits_of (username password : string) : string :=
  join "," (map str_int
    (Sha256.digest (encode_utf8 (password +:+ "#" +:+ username +:+ "@franka")))).

(** the record the store holds for a host *)
Definition stored (w : World) (host : string) : option (gmap string string) :=
  match conf_file w with
  | Some config => config !! host
  | None => None
  end.

(** the first field, in the order id, owned_by, token, that
    ConfigParser refuses to set *)
Definition first_refused (t : Token) : option string :=
  if refused (id t) then Some (id t)
  else if refused (owned_by t) then Some (owned_by t)
  else if refused (token t) then Some (token t)
  else None.

(** a text that comes back from the store as it went in: no per cent
    sign, one line, no white space at either end *)
Definition plain (value : string) : bool :=
  negb (existsb (Ascii.eqb "%") (list_ascii_of_string value))
  && single_line value
  && String.eqb (strip value) value.

Definition plain_token (t : Token) : bool :=
  plain (id t) && plain (owned_by t) && plain (token t).

(** ** Scenarios *)

Definition fresh_world (answers : list Response) : World :=
  mkWorld false None answers [] ∅ None [] [] true.

(** a logged-in session for the host "robot" that holds no token *)
Definition on_fr3 (answers : list Response) : St :=
  mkSt (mkDesk false "fr3" "robot" true "admin" no_token (Some "cookie"))
       (fresh_world answers).

(** the same session with tokens on file for "robot" and "other" *)
Definition stocked : St :=
  mkSt (mkDesk false "fr3" "robot" true "admin" (mkToken "3" "admin" "old") (Some "cookie"))
       (mkWorld true
          (Some {[ "robot" := section_of (mkToken "3" "admin" "old");
                   "other" := section_of (mkToken "9" "eve" "xyz") ]})
          [] [] ∅ None [] [] true).

(** a session for "robot" that holds the token with the given id *)
Definition holding (i : string) (answers : list Response) : St :=
  mkSt (mkDesk false "fr3" "robot" true "admin" (mkToken i "admin" "s3cret") (Some "cookie"))
       (fresh_world answers).

(** bodies of the answers to the query for the active token *)
Definition nobody : Json := JObj [("activeToken", JNull)].
Definition held_by (i owner : string) : Json :=
  JObj [("activeToken", JObj [("id", JStr i); ("ownedBy", JStr owner)])].

(** safety-status messages and the script of the specification *)
Definition brakes (entries : list string) : Json :=
  JObj [("sequenceNumber", JInt 18487175); ("brakeState", JArr (map JStr entries))].

Definition script : list (Q * Json) :=
  [ (0.1%Q, brakes (repeat "Locked" 7));
    (0.2%Q, brakes ["Unlocked"; "Unlocked"; "Locked"; "Unlocked"; "Locked"; "Locked"; "Unlocked"]);
    (0.3%Q, brakes (repeat "Unlocked" 7)) ].

(** the script followed by one more status message *)
Definition script_and_more : list (Q * Json) :=
  script ++ [ (0.4%Q, brakes (repeat "Unlocked" 7)) ].

Definition listening (address : string) (feed : list (Q * Json)) : St :=
  mkSt (mkDesk false "fr3" "robot" true "admin" no_token (Some "cookie"))
       (mkWorld false None [] [] {[ address := feed ]} None [] [] true).

(** the answers of a device held by "eve" that grants a forced request
    with token 12 and a confirmation window of 30 seconds *)
Definition granted : Json := JObj [("id", JInt 12); ("token", JStr "abc")].
Definition window : Json := JObj [("tokenForceTimeout", JInt 30)].

Definition press (button : string) (down : bool) : Json := JObj [(button, JBool down)].

(** a circle press after 31 seconds, and one after 12.5 seconds *)
Definition late_press : list (Q * Json) :=
  [ (5%Q, press "check" true); (31%Q, press "circle" true) ].
Definition timely_press : list (Q * Json) :=
  [ (5%Q, press "check" true); (9%Q, press "circle" false);
    (12.5%Q, press "circle" true); (13%Q, press "circle" false) ].

(** a circle press after 12.5 seconds with nothing after it *)
Definition last_press : list (Q * Json) :=
  [ (5%Q, press "check" true); (12.5%Q, press "circle" true) ].

(** the state when the caller's own cancel scope has [seconds] left *)
Definition under (seconds : Q) (st : St) : St :=
  mkSt (self st) (with_deadline (Some seconds) (world st)).

(** "franka_emika_robot" spelt with the KELVIN SIGN for its two k *)
Definition franka_with_kelvin_signs : string :=
  decode_utf8 (encode_utf8 "fran" ++ [0xE2; 0x84; 0xAA] ++ encode_utf8 "a_emi"
               ++ [0xE2; 0x84; 0xAA] ++ encode_utf8 "a_robot").

(** the session holds token 3, with its record on file, and forces *)
Definition forcing (answers : list Response) (events : list (Q * Json)) : St :=
  mkSt (mkDesk false "fr3" "robot" true "admin" (mkToken "3" "admin" "old") (Some "cookie"))
       (mkWorld true
          (Some {[ "robot" := section_of (mkToken "3" "admin" "old") ]})
          answers [] {[ button_events := events ]} None [] [] true).

(** a session as the constructor makes it for the platform "panda" *)
Definition panda_desk : Desk := mkDesk false "panda" "robot" false "Not set" no_token None.

(** a session with the legacy flag set *)
Definition legacy_desk : Desk := mkDesk true "panda" "robot" true "admin" no_token (Some "cookie").

Definition ok (body : Json) : Response := mkResponse 200 "" (Some body).
Definition not_found : Response := mkResponse 404 "File not found" None.
Definition created : Response := mkResponse 201 "created" None.

(** the query [_get_active_token] sends *)
Definition control_token_query (d : Desk) : Request :=
  request_of d GET "/admin/api/control-token" None None None 5.

(** a call that leaves the state as it found it *)
Definition stateless {A} (c : M A) : Prop := forall st, snd (c st) = st.

(** the brake states of a safety-status message that follows the
    schema: an object whose "brakeState" is a list *)
Definition brake_states (status : Json) : option (list Json) :=
  match getitem status "brakeState" with
  | Return (JArr entries) => Some entries
  | _ => None
  end.

Definition all_unlocked (entries : list Json) : bool :=
  forallb (fun b => eq_str b "Unlocked") entries.

Definition some_locked (entries : list Json) : bool :=
  existsb (fun b => eq_str b "Locked") entries.

(** a navigation event that follows the schema is an object *)
Definition is_object (e : Json) : bool :=
  match e with JObj _ => true | _ => false end.

(** the event says that [button] went down *)
Definition is_press (button : string) (e : Json) : bool :=
  match e with
  | JObj fields =>
      match dict_get button fields with
      | Some v => eq_True v
      | None => false
      end
  | _ => false
  end.

(** the state once a subscription has taken messages off a channel *)
Definition after_feed (address : string) (rest : list (Q * Json)) (st : St) : St :=
  mkSt (self st) (with_feed address rest (world st)).

(** the requests of a forced takeover *)
Definition token_request (force : bool) (d : Desk) : Request :=
  request_of d POST
    ("/admin/api/control-token/request" +:+ (if force then "?force" else ""))
    None (Some (JObj [("requestedBy", JStr (_username d))])) None 5.

Definition safety_query (d : Desk) : Request :=
  request_of d GET "/admin/api/safety" None None None 5.

(** nothing but the channels differs between the two states *)
Definition channels_apart (st st' : St) : Prop :=
  self st' = self st
  /\ conf_dir (world st') = conf_dir (world st)
  /\ conf_file (world st') = conf_file (world st)
  /\ replies (world st') = replies (world st)
  /\ sent (world st') = sent (world st)
  /\ deadline (world st') = deadline (world st)
  /\ printed (world st') = printed (world st)
  /\ logged (world st') = logged (world st).

(** a message arriving at [t] comes before the deadline of the open
    cancel scope *)
Definition in_time (t : Q) (st : St) : Prop :=
  match deadline (world st) with
  | Some d => (t < d)%Q
  | None => True
  end.

(** an octet that [b64encode] may put out: ASCII and not the line feed *)
Definition b64_char (c : Z) : Prop := 0 <= c < 128 /\ c <> Base64.newline.

(** the text without its line feeds *)
Definition strip_newlines (s : string) : string :=
  string_of_list_ascii
    (filter (fun c => c <> "010"%char) (list_ascii_of_string s)).

(** ** The rest of the class *)

(** [Desk.logged_in] *)
Definition logged_in : M bool :=
  d <- get_self;;
  ret (_logged_in d).

(** the other generators, by the address they connect to *)
Definition robot_states : string := "/desk/api/robot/configuration".
Definition general_system_status : string := "admin/api/system-status".
Definition system_status : string := "desk/api/system/status".

(** what [connect] hands to [open_websocket_url] *)
Record Handshake := mkHandshake {
  ws_url : string;
  ws_headers : list (string * string)
}.

(** [f"{self._session.cookies.get('authorization')}"]: the cookie
    [login] stored, or the text of [None] (the jar holds nothing but what
    [login] put in it) *)
Definition cookie_text (d : Desk) : string :=
  match cookie d with
  | Some c => c
  | None => "None"
  end.

Definition connect (address : string) : M Handshake :=
  d <- get_self;;
  ret (mkHandshake ("wss://" +:+ _hostname d +:+ "/" +:+ address)
                   [("authorization", cookie_text d)]).

(** ** More words for the properties *)

(** a call that leaves a part [f] of the state as it found it, however
    it ends *)
Definition keeps {X A} (f : St -> X) (c : M A) : Prop :=
  forall st o st', c st = (o, st') -> f st' = f st.

(** the session object and the token store *)
Definition session_and_store (st : St)
  : Desk * option (gmap string (gmap string string)) * bool :=
  (self st, conf_file (world st), conf_dir (world st)).

(** the held token and the token store *)
Definition held_and_store (st : St)
  : Token * option (gmap string (gmap string string)) * bool :=
  (_token (self st), conf_file (world st), conf_dir (world st)).

(** the channels and the deadline of the open cancel scope *)
Definition channels (st : St) : gmap string (list (Q * Json)) * option Q :=
  (feeds (world st), deadline (world st)).

(** the device-issued token is one that ConfigParser stores *)
Definition storable (hostname : string) (t : Token) : bool :=
  match first_refused t with
  | Some _ => false
  | None => writable hostname t
  end.

(** the event says that [button] came up *)
Definition is_release (button : string) (e : Json) : bool :=
  match e with
  | JObj fields =>
      match dict_get button fields with
      | Some v => eq_False v
      | None => false
      end
  | _ => false
  end.

Definition all_locked (entries : list Json) : bool :=
  forallb (fun b => eq_str b "Locked") entries.

(** the request of [lock] and [unlock] *)
Definition brake_request (d : Desk) (url : string) (force : bool) : Request :=
  request_of d POST url (Some [("X-Control-Token", token (_token d))]) None
             (Some [("force", encode_utf8 (str_bool force))]) 50.

(** the platform names the constructor accepts *)
Definition accepted (platform : string) : bool :=
  mem (lower platform) panda_names || mem (lower platform) fr3_names.

(** the session the constructor makes, given the token it loaded *)
Definition new_desk (hostname platform : string) (t : Token) : Desk :=
  mkDesk false platform hostname false "Not set" t None.

(** a store with a record for "robot" that lacks the token *)
Definition damaged : World :=
  mkWorld true (Some {[ "robot" := {[ "id" := "3"; "owned_by" := "admin" ]} ]})
          [] [] ∅ None [] [] true.

(** the request of [login] *)
Definition login_request (d : Desk) (username password : string) : Request :=
  request_of d POST "/admin/api/login" None
    (Some (JObj [("login", JStr username);
                 ("password", JStr (encode_password username password))]))
    None 5.

(** a session just constructed for "robot", with the device's answers *)
Definition arrived (answers : list Response) : St :=
  mkSt (new_desk "robot" "fr3" no_token) (fresh_world answers).

Definition welcome : Response := mkResponse 200 "eyJhbGciOi" None.
Definition bye : Response := mkResponse 200 "" None.
Definition denied : Response := mkResponse 401 "Unauthorized" None.

(** the requests that present the held token *)
Definition fci_request (method : Method) (d : Desk) (secret : string) : Request :=
  request_of d method "/admin/api/control-token/fci" None
             (Some (JObj [("token", JStr secret)])) None 5.

Definition reboot_request (d : Desk) (secret : string) : Request :=
  request_of d POST "/admin/api/reboot" (Some [("X-Control-Token", secret)]) None None 5.

Definition mode_request (d : Desk) (mode secret : string) : Request :=
  request_of d POST ("/desk/api/operating-mode/" +:+ mode)
             (Some [("X-Control-Token", secret)]) None None 50.

(** a loop body that looks at the message only: it says what [verdict]
    says and leaves the state alone *)
Definition decides {A} (body : Json -> M (option A))
    (verdict : Json -> Outcome (option A)) : Prop :=
  forall e st, body e st = (verdict e, st).

(** what the loop bodies of the button waits make of an event *)
Definition button_verdict (test : Json -> bool) (button : string) (e : Json)
  : Outcome (option Json) :=
  match e with
  | JObj fields =>
      match dict_get button fields with
      | Some v => Return (if test v then Some e else None)
      | None => Return None
      end
  | _ => Raise AttributeError
  end.

(** what the loop bodies of the brake waits make of a message, [word]
    being "Unlocked" or "Locked" *)
Definition brakes_verdict (word : string) (status : Json) : Outcome (option unit) :=
  match getitem status "brakeState" with
  | Return v =>
      match py_iter v with
      | Return entries =>
          Return (if forallb (fun b => eq_str b word) entries then Some tt else None)
      | Raise x => Raise x
      | Pending => Pending
      | IllTyped => IllTyped
      end
  | Raise x => Raise x
  | Pending => Pending
  | IllTyped => IllTyped
  end.

(** the wait returned [a] for the message [e] of the channel: [e] came
    in time, it is the first message the body accepts, the messages
    before it came in time and were passed over, one more message came
    in time after it, and exactly the messages up to that one are taken
    off the channel *)
Definition stopped_at {A} (address : string) (verdict : Json -> Outcome (option A))
    (st : St) (e : Json) (a : A) (st' : St) : Prop :=
  exists earlier t next later,
    feed_of address (world st) = earlier ++ (t, e) :: next :: later
    /\ Forall (fun m => in_time (fst m) st /\ verdict (snd m) = Return None) earlier
    /\ in_time t st
    /\ in_time (fst next) st
    /\ verdict e = Return (Some a)
    /\ st' = after_feed address later st.

(** no message follows in time: the channel stays silent, or its next
    message comes at the deadline or later *)
Definition nothing_in_time (feed : list (Q * Json)) (st : St) : Prop :=
  match feed with
  | [] => True
  | (t, _) :: _ => ~ in_time t st
  end.

(** how a wait ends that can only be cancelled *)
Definition cut_short {A} (st : St) : Outcome A :=
  match deadline (world st) with
  | Some _ => Raise Cancelled
  | None => Pending
  end.

(** the entries the brake waits loop over: the items of a list, the
    characters of a text, the keys of an object *)
Definition entries_of (status : Json) : option (list Json) :=
  match getitem status "brakeState" with
  | Return v =>
      match py_iter v with
      | Return entries => Some entries
      | _ => None
      end
  | _ => None
  end.

(** navigation events: a press given as the number 1, and a message that
    is a list *)
Definition odd_events : list (Q * Json) :=
  [ (1%Q, JObj [("check", JBool true)]);
    (2%Q, JObj [("circle", JInt 1); ("check", JBool false)]);
    (3%Q, JArr []) ].

(** where [lock] ([close]) and [unlock] post to, by the stored platform;
    no address for any other text *)
Definition brakes_url (platform : string) (close : bool) : option string :=
  if String.eqb platform "panda" then
    Some (if close then "/desk/api/robot/close-brakes" else "/desk/api/robot/open-brakes")
  else if String.eqb platform "fr3" then
    Some (if close then "/desk/api/joints/lock" else "/desk/api/joints/unlock")
  else None.

(** the state after the device answered a request *)
Definition answered (rq : Request) (rest : list Response) (st : St) : St :=
  mkSt (self st) (with_exchange rq rest (world st)).

(** a session on "fr3" holding token 3, with the device's answers and
    the safety-status messages to come *)
Definition braked (answers : list Response) (feed : list (Q * Json)) : St :=
  mkSt (mkDesk false "fr3" "robot" true "admin" (mkToken "3" "admin" "old") (Some "cookie"))
       (mkWorld true None answers [] {[ safety_status := feed ]} None [] [] true).

(** the requests sent so far *)
Definition sent_so_far (st : St) : list Request := sent (world st).

(** * Properties *)

(** ** Known answers for the library functions *)

Example sha256_abc :
  Sha256.digest (encode_utf8 "abc") =
  [0xba; 0x78; 0x16; 0xbf; 0x8f; 0x01; 0xcf; 0xea; 0x41; 0x41; 0x40; 0xde;
   0x5d; 0xae; 0x22; 0x23; 0xb0; 0x03; 0x61; 0xa3; 0x96; 0x17; 0x7a; 0x9c;
   0xb4; 0x10; 0xff; 0x61; 0xf2; 0x00; 0x15; 0xad].
Proof. vm_compute. reflexivity. Qed.

Example sha256_empty :
  Sha256.digest [] =
  [227; 176; 196; 66; 152; 252; 28; 20; 154; 251; 244; 200; 153; 111; 185; 36;
   39; 174; 65; 228; 100; 155; 147; 76; 164; 149; 153; 27; 120; 82; 184; 85].
Proof. vm_compute. reflexivity. Qed.

Example b64encode_foobar :
  decode_utf8 (Base64.b64encode (encode_utf8 "foobar")) = "Zm9vYmFy"
  /\ decode_utf8 (Base64.b64encode (encode_utf8 "fooba")) = "Zm9vYmE="
  /\ decode_utf8 (Base64.b64encode (encode_utf8 "foob")) = "Zm9vYg==".
Proof. vm_compute. auto. Qed.

(** ** Base64 in lines *)

Section Base64Lines.
Import Base64.

Lemma chunks_upto_nil {A} fuel n : @chunks_upto A fuel n [] = [].
Proof. destruct fuel; reflexivity. Qed.

Lemma b64encode_app (a b : bytes) (k : nat) :
  length a = (3 * k)%nat -> b64encode (a ++ b) = b64encode a ++ b64encode b.
Proof.
  revert a. induction k as [|k IH]; intros a Ha.
  - destruct a; [reflexivity | simpl in Ha; lia].
  - destruct a as [|x [|y [|z a]]]; simpl in Ha; try lia.
    change (b64encode ((x :: y :: z :: a) ++ b))
      with (sextet (Z.shiftr x 2)
            :: sextet (Z.lor (Z.shiftl (Z.land x 3) 4) (Z.shiftr y 4))
            :: sextet (Z.lor (Z.shiftl (Z.land y 15) 2) (Z.shiftr z 6))
            :: sextet (Z.land z 63) :: b64encode (a ++ b)).
    rewrite IH by lia. reflexivity.
Qed.

(** the lines of [encodebytes], put end to end, are [b64encode] *)
Lemma b64encode_chunks (fuel : nat) (s : bytes) :
  (length s <= fuel)%nat ->
  concat (map b64encode (chunks_upto fuel MAXBINSIZE s)) = b64encode s.
Proof.
  revert s. induction fuel as [|fuel IH]; intros s Hs.
  - destruct s; [reflexivity | simpl in Hs; lia].
  - destruct s as [|x s]; [reflexivity|].
    cbn [chunks_upto map concat].
    destruct (Nat.le_gt_cases MAXBINSIZE (length (x :: s))) as [Hge | Hlt].
    + rewrite IH by (rewrite length_drop; unfold MAXBINSIZE in *; simpl in *; lia).
      rewrite <- (b64encode_app _ _ 19).
      * now rewrite take_drop.
      * rewrite length_take. unfold MAXBINSIZE in *. lia.
    + rewrite take_ge, drop_ge by lia.
      rewrite chunks_upto_nil. simpl. apply app_nil_r.
Qed.

Lemma sextet_char i : b64_char (sextet i).
Proof.
  unfold sextet.
  remember (Z.to_nat i) as n eqn:E. clear E i.
  do 64 (destruct n as [|n]; [vm_compute; intuition congruence|]).
  vm_compute; intuition congruence.
Qed.

Lemma eq_sign_char : b64_char eq_sign.
Proof. vm_compute; intuition congruence. Qed.

Lemma b64encode_chars (s : bytes) : Forall b64_char (b64encode s).
Proof.
  assert (H : forall n (t : bytes), (length t <= n)%nat -> Forall b64_char (b64encode t)).
  { induction n as [|n IH]; intros t Ht.
    - destruct t; [constructor | simpl in Ht; lia].
    - destruct t as [|x [|y [|z t]]].
      + constructor.
      + repeat (constructor; [first [apply sextet_char | apply eq_sign_char]|]).
        constructor.
      + repeat (constructor; [first [apply sextet_char | apply eq_sign_char]|]).
        constructor.
      + cbn [b64encode]. do 4 (constructor; [apply sextet_char|]).
        apply IH. simpl in Ht. lia. }
  apply (H (length s)). lia.
Qed.

Lemma ascii_of_b64_char c :
  b64_char c -> ascii_of_N (Z.to_N c) <> "010"%char.
Proof.
  intros [Hr Hn] E. apply Hn.
  assert (HN : N_of_ascii (ascii_of_N (Z.to_N c)) = Z.to_N c).
  { apply N_ascii_embedding. lia. }
  rewrite E in HN. unfold newline. simpl in HN. lia.
Qed.

Lemma filter_lines (ls : list bytes) :
  Forall (Forall b64_char) ls ->
  filter (fun c => c <> "010"%char)
    (map (fun z => ascii_of_N (Z.to_N z)) (concat (map (fun l => l ++ [newline]) ls)))
  = map (fun z => ascii_of_N (Z.to_N z)) (concat ls).
Proof.
  induction 1 as [|l ls Hl _ IH]; [reflexivity|].
  cbn [map concat].
  rewrite <- !app_assoc, !map_app, !filter_app, IH. f_equal.
  clear IH. induction Hl as [|c l Hc _ IHl]; [reflexivity|].
  cbn [map]. rewrite filter_cons_True by (now apply ascii_of_b64_char).
  now rewrite IHl.
Qed.

(** deleting the line feeds of [encodebytes] leaves [b64encode] *)
Lemma strip_encodebytes (s : bytes) :
  strip_newlines (decode_utf8 (encodebytes s)) = decode_utf8 (b64encode s).
Proof.
  unfold strip_newlines, decode_utf8, encodebytes, chunks.
  rewrite list_ascii_of_string_of_list_ascii.
  replace (map b2a_base64 (chunks_upto (length s) MAXBINSIZE s))
    with (map (fun l => l ++ [newline])
              (map b64encode (chunks_upto (length s) MAXBINSIZE s)))
    by (now rewrite map_map).
  rewrite filter_lines.
  - now rewrite b64encode_chunks.
  - apply Forall_map, Forall_forall. intros l _. apply b64encode_chars.
Qed.

Lemma chunks_upto_enough {A} (n f1 f2 : nat) (s : list A) :
  (0 < n)%nat -> (length s <= f1)%nat -> (length s <= f2)%nat ->
  chunks_upto f1 n s = chunks_upto f2 n s.
Proof.
  intros Hn. revert f2 s. induction f1 as [|f1 IH]; intros f2 s H1 H2.
  - destruct s; [now rewrite !chunks_upto_nil | simpl in H1; lia].
  - destruct s as [|x s]; [now rewrite !chunks_upto_nil|].
    destruct f2 as [|f2]; [simpl in H2; lia|].
    cbn [chunks_upto]. f_equal.
    apply IH; rewrite length_drop; simpl in *; lia.
Qed.

Lemma length_b64encode (s : bytes) :
  length (b64encode s) = (4 * ((length s + 2) / 3))%nat.
Proof.
  assert (H : forall n (t : bytes), (length t <= n)%nat ->
              length (b64encode t) = (4 * ((length t + 2) / 3))%nat).
  { induction n as [|n IH]; intros t Ht.
    - destruct t; [reflexivity | simpl in Ht; lia].
    - destruct t as [|x [|y [|z t]]]; try reflexivity.
      cbn [b64encode length]. rewrite IH by (simpl in Ht; lia).
      replace (S (S (S (length t))) + 2)%nat with (length t + 2 + 1 * 3)%nat by lia.
      rewrite Nat.div_add by lia. lia. }
  apply (H (length s)). lia.
Qed.

(** the lines of [encodebytes] are the base64 text cut every 76
    characters *)
Lemma b64encode_lines (f1 f2 : nat) (s : bytes) :
  (length s <= f1)%nat -> (length (b64encode s) <= f2)%nat ->
  map b64encode (chunks_upto f1 MAXBINSIZE s) = chunks_upto f2 76 (b64encode s).
Proof.
  revert f2 s. induction f1 as [|f1 IH]; intros f2 s H1 H2.
  - destruct s; [simpl; now rewrite chunks_upto_nil | simpl in H1; lia].
  - destruct s as [|x s]; [simpl; now rewrite chunks_upto_nil|].
    pose proof (length_b64encode (x :: s)) as HL.
    assert (Hpos : (0 < length (b64encode (x :: s)))%nat).
    { rewrite HL. cbn [length].
      assert (1 <= (S (length s) + 2) / 3)%nat by (apply Nat.div_le_lower_bound; lia).
      lia. }
    destruct f2 as [|f2]; [lia|].
    cbn [chunks_upto map].
    destruct (b64encode (x :: s)) as [|c cs] eqn:E; [simpl in Hpos; lia|].
    rewrite <- E in *. clear c cs E.
    destruct (Nat.le_gt_cases MAXBINSIZE (length (x :: s))) as [Hge | Hlt].
    + assert (Hsplit : b64encode (x :: s)
               = b64encode (take MAXBINSIZE (x :: s)) ++ b64encode (drop MAXBINSIZE (x :: s))).
      { rewrite <- (b64encode_app _ _ 19).
        - now rewrite take_drop.
        - rewrite length_take. unfold MAXBINSIZE in *. lia. }
      assert (H76 : length (b64encode (take MAXBINSIZE (x :: s))) = 76%nat).
      { rewrite length_b64encode, length_take.
        replace (MAXBINSIZE `min` length (x :: s))%nat with 57%nat
          by (unfold MAXBINSIZE in *; lia).
        reflexivity. }
      rewrite Hsplit.
      rewrite take_app_length' by (symmetry; exact H76).
      rewrite drop_app_length' by (symmetry; exact H76).
      f_equal. apply IH.
      * rewrite length_drop. unfold MAXBINSIZE in *. simpl in *. lia.
      * rewrite Hsplit, length_app, H76 in H2. lia.
    + rewrite (take_ge (x :: s)), (drop_ge (x :: s)) by lia.
      assert (length (b64encode (x :: s)) <= 76)%nat.
      { rewrite HL. unfold MAXBINSIZE in Hlt.
        assert ((length (x :: s) + 2) / 3 <= 19)%nat
          by (apply Nat.lt_succ_r, Nat.Div0.div_lt_upper_bound; lia).
        lia. }
      rewrite take_ge, drop_ge by lia.
      now rewrite !chunks_upto_nil.
Qed.

Lemma encodebytes_lines (s : bytes) :
  encodebytes s = concat (map (fun l => l ++ [newline]) (chunks 76 (b64encode s))).
Proof.
  unfold encodebytes, chunks.
  rewrite <- (b64encode_lines (length s)) by lia.
  now rewrite map_map.
Qed.

End Base64Lines.

(** ** The password digest *)

Example encode_password_admin :
  encode_password "admin" "secret" =
  "NDksMTE1LDY2LDEyOSwxODksNDcsMTE2LDE0NiwxMTgsMjMxLDI0OCwxMDgsMTIzLDExNiwxNDks
MjE5LDE3MiwxNCwxMzUsODQsOTQsMjEzLDIzMSwyMDIsMjU1LDYsMjE2LDE1MCwxNTgsMzgsNiwy
MTU=
".
Proof. vm_compute. reflexivity. Qed.

(** C7, against the claim as stated: for the user "admin" with password
    "secret" the value of [encode_password] is not the base64 encoding
    of the comma-joined digest octets; it has line feeds in it. *)
Lemma encode_password_is_not_plain_base64 :
  encode_password "admin" "secret" <> spec_encodePassword "admin" "secret".
Proof.
  intros E.
  assert (H : String.eqb (encode_password "admin" "secret")
                         (spec_encodePassword "admin" "secret") = false)
    by (vm_compute; reflexivity).
  rewrite E, String.eqb_refl in H. discriminate.
Qed.

(** C7, amended: [encode_password username password] is the base64
    encoding of the comma-joined decimal octets of
    SHA-256(password + "#" + username + "@franka"), cut into lines of 76
    characters with a line feed after each line (the last one too);
    without the line feeds it is exactly that base64 encoding.  The
    same two arguments always give the same text. *)
Theorem encode_password_is_base64_in_lines (username password : string) :
  let b64 := Base64.b64encode (encode_utf8 (digits_of username password)) in
  encode_password username password
    = decode_utf8 (concat (map (fun line => line ++ [Base64.newline]) (chunks 76 b64)))
  /\ spec_encodePassword username password = decode_utf8 b64
  /\ strip_newlines (encode_password username password)
     = spec_encodePassword username password
  /\ (forall username' password',
        username' = username -> password' = password ->
        encode_password username' password' = encode_password username password).
Proof.
  cbv zeta. unfold spec_encodePassword.
  fold (digits_of username password).
  repeat split.
  - unfold encode_password. fold (digits_of username password).
    now rewrite encodebytes_lines.
  - unfold encode_password. fold (digits_of username password).
    apply strip_encodebytes.
  - now intros username' password' -> ->.
Qed.

Lemma encode_password_is_base64_in_lines_witness :
  strip_newlines (encode_password "admin" "secret") = spec_encodePassword "admin" "secret"
  /\ encode_password ("ad" +:+ "min") "secret" = encode_password "admin" "secret".
Proof.
  destruct (encode_password_is_base64_in_lines "admin" "secret") as (_ & _ & Hstrip & Hsame).
  split; [exact Hstrip|].
  apply Hsame; reflexivity.
Defined.


(** ** Transport *)

Ltac run :=
  unfold bind, ret, raise, lift, get_self, get_world, set_self, set_world,
    print, _logger, json_of; cbn.

Lemma _request_runs method url headers json files timeout st :
  method <> DELETE ->
  _request method url headers json files timeout st =
  let rq := request_of (self st) method url headers json files timeout in
  match replies (world st) with
  | [] => (Raise TransportError, mkSt (self st) (with_exchange rq [] (world st)))
  | r :: rest =>
      let w := with_exchange rq rest (world st) in
      if status_code r =? 200 then (Return r, mkSt (self st) w)
      else (Raise (ConnectionError (text r)),
            mkSt (self st) (with_printed (complaint rq r) w))
  end.
Proof.
  intros Hm. unfold _request, send. run.
  destruct method; [| |now destruct Hm];
    (destruct (replies (world st)) as [|r rest]; cbn; [reflexivity|];
     destruct (status_code r =? 200); reflexivity).
Qed.

(** a [delete] call never leaves the client *)
Lemma _request_delete url headers json files timeout st :
  _request DELETE url headers json files timeout st = (Raise TypeError, st).
Proof. reflexivity. Qed.

(** C1, against the claim as stated: the device answers 201, a success
    status, and [_request] raises all the same. *)
Lemma request_raises_on_201 :
  spec_is_success (status_code created) = true
  /\ fst (_request POST "/admin/api/control-token/request" None None None 5
            (on_fr3 [created]))
     = Raise (ConnectionError (text created)).
Proof. split; reflexivity. Qed.

(** C1, amended: for every response the request operation receives (a
    [get] or a [post]: a [delete] call is refused by the HTTP client
    before anything is sent and receives none), the error carrying the
    response body text unmodified is raised exactly when the status is
    not 200, and the response is returned exactly when it is 200; in
    particular every non-2xx response raises the error with its body. *)
Theorem request_fails_unless_200 method url headers json files timeout st r rest :
  method <> DELETE ->
  replies (world st) = r :: rest ->
  fst (_request method url headers json files timeout st)
    = (if status_code r =? 200 then Return r else Raise (ConnectionError (text r)))
  /\ (spec_is_success (status_code r) = false ->
      fst (_request method url headers json files timeout st)
        = Raise (ConnectionError (text r))).
Proof.
  intros Hm Hr. rewrite _request_runs by exact Hm. rewrite Hr. cbn zeta.
  split.
  - destruct (status_code r =? 200); reflexivity.
  - intros Hs. destruct (status_code r =? 200) eqn:E; [|reflexivity].
    apply Z.eqb_eq in E. rewrite E in Hs. discriminate.
Qed.

Lemma request_fails_unless_200_witness :
  replies (world (on_fr3 [not_found])) = [not_found]
  /\ fst (_request GET "/admin/api/control-token" None None None 5 (on_fr3 [not_found]))
     = Raise (ConnectionError "File not found").
Proof.
  split; [reflexivity|].
  refine (proj1 (request_fails_unless_200 GET "/admin/api/control-token" None None None 5
                   (on_fr3 [not_found]) not_found [] _ eq_refl)).
  discriminate.
Defined.

(** ** Calls that leave the state alone *)

Lemma bind_run {A B} (c : M A) (k : A -> M B) st :
  bind c k st =
  match c st with
  | (Return a, st') => k a st'
  | (Raise e, st') => (Raise e, st')
  | (Pending, st') => (Pending, st')
  | (IllTyped, st') => (IllTyped, st')
  end.
Proof. reflexivity. Qed.

Lemma stateless_ret {A} (a : A) : stateless (ret a).
Proof. intros st. reflexivity. Qed.

Lemma stateless_raise {A} e : stateless (@raise A e).
Proof. intros st. reflexivity. Qed.

Lemma stateless_lift {A} (o : Outcome A) : stateless (lift o).
Proof. intros st. reflexivity. Qed.

Lemma stateless_json_of r : stateless (json_of r).
Proof. intros st. unfold json_of. destruct (decoded r); reflexivity. Qed.

Lemma stateless_bind {A B} (c : M A) (k : A -> M B) :
  stateless c -> (forall a, stateless (k a)) -> stateless (bind c k).
Proof.
  intros Hc Hk st. rewrite bind_run. specialize (Hc st).
  destruct (c st) as [[a | e | |] st1]; cbn in *; subst; try reflexivity.
  apply Hk.
Qed.

Create HintDb stateless.
#[local] Hint Resolve stateless_ret stateless_raise stateless_lift
  stateless_json_of stateless_bind : stateless.

Lemma stateless_result {A} (c : M A) st o st' :
  stateless c -> c st = (o, st') -> st' = st.
Proof. intros H E. specialize (H st). rewrite E in H. exact H. Qed.

(** ** The active token *)

Lemma _get_active_token_frame st o st' :
  _get_active_token st = (o, st') ->
  self st' = self st
  /\ conf_file (world st') = conf_file (world st)
  /\ conf_dir (world st') = conf_dir (world st)
  /\ feeds (world st') = feeds (world st)
  /\ deadline (world st') = deadline (world st)
  /\ logged (world st') = logged (world st)
  /\ (_legacy (self st) = false ->
      sent (world st') = sent (world st) ++ [control_token_query (self st)]
      /\ replies (world st') = tail (replies (world st))).
Proof.
  unfold _get_active_token. rewrite bind_run. cbn [get_self].
  destruct (_legacy (self st)) eqn:L.
  - intros [= <- <-]. repeat split; try reflexivity; intros; discriminate.
  - rewrite bind_run, _request_runs by discriminate. cbv zeta.
    destruct (replies (world st)) as [|r rest] eqn:R.
    + intros [= <- <-]. cbn. repeat split; reflexivity.
    + destruct (status_code r =? 200).
      * intros E. apply stateless_result in E.
        -- subst st'. cbn. repeat split; reflexivity.
        -- apply stateless_bind; [apply stateless_json_of|]. intros j.
           apply stateless_bind; [apply stateless_lift|]. intros [ | | | | | ];
             auto 10 with stateless.
      * intros [= <- <-]. cbn. repeat split; reflexivity.
Qed.

(** what the device's answer to the query makes of the active token *)
Lemma _get_active_token_none st r rest j :
  _legacy (self st) = false ->
  replies (world st) = r :: rest ->
  status_code r = 200 -> decoded r = Some j ->
  getitem j "activeToken" = Return JNull ->
  fst (_get_active_token st) = Return no_token.
Proof.
  intros L R S D G.
  unfold _get_active_token. rewrite bind_run. cbn [get_self]. rewrite L.
  rewrite bind_run, _request_runs by discriminate; rewrite R. cbv zeta. rewrite S. cbn [Z.eqb Pos.eqb].
  unfold json_of. rewrite D. run. rewrite G. reflexivity.
Qed.

Lemma _get_active_token_reported st r rest j at_ i ident owner :
  _legacy (self st) = false ->
  replies (world st) = r :: rest ->
  status_code r = 200 -> decoded r = Some j ->
  getitem j "activeToken" = Return at_ -> at_ <> JNull ->
  getitem at_ "id" = Return i -> py_str i = Return ident ->
  getitem at_ "ownedBy" = Return (JStr owner) ->
  _get_active_token st
  = (Return (mkToken ident owner ""),
     mkSt (self st) (with_exchange (control_token_query (self st)) rest (world st))).
Proof.
  intros L R S D G Hat Gi Si Go.
  unfold _get_active_token. rewrite bind_run. cbn [get_self]. rewrite L.
  rewrite bind_run, _request_runs by discriminate; rewrite R. cbv zeta. rewrite S. cbn [Z.eqb Pos.eqb].
  unfold json_of. rewrite D. run. rewrite G.
  destruct at_; try (now destruct Hat); rewrite Gi, Si, Go; reflexivity.
Qed.

(** an active token with the empty id counts as no claim: without
    [force] the request for a token goes out *)
Example empty_id_is_no_claim :
  sent (world (snd (take_control false (holding "3" [ok (held_by "" "eve"); ok granted]))))
  = [ control_token_query (self (holding "3" []));
      token_request false (self (holding "3" [])) ].
Proof. reflexivity. Qed.

(** ** TokenStore *)

Lemma _save_token_runs (t : Token) (st : St) :
  _save_token t st =
  match first_refused t with
  | Some v => (Raise (ValueError_interpolation v), st)
  | None =>
      if writable (_hostname (self st)) t then
        (Return tt,
         mkSt (with_token t (self st))
              (with_conf (<[_hostname (self st) := section_of (read_back t)]>
                            (default ∅ (conf_file (world st))))
                         (world st)))
      else (IllTyped, st)
  end.
Proof.
  unfold _save_token, first_refused, before_set. run.
  destruct (refused (id t)); [reflexivity|].
  destruct (refused (owned_by t)); [reflexivity|].
  destruct (refused (token t)); [reflexivity|]. cbn.
  destruct (writable (_hostname (self st)) t); [|reflexivity]. cbn.
  destruct (conf_file (world st)); reflexivity.
Qed.

Lemma section_of_fields (t : Token) :
  section_of t !! "id" = Some (id t)
  /\ section_of t !! "owned_by" = Some (owned_by t)
  /\ section_of t !! "token" = Some (token t).
Proof. destruct t. repeat split; reflexivity. Qed.

(** texts without a per cent sign pass ConfigParser untouched *)
Lemma without_doubled_plain (l : list ascii) :
  existsb (Ascii.eqb "%") l = false -> without_doubled l = l.
Proof.
  induction l as [|c l IH]; [reflexivity|]. cbn [existsb].
  intros H. apply orb_false_elim in H. destruct H as [Hc Hl].
  rewrite Ascii.eqb_sym in Hc.
  destruct l as [|d l]; [reflexivity|].
  cbn [without_doubled]. rewrite Hc. cbn [andb]. f_equal. now apply IH.
Qed.

Lemma unescape_plain (l : list ascii) :
  existsb (Ascii.eqb "%") l = false -> unescape l = l.
Proof.
  induction l as [|c l IH]; [reflexivity|]. cbn [existsb].
  intros H. apply orb_false_elim in H. destruct H as [Hc Hl].
  rewrite Ascii.eqb_sym in Hc.
  destruct l as [|d l]; [reflexivity|].
  cbn [unescape]. rewrite Hc. cbn [andb]. f_equal. now apply IH.
Qed.

Lemma without_references_plain (fuel : nat) (l : list ascii) :
  existsb (Ascii.eqb "%") l = false -> without_references fuel l = l.
Proof.
  revert l. induction fuel as [|fuel IH]; intros l H; [reflexivity|].
  destruct l as [|c l]; [reflexivity|]. cbn [existsb] in H.
  apply orb_false_elim in H. destruct H as [Hc Hl].
  rewrite Ascii.eqb_sym in Hc.
  cbn [without_references after_reference].
  destruct l as [|d l]; [now rewrite IH|].
  rewrite Hc. cbn [andb]. now rewrite IH.
Qed.

Lemma has_reference_plain (l : list ascii) :
  existsb (Ascii.eqb "%") l = false -> has_reference l = false.
Proof.
  induction l as [|c l IH]; [reflexivity|]. cbn [existsb].
  intros H. apply orb_false_elim in H. destruct H as [Hc Hl].
  rewrite Ascii.eqb_sym in Hc.
  destruct l as [|d l]; [reflexivity|].
  cbn [has_reference]. rewrite Hc. cbn [andb orb]. now apply IH.
Qed.

Lemma plain_passes (v : string) :
  plain v = true ->
  refused v = false /\ single_line v = true
  /\ has_reference (list_ascii_of_string v) = false /\ as_read v = v.
Proof.
  unfold plain. intros H.
  apply andb_prop in H. destruct H as [H Hs].
  apply andb_prop in H. destruct H as [Hp Hl].
  apply negb_true_iff in Hp. apply String.eqb_eq in Hs.
  repeat split.
  - unfold refused. now rewrite without_doubled_plain, without_references_plain.
  - exact Hl.
  - now apply has_reference_plain.
  - unfold as_read. rewrite Hs, unescape_plain by exact Hp.
    apply string_of_list_ascii_of_string.
Qed.

(** a token of plain texts is stored and read back as it is *)
Lemma plain_token_passes (hostname : string) (t : Token) :
  section_name hostname = true -> plain_token t = true ->
  first_refused t = None /\ writable hostname t = true /\ read_back t = t.
Proof.
  unfold plain_token. intros Hh H.
  apply andb_prop in H. destruct H as [H Ht].
  apply andb_prop in H. destruct H as [Hi Ho].
  destruct (plain_passes _ Hi) as (Ri & Li & Fi & Ai).
  destruct (plain_passes _ Ho) as (Ro & Lo & Fo & Ao).
  destruct (plain_passes _ Ht) as (Rt & Lt & Ft & At').
  repeat split.
  - unfold first_refused. now rewrite Ri, Ro, Rt.
  - unfold writable. cbn [forallb]. now rewrite Hh, Li, Lo, Lt, Fi, Fo, Ft.
  - unfold read_back. rewrite Ai, Ao, At'. now destruct t.
Qed.

(** a token on file for the session's host is the token loaded *)
Lemma _load_token_stored (t : Token) (st : St) :
  stored (world st) (_hostname (self st)) = Some (section_of t) ->
  fst (_load_token st) = Return t.
Proof.
  unfold stored, _load_token. run.
  destruct (conf_file (world st)) as [config|]; [|discriminate].
  intros E. rewrite E. cbn. unfold config_get. rewrite E. cbn.
  destruct (section_of_fields t) as (-> & -> & ->). cbn. now destruct t.
Qed.




(** ** ControlArbiter: the branches that ask for nothing *)

Lemma legacy_reports_nothing st o st' :
  _legacy (self st) = true -> _get_active_token st = (o, st') -> o = Return no_token.
Proof.
  intros L. unfold _get_active_token. rewrite bind_run. cbn [get_self]. rewrite L.
  now intros [= <- _].
Qed.

Lemma eqb_differs (a b : string) : a <> b -> String.eqb a b = false.
Proof. intros H. now apply String.eqb_neq. Qed.

(** a legacy session sees no active token, so a reported one rules the
    flag out *)
Lemma reported_token_not_legacy st active st1 :
  _get_active_token st = (Return active, st1) ->
  id active <> "" ->
  _legacy (self st) = false.
Proof.
  intros H Hid. destruct (_legacy (self st)) eqn:L; [|reflexivity].
  apply (legacy_reports_nothing _ _ _ L) in H. injection H as ->.
  exfalso. now apply Hid.
Qed.

(** the first steps of [take_control]: the legacy test, the query and
    the second reading of [self] *)
Ltac enter_take_control L H :=
  unfold take_control; rewrite bind_run; cbn [get_self]; rewrite L;
  rewrite bind_run, H, bind_run; cbn [get_self].

(** C5: when the id of the token the session holds is the id of the
    device's active token, [take_control] returns true whatever [force]
    is; the only request it sends is the query for the active token
    (nothing goes to /admin/api/control-token/request) and neither the
    store nor the held token is written. *)
Theorem take_control_already_in_control force st active st1 :
  _get_active_token st = (Return active, st1) ->
  id active <> "" ->
  id (_token (self st)) = id active ->
  exists st',
    take_control force st = (Return true, st')
    /\ sent (world st') = sent (world st) ++ [control_token_query (self st)]
    /\ conf_file (world st') = conf_file (world st)
    /\ conf_dir (world st') = conf_dir (world st)
    /\ self st' = self st.
Proof.
  intros H Hid Hsame.
  pose proof (reported_token_not_legacy _ _ _ H Hid) as L.
  destruct (_get_active_token_frame _ _ _ H) as (Hself & Hf & Hd & _ & _ & _ & Hsent).
  destruct (Hsent L) as [Hs _].
  enter_take_control L H.
  rewrite Hself, Hsame, String.eqb_refl, (eqb_differs _ _ Hid).
  eexists. split; [reflexivity|]. cbn. auto.
Qed.

Lemma take_control_already_in_control_witness :
  fst (take_control true (holding "3" [ok (held_by "3" "admin")])) = Return true
  /\ fst (take_control false (holding "3" [ok (held_by "3" "admin")])) = Return true.
Proof.
  split.
  - destruct (take_control_already_in_control true
                (holding "3" [ok (held_by "3" "admin")]) (mkToken "3" "admin" "")
                (snd (_get_active_token (holding "3" [ok (held_by "3" "admin")]))))
      as (st' & E & _); [reflexivity | discriminate | reflexivity |].
    now rewrite E.
  - destruct (take_control_already_in_control false
                (holding "3" [ok (held_by "3" "admin")]) (mkToken "3" "admin" "")
                (snd (_get_active_token (holding "3" [ok (held_by "3" "admin")]))))
      as (st' & E & _); [reflexivity | discriminate | reflexivity |].
    now rewrite E.
Defined.

(** C4: when the device reports an active token whose id is not the id
    of the token the session holds, [take_control] without [force]
    returns false; the only request it sends is the query for the active
    token (nothing goes to /admin/api/control-token/request) and neither
    the store nor the held token is written. *)
Theorem take_control_refused_without_force st active st1 :
  _get_active_token st = (Return active, st1) ->
  id active <> "" ->
  id (_token (self st)) <> id active ->
  exists st',
    take_control false st = (Return false, st')
    /\ sent (world st') = sent (world st) ++ [control_token_query (self st)]
    /\ conf_file (world st') = conf_file (world st)
    /\ conf_dir (world st') = conf_dir (world st)
    /\ self st' = self st.
Proof.
  intros H Hid Hother.
  pose proof (reported_token_not_legacy _ _ _ H Hid) as L.
  destruct (_get_active_token_frame _ _ _ H) as (Hself & Hf & Hd & _ & _ & _ & Hsent).
  destruct (Hsent L) as [Hs _].
  enter_take_control L H.
  rewrite Hself, (eqb_differs _ _ Hother), (eqb_differs _ _ Hid).
  eexists. split; [reflexivity|]. cbn. auto.
Qed.

Lemma take_control_refused_without_force_witness :
  fst (take_control false (holding "3" [ok (held_by "8" "eve")])) = Return false.
Proof.
  destruct (take_control_refused_without_force
              (holding "3" [ok (held_by "8" "eve")]) (mkToken "8" "eve" "")
              (snd (_get_active_token (holding "3" [ok (held_by "8" "eve")]))))
    as (st' & E & _); [reflexivity | discriminate | discriminate |].
  now rewrite E.
Defined.

(** C10: when the device reports no active token and the session holds
    the empty token (id ""), [check_has_control] returns true: both ids
    are the empty string. *)
Theorem check_has_control_with_no_token_at_all st r rest j :
  replies (world st) = r :: rest ->
  status_code r = 200 -> decoded r = Some j ->
  getitem j "activeToken" = Return JNull ->
  id (_token (self st)) = "" ->
  fst (check_has_control st) = Return true.
Proof.
  intros R S D G Hid.
  unfold check_has_control. rewrite bind_run.
  destruct (_get_active_token st) as [o st1] eqn:E.
  destruct (_get_active_token_frame _ _ _ E) as (Hself & _).
  assert (Ho : o = Return no_token).
  { destruct (_legacy (self st)) eqn:L.
    - exact (legacy_reports_nothing _ _ _ L E).
    - pose proof (_get_active_token_none st r rest j L R S D G) as Hn.
      now rewrite E in Hn. }
  subst o. run. now rewrite Hself, Hid.
Qed.

Lemma check_has_control_with_no_token_at_all_witness :
  fst (check_has_control (on_fr3 [ok nobody])) = Return true.
Proof.
  apply (check_has_control_with_no_token_at_all (on_fr3 [ok nobody]) (ok nobody) [] nobody);
    reflexivity.
Defined.

(** ** Loops over a channel *)

Lemma with_feed_again address l1 l2 w :
  with_feed address l2 (with_feed address l1 w) = with_feed address l2 w.
Proof. unfold with_feed. cbn. now rewrite insert_insert_eq. Qed.

Lemma after_feed_again address l1 l2 st :
  after_feed address l2 (after_feed address l1 st) = after_feed address l2 st.
Proof. unfold after_feed. cbn. now rewrite with_feed_again. Qed.

Lemma feed_after_feed address l st :
  feed_of address (world (after_feed address l st)) = l.
Proof. unfold feed_of. cbn. now rewrite lookup_insert_eq. Qed.

Lemma checkpoint_in_time t st : in_time t st -> checkpoint t st = (Return tt, st).
Proof.
  unfold in_time, checkpoint. rewrite bind_run. cbn [get_world].
  destruct (deadline (world st)) as [d|]; [|reflexivity].
  intros Hlt. destruct (Qle_bool d t) eqn:E; [|reflexivity].
  apply Qle_bool_iff in E. now apply Qlt_not_le in Hlt.
Qed.

Lemma checkpoint_late t d st :
  deadline (world st) = Some d -> (d <= t)%Q -> checkpoint t st = (Raise Cancelled, st).
Proof.
  intros Hd Hle. unfold checkpoint. rewrite bind_run. cbn [get_world]. rewrite Hd.
  apply Qle_bool_iff in Hle. now rewrite Hle.
Qed.

Lemma in_time_or_late t st :
  in_time t st \/ exists d, deadline (world st) = Some d /\ (d <= t)%Q.
Proof.
  unfold in_time. destruct (deadline (world st)) as [d|]; [|now left].
  destruct (Qlt_le_dec t d); [now left | right; eauto].
Qed.

(** the [async with] is left when the next message has come *)
Lemma leave_generator_next address t e later st :
  in_time t st ->
  leave_generator address ((t, e) :: later) st = (Return tt, after_feed address later st).
Proof.
  intros Ht. cbn [leave_generator]. now rewrite bind_run, (checkpoint_in_time _ _ Ht).
Qed.

(** and it is not left when none comes in time *)
Lemma leave_generator_nothing address feed st :
  nothing_in_time feed st ->
  leave_generator address feed st = (cut_short st, st).
Proof.
  destruct feed as [|[t e] later]; cbn [nothing_in_time leave_generator].
  - intros _. unfold silence, cut_short. rewrite bind_run. cbn [get_world].
    now destruct (deadline (world st)).
  - intros Hn. destruct (in_time_or_late t st) as [Ht | (d & Hd & Hle)]; [contradiction|].
    rewrite bind_run, (checkpoint_late _ _ _ Hd Hle). unfold cut_short. now rewrite Hd.
Qed.

Section Loops.
Context {A : Type} (address : string).
Context (body : Json -> M (option A)) (verdict : Json -> Outcome (option A)).
Hypothesis body_decides : decides body verdict.

Lemma async_for_nothing st :
  nothing_in_time (feed_of address (world st)) st ->
  async_for address body st = (cut_short st, st).
Proof.
  intros Hn. unfold async_for. rewrite bind_run. cbn [get_world].
  destruct (feed_of address (world st)) as [|[t e] rest]; cbn [nothing_in_time iterate] in *.
  - unfold silence, cut_short. rewrite bind_run. cbn [get_world].
    now destruct (deadline (world st)).
  - destruct (in_time_or_late t st) as [Ht | (d & Hd & Hle)]; [contradiction|].
    rewrite bind_run, (checkpoint_late _ _ _ Hd Hle). unfold cut_short. now rewrite Hd.
Qed.

(** one turn of the loop, on a message that comes in time *)
Lemma async_for_step st t e rest :
  feed_of address (world st) = (t, e) :: rest ->
  in_time t st ->
  async_for address body st =
  match verdict e with
  | Return (Some a) =>
      bind (leave_generator address rest) (fun _ => ret a) (after_feed address rest st)
  | Return None => async_for address body (after_feed address rest st)
  | Raise x =>
      (Raise (out_of_nursery (strict_exception_groups (world st)) x),
       after_feed address rest st)
  | Pending => (Pending, after_feed address rest st)
  | IllTyped => (IllTyped, after_feed address rest st)
  end.
Proof.
  intros Hf Ht. unfold async_for. rewrite !bind_run. cbn [get_world].
  rewrite Hf, feed_after_feed. cbn [iterate].
  rewrite bind_run, (checkpoint_in_time _ _ Ht).
  rewrite bind_run. cbn [set_world]. rewrite bind_run. unfold in_nursery.
  rewrite body_decides.
  destruct (verdict e) as [[a|] | x | |]; reflexivity.
Qed.

(** the same turn, after messages that are passed over *)
Lemma async_for_reaches earlier :
  forall st t e rest,
    feed_of address (world st) = earlier ++ (t, e) :: rest ->
    Forall (fun m => in_time (fst m) st /\ verdict (snd m) = Return None) earlier ->
    in_time t st ->
    async_for address body st =
    match verdict e with
    | Return (Some a) =>
        bind (leave_generator address rest) (fun _ => ret a) (after_feed address rest st)
    | Return None => async_for address body (after_feed address rest st)
    | Raise x =>
        (Raise (out_of_nursery (strict_exception_groups (world st)) x),
         after_feed address rest st)
    | Pending => (Pending, after_feed address rest st)
    | IllTyped => (IllTyped, after_feed address rest st)
    end.
Proof.
  induction earlier as [|[t0 e0] earlier IH]; intros st t e rest Hf Hall Ht.
  - exact (async_for_step st t e rest Hf Ht).
  - inversion Hall as [|m l [Ht0 Hv0] Hall']; subst. cbn in Ht0, Hv0.
    rewrite (async_for_step st t0 e0 (earlier ++ (t, e) :: rest) Hf Ht0), Hv0.
    rewrite (IH (after_feed address (earlier ++ (t, e) :: rest) st) t e rest
               (feed_after_feed _ _ _) Hall' Ht).
    cbn [world after_feed strict_exception_groups with_feed].
    now rewrite !after_feed_again.
Qed.

(** the body accepts a message and one more comes in time: the loop
    returns, with both taken off the channel *)
Lemma async_for_stops st e a st' :
  stopped_at address verdict st e a st' ->
  async_for address body st = (Return a, st').
Proof.
  intros (earlier & t & [t' e'] & later & Hf & Hall & Ht & Ht' & Hv & ->).
  rewrite (async_for_reaches earlier st t e _ Hf Hall Ht), Hv.
  rewrite bind_run, (leave_generator_next address t' e' later) by exact Ht'.
  cbn [ret]. now rewrite after_feed_again.
Qed.

(** the body accepts a message and nothing follows in time: the loop
    does not return *)
Lemma async_for_unheard earlier st t e a later :
  feed_of address (world st) = earlier ++ (t, e) :: later ->
  Forall (fun m => in_time (fst m) st /\ verdict (snd m) = Return None) earlier ->
  in_time t st ->
  verdict e = Return (Some a) ->
  nothing_in_time later st ->
  async_for address body st = (cut_short st, after_feed address later st).
Proof.
  intros Hf Hall Ht Hv Hn.
  rewrite (async_for_reaches earlier st t e _ Hf Hall Ht), Hv.
  rewrite bind_run, leave_generator_nothing.
  - unfold cut_short. cbn. now destruct (deadline (world st)).
  - destruct later as [|[t' e'] later']; [exact I | exact Hn].
Qed.

(** the body raises on a message *)
Lemma async_for_raises earlier st t e later x :
  feed_of address (world st) = earlier ++ (t, e) :: later ->
  Forall (fun m => in_time (fst m) st /\ verdict (snd m) = Return None) earlier ->
  in_time t st ->
  verdict e = Raise x ->
  async_for address body st
  = (Raise (out_of_nursery (strict_exception_groups (world st)) x),
     after_feed address later st).
Proof.
  intros Hf Hall Ht Hv.
  now rewrite (async_for_reaches earlier st t e _ Hf Hall Ht), Hv.
Qed.

Lemma async_for_returned feed :
  forall st a st',
    feed_of address (world st) = feed ->
    async_for address body st = (Return a, st') ->
    exists e, stopped_at address verdict st e a st'.
Proof.
  induction feed as [|[t e] feed IH]; intros st a st' Hf.
  - rewrite async_for_nothing by now rewrite Hf.
    unfold cut_short. now destruct (deadline (world st)).
  - destruct (in_time_or_late t st) as [Ht | (d & Hd & Hle)].
    + rewrite (async_for_step st t e feed Hf Ht).
      destruct (verdict e) as [[a0|] | x | |] eqn:V; try discriminate.
      * rewrite bind_run.
        destruct feed as [|[t' e'] later].
        -- rewrite leave_generator_nothing by exact I.
           unfold cut_short. now destruct (deadline _).
        -- destruct (in_time_or_late t' st) as [Ht' | (d & Hd & Hle)].
           ++ rewrite (leave_generator_next address t' e' later) by exact Ht'.
              cbn [ret]. rewrite after_feed_again. intros [= -> <-].
              exists e, [], t, (t', e'), later. repeat split; auto.
           ++ rewrite leave_generator_nothing.
              ** unfold cut_short. now destruct (deadline _).
              ** cbn. unfold in_time. cbn. rewrite Hd. now apply Qle_not_lt.
      * intros E.
        destruct (IH (after_feed address feed st) a st' (feed_after_feed _ _ _) E)
          as (e' & earlier & t' & next & later & Hf' & Hall & Ht' & Hn' & Hv & ->).
        rewrite feed_after_feed in Hf'. subst feed.
        exists e', ((t, e) :: earlier), t', next, later.
        split; [exact Hf|].
        split; [constructor; [now split | exact Hall]|].
        split; [exact Ht'|]. split; [exact Hn'|]. split; [exact Hv|].
        apply after_feed_again.
    + rewrite async_for_nothing.
      * unfold cut_short. now rewrite Hd.
      * rewrite Hf. cbn. unfold in_time. rewrite Hd. now apply Qle_not_lt.
Qed.

(** the body accepts none of the messages and no cancel scope is open:
    the loop goes on for ever *)
Lemma async_for_never feed :
  forall st,
    feed_of address (world st) = feed ->
    deadline (world st) = None ->
    Forall (fun m => verdict (snd m) = Return None) feed ->
    fst (async_for address body st) = Pending.
Proof.
  induction feed as [|[t e] feed IH]; intros st Hf Hd Hall.
  - rewrite async_for_nothing by now rewrite Hf.
    unfold cut_short. now rewrite Hd.
  - inversion Hall as [|m l Hv Hall']; subst. cbn in Hv.
    rewrite (async_for_step st t e feed Hf) by (unfold in_time; now rewrite Hd).
    rewrite Hv. apply IH; [apply feed_after_feed | exact Hd | exact Hall'].
Qed.

(** a cancel scope is open and the body accepts none of the messages
    that come before its deadline: the loop is cancelled, and nothing
    but the channel has changed *)
Lemma async_for_cancelled d feed :
  forall st,
    deadline (world st) = Some d ->
    feed_of address (world st) = feed ->
    (forall t e, In (t, e) feed -> (t < d)%Q -> verdict e = Return None) ->
    exists st',
      async_for address body st = (Raise Cancelled, st') /\ channels_apart st st'.
Proof.
  induction feed as [|[t e] feed IH]; intros st Hd Hf Hall.
  - exists st. split; [|repeat split].
    rewrite async_for_nothing by now rewrite Hf.
    unfold cut_short. now rewrite Hd.
  - destruct (Qlt_le_dec t d) as [Hlt | Hle].
    + assert (Ht : in_time t st) by (unfold in_time; now rewrite Hd).
      rewrite (async_for_step st t e feed Hf Ht), (Hall t e (or_introl eq_refl) Hlt).
      destruct (IH (after_feed address feed st)) as (st' & E & Hst').
      * exact Hd.
      * apply feed_after_feed.
      * intros t' e' Hin. apply Hall. now right.
      * exists st'. split; [exact E|]. unfold channels_apart in *. cbn in Hst'. tauto.
    + exists st. split; [|repeat split].
      rewrite async_for_nothing.
      * unfold cut_short. now rewrite Hd.
      * rewrite Hf. cbn. unfold in_time. rewrite Hd. now apply Qle_not_lt.
Qed.

End Loops.

Lemma forallb_map_id {A} (f : A -> bool) (l : list A) :
  forallb (fun b => b) (map f l) = forallb f l.
Proof. induction l as [|a l IH]; [reflexivity|]. cbn. now rewrite IH. Qed.

Lemma wait_for_press_decides button :
  decides (fun e =>
             present <- lift (has_key e button);;
             if present then
               v <- lift (getitem e button);;
               if eq_True v then ret (Some e) else ret None
             else ret None)
          (button_verdict eq_True button).
Proof.
  intros e st. destruct e as [ | | | | | fields]; try reflexivity. run.
  destruct (dict_get button fields) as [v|]; cbn; [|reflexivity].
  destruct (eq_True v); reflexivity.
Qed.

Lemma wait_for_release_decides button :
  decides (fun e =>
             present <- lift (has_key e button);;
             if present then
               v <- lift (getitem e button);;
               if eq_False v then ret (Some e) else ret None
             else ret None)
          (button_verdict eq_False button).
Proof.
  intros e st. destruct e as [ | | | | | fields]; try reflexivity. run.
  destruct (dict_get button fields) as [v|]; cbn; [|reflexivity].
  destruct (eq_False v); reflexivity.
Qed.

Lemma wait_for_brakes_decides word :
  decides (fun status =>
             brakeState <- lift (getitem status "brakeState");;
             entries <- lift (py_iter brakeState);;
             let flags := map (fun b => eq_str b word) entries in
             if forallb (fun b => b) flags then ret (Some tt) else ret None)
          (brakes_verdict word).
Proof.
  intros status st. unfold brakes_verdict. run.
  destruct (getitem status "brakeState") as [v | x | |]; try reflexivity.
  destruct (py_iter v) as [entries | x | |]; try reflexivity.
  rewrite forallb_map_id. destruct (forallb _ entries); reflexivity.
Qed.

(** ** ConditionWait: the brakes *)

Lemma some_locked_not_all_unlocked entries :
  some_locked entries = true -> all_unlocked entries = false.
Proof.
  unfold some_locked, all_unlocked. induction entries as [|b entries IH]; [discriminate|].
  cbn. destruct b; cbn; try reflexivity.
  destruct (String.eqb s "Locked") eqn:E.
  - apply String.eqb_eq in E. subst s. reflexivity.
  - cbn. intros H. rewrite (IH H). apply andb_false_r.
Qed.

(** what the loop of [wait_for_brakes_to_open] makes of a message that
    follows the schema *)
Lemma brakes_verdict_of_states word status entries :
  brake_states status = Some entries ->
  brakes_verdict word status
  = Return (if forallb (fun b => eq_str b word) entries then Some tt else None).
Proof.
  unfold brake_states, brakes_verdict.
  destruct (getitem status "brakeState") as [[ | | | | l | ] | | | ]; try discriminate.
  now intros [= ->].
Qed.

Lemma passed_over_as_locked earlier st :
  Forall (fun m => in_time (fst m) st
                   /\ exists es, brake_states (snd m) = Some es /\ all_unlocked es = false)
         earlier ->
  Forall (fun m => in_time (fst m) st /\ brakes_verdict "Unlocked" (snd m) = Return None)
         earlier.
Proof.
  intros H. eapply Forall_impl; [exact H|]. intros [t m] (Ht & es & Hes & Hno). cbn in *.
  split; [exact Ht|]. rewrite (brakes_verdict_of_states _ _ _ Hes).
  unfold all_unlocked in Hno. now rewrite Hno.
Qed.

(** C9, what the code does: [wait_for_brakes_to_open] does not return on
    the first safety-status message whose brake states are all
    "Unlocked".  It leaves its loop there, but the call returns only
    when one more message has come on the channel, and then that message
    is taken off the channel too; when none comes, the call does not
    return (it stays suspended, or the scope around it cancels it).  A
    message with a "Locked" entry is passed over.  On the script seven
    "Locked", mixed, seven "Unlocked" the call does not resolve on the
    third message: it stays suspended; with one more message after the
    script it returns. *)
Theorem wait_for_brakes_to_open_returns_one_message_late :
  (forall st earlier t status later entries,
      feed_of safety_status (world st) = earlier ++ (t, status) :: later ->
      Forall (fun m => in_time (fst m) st
                       /\ exists es, brake_states (snd m) = Some es
                            /\ all_unlocked es = false) earlier ->
      in_time t st ->
      brake_states status = Some entries ->
      all_unlocked entries = true ->
      nothing_in_time later st ->
      wait_for_brakes_to_open st = (cut_short st, after_feed safety_status later st))
  /\ (forall st earlier t status next later entries,
      feed_of safety_status (world st) = earlier ++ (t, status) :: next :: later ->
      Forall (fun m => in_time (fst m) st
                       /\ exists es, brake_states (snd m) = Some es
                            /\ all_unlocked es = false) earlier ->
      in_time t st ->
      brake_states status = Some entries ->
      all_unlocked entries = true ->
      in_time (fst next) st ->
      wait_for_brakes_to_open st = (Return tt, after_feed safety_status later st))
  /\ (forall st t status later entries,
      in_time t st ->
      feed_of safety_status (world st) = (t, status) :: later ->
      brake_states status = Some entries ->
      some_locked entries = true ->
      wait_for_brakes_to_open st
      = wait_for_brakes_to_open (after_feed safety_status later st))
  /\ wait_for_brakes_to_open (listening safety_status script)
     = (Pending, after_feed safety_status [] (listening safety_status script))
  /\ wait_for_brakes_to_open (listening safety_status script_and_more)
     = (Return tt, after_feed safety_status [] (listening safety_status script_and_more)).
Proof.
  pose proof (wait_for_brakes_decides "Unlocked") as D.
  assert (Hlate : forall st earlier t status later entries,
      feed_of safety_status (world st) = earlier ++ (t, status) :: later ->
      Forall (fun m => in_time (fst m) st
                       /\ exists es, brake_states (snd m) = Some es
                            /\ all_unlocked es = false) earlier ->
      in_time t st ->
      brake_states status = Some entries ->
      all_unlocked entries = true ->
      nothing_in_time later st ->
      wait_for_brakes_to_open st = (cut_short st, after_feed safety_status later st)).
  { intros st earlier t status later entries Hf Hall Ht Hb Hu Hn.
    apply (async_for_unheard safety_status _ _ D earlier st t status tt later); auto.
    - now apply passed_over_as_locked.
    - rewrite (brakes_verdict_of_states _ _ _ Hb). unfold all_unlocked in Hu. now rewrite Hu. }
  assert (Hnext : forall st earlier t status next later entries,
      feed_of safety_status (world st) = earlier ++ (t, status) :: next :: later ->
      Forall (fun m => in_time (fst m) st
                       /\ exists es, brake_states (snd m) = Some es
                            /\ all_unlocked es = false) earlier ->
      in_time t st ->
      brake_states status = Some entries ->
      all_unlocked entries = true ->
      in_time (fst next) st ->
      wait_for_brakes_to_open st = (Return tt, after_feed safety_status later st)).
  { intros st earlier t status next later entries Hf Hall Ht Hb Hu Hn.
    apply (async_for_stops safety_status _ _ D st status tt).
    exists earlier, t, next, later. repeat split; auto.
    - now apply passed_over_as_locked.
    - rewrite (brakes_verdict_of_states _ _ _ Hb). unfold all_unlocked in Hu. now rewrite Hu. }
  split; [exact Hlate|]. split; [exact Hnext|]. split; [|split].
  - intros st t status later entries Ht Hf Hb Hl.
    etransitivity; [exact (async_for_step safety_status _ _ D st t status later Hf Ht)|].
    rewrite (brakes_verdict_of_states _ _ _ Hb).
    pose proof (some_locked_not_all_unlocked _ Hl) as Hno.
    unfold all_unlocked in Hno. now rewrite Hno.
  - apply (Hlate (listening safety_status script) (take 2 script) 0.3%Q
             (brakes (repeat "Unlocked" 7)) [] (map JStr (repeat "Unlocked" 7)));
      try reflexivity; try exact I.
    repeat constructor; eexists; split; reflexivity.
  - apply (Hnext (listening safety_status script_and_more) (take 2 script) 0.3%Q
             (brakes (repeat "Unlocked" 7)) (0.4%Q, brakes (repeat "Unlocked" 7)) []
             (map JStr (repeat "Unlocked" 7)));
      try reflexivity; try exact I.
    repeat constructor; eexists; split; reflexivity.
Qed.

Lemma wait_for_brakes_to_open_returns_one_message_late_witness :
  fst (wait_for_brakes_to_open (listening safety_status (drop 2 script))) = Pending
  /\ fst (wait_for_brakes_to_open (listening safety_status (drop 2 script_and_more)))
     = Return tt.
Proof.
  destruct wait_for_brakes_to_open_returns_one_message_late as (Hlate & Hnext & _).
  split.
  - rewrite (Hlate (listening safety_status (drop 2 script)) [] 0.3%Q
               (brakes (repeat "Unlocked" 7)) [] (map JStr (repeat "Unlocked" 7)));
      try reflexivity; try exact I. constructor.
  - rewrite (Hnext (listening safety_status (drop 2 script_and_more)) [] 0.3%Q
               (brakes (repeat "Unlocked" 7)) (0.4%Q, brakes (repeat "Unlocked" 7)) []
               (map JStr (repeat "Unlocked" 7)));
      try reflexivity; try exact I. constructor.
Defined.

(** ** ConditionWait: the buttons *)

Lemma channels_apart_refl st : channels_apart st st.
Proof. repeat split. Qed.

Lemma channels_apart_after_feed address l st st' :
  channels_apart (after_feed address l st) st' -> channels_apart st st'.
Proof. unfold channels_apart. cbn. tauto. Qed.

Lemma button_verdict_press button e :
  is_press button e = true -> button_verdict eq_True button e = Return (Some e).
Proof.
  destruct e as [ | | | | | fields]; try discriminate. cbn.
  destruct (dict_get button fields) as [v|]; [|discriminate]. now intros ->.
Qed.

Lemma button_verdict_no_press button e :
  is_object e = true -> is_press button e = false ->
  button_verdict eq_True button e = Return None.
Proof.
  destruct e as [ | | | | | fields]; try discriminate. cbn. intros _.
  destruct (dict_get button fields) as [v|]; [|reflexivity]. now intros ->.
Qed.

Lemma passed_over_as_no_press button earlier st :
  Forall (fun m => in_time (fst m) st /\ is_object (snd m) = true
                   /\ is_press button (snd m) = false) earlier ->
  Forall (fun m => in_time (fst m) st /\ button_verdict eq_True button (snd m) = Return None)
         earlier.
Proof.
  intros H. eapply Forall_impl; [exact H|]. intros [t m] (Ht & Ho & Hp). cbn in *.
  split; [exact Ht | now apply button_verdict_no_press].
Qed.

(** no press of the button before the deadline: the wait is cancelled *)
Lemma wait_for_press_cancelled button d feed :
  forall st,
    deadline (world st) = Some d ->
    feed_of button_events (world st) = feed ->
    (forall t e, In (t, e) feed -> (t < d)%Q ->
                 is_object e = true /\ is_press button e = false) ->
    exists st',
      wait_for_press button st = (Raise Cancelled, st') /\ channels_apart st st'.
Proof.
  intros st Hd Hf Hall.
  apply (async_for_cancelled button_events _ _ (wait_for_press_decides button) d feed st Hd Hf).
  intros t e Hin Hlt. destruct (Hall t e Hin Hlt) as [Ho Hp].
  now apply button_verdict_no_press.
Qed.

(** a press of the button, after events that are no press, and one more
    event, all before the deadline: the wait returns the press *)
Lemma wait_for_press_returns button st earlier t e next later :
  feed_of button_events (world st) = earlier ++ (t, e) :: next :: later ->
  Forall (fun m => in_time (fst m) st /\ is_object (snd m) = true
                   /\ is_press button (snd m) = false) earlier ->
  in_time t st ->
  in_time (fst next) st ->
  is_press button e = true ->
  wait_for_press button st = (Return e, after_feed button_events later st).
Proof.
  intros Hf Hall Ht Hn Hp.
  apply (async_for_stops button_events _ _ (wait_for_press_decides button) st e e).
  exists earlier, t, next, later. repeat split; auto.
  - now apply passed_over_as_no_press.
  - now apply button_verdict_press.
Qed.

(** a press of the button before the deadline and no event after it in
    time: the wait does not return *)
Lemma wait_for_press_unheard button st earlier t e later :
  feed_of button_events (world st) = earlier ++ (t, e) :: later ->
  Forall (fun m => in_time (fst m) st /\ is_object (snd m) = true
                   /\ is_press button (snd m) = false) earlier ->
  in_time t st ->
  is_press button e = true ->
  nothing_in_time later st ->
  wait_for_press button st = (cut_short st, after_feed button_events later st).
Proof.
  intros Hf Hall Ht Hp Hn.
  apply (async_for_unheard button_events _ _ (wait_for_press_decides button)
           earlier st t e e later); auto.
  - now apply passed_over_as_no_press.
  - now apply button_verdict_press.
Qed.

(** ** ControlArbiter: the forced takeover *)

(** the scope of [move_on_after] when no scope around it expires first *)
Lemma move_on_after_runs {A} (seconds : Q) (body : M A) st :
  in_time seconds st ->
  move_on_after seconds body st =
  match body (mkSt (self st) (with_deadline (Some seconds) (world st))) with
  | (Return _, st') =>
      (Return false, mkSt (self st') (with_deadline (deadline (world st)) (world st')))
  | (Raise Cancelled, st') =>
      (Return true, mkSt (self st') (with_deadline (deadline (world st)) (world st')))
  | (Raise e, st') =>
      (Raise e, mkSt (self st') (with_deadline (deadline (world st)) (world st')))
  | (Pending, st') => (Pending, st')
  | (IllTyped, st') => (IllTyped, st')
  end.
Proof.
  unfold in_time, move_on_after, expires_first. intros Ht.
  destruct (deadline (world st)) as [d|]; [|reflexivity].
  destruct (Qle_bool d seconds) eqn:E; [|reflexivity].
  apply Qle_bool_iff in E. now apply Qlt_not_le in Ht.
Qed.

(** [take_control(force=True)] up to the wait for the circle button: the
    session is not in control, the device grants the request and tells
    its confirmation window *)
Ltac up_to_the_wait L H Hnot Hself Hr Sq Dq Ss Ds G HT :=
  enter_take_control L H;
  match goal with
  | |- context [negb ?a && ?b] =>
      replace (negb a && b) with false
        by (rewrite Hself; destruct Hnot as [Hnot | Hnot];
            [rewrite Hnot; reflexivity
            | rewrite (eqb_differs _ _ Hnot); symmetry; apply andb_false_r])
  end;
  cbn [negb]; rewrite andb_false_r;
  rewrite bind_run, _request_runs by discriminate; rewrite Hr; cbv zeta; rewrite Sq;
  cbn [Z.eqb Pos.eqb];
  rewrite bind_run; unfold json_of at 1; rewrite Dq; cbn [ret];
  rewrite bind_run, bind_run, _request_runs by discriminate;
  cbn [replies world with_exchange];
  cbv zeta; rewrite Ss; cbn [Z.eqb Pos.eqb];
  rewrite bind_run; unfold json_of at 1; rewrite Ds; cbn [ret];
  rewrite bind_run; cbn [lift]; rewrite G;
  rewrite bind_run; cbn [_logger set_world];
  rewrite bind_run; cbn [lift seconds_of];
  match goal with
  | |- context [?x <? 0] => destruct (Z.ltb_spec0 x 0) as [|_]; [lia|]
  end;
  rewrite bind_run; cbn [self world].

(** C2: a forced [take_control] that reaches the wait for the circle
    button (the session is not already in control, the device grants the
    request and gives a confirmation window of T seconds; the caller's
    own cancel scope, if there is one, does not expire before the
    window) and gets no circle press before T seconds are over returns
    false; the store file, its directory and the held token are what
    they were before the call. *)
Theorem take_control_forced_unconfirmed st active st1 ra rq rs rest jq js T :
  _get_active_token st = (Return active, st1) ->
  _legacy (self st) = false ->
  id active = "" \/ id (_token (self st)) <> id active ->
  replies (world st) = ra :: rq :: rs :: rest ->
  status_code rq = 200 -> decoded rq = Some jq ->
  status_code rs = 200 -> decoded rs = Some js ->
  getitem js "tokenForceTimeout" = Return (JInt T) -> 0 <= T ->
  in_time (inject_Z T) st ->
  (forall t e, In (t, e) (feed_of button_events (world st)) -> (t < inject_Z T)%Q ->
               is_object e = true /\ is_press "circle" e = false) ->
  exists st',
    take_control true st = (Return false, st')
    /\ conf_file (world st') = conf_file (world st)
    /\ conf_dir (world st') = conf_dir (world st)
    /\ _token (self st') = _token (self st)
    /\ sent (world st') = sent (world st)
         ++ [control_token_query (self st); token_request true (self st);
             safety_query (self st)].
Proof.
  intros H L Hnot R Sq Dq Ss Ds G HT Hscope Hfeed.
  destruct (_get_active_token_frame _ _ _ H) as (Hself & Hf & Hd & Hfeeds & Hdl & _ & Hsent).
  destruct (Hsent L) as [Hs Hr]. rewrite R in Hr. cbn [tail] in Hr.
  up_to_the_wait L H Hnot Hself Hr Sq Dq Ss Ds G HT.
  rewrite move_on_after_runs by (unfold in_time in *; cbn; now rewrite Hdl).
  match goal with
  | |- context [wait_for_press "circle" ?s] =>
      destruct (wait_for_press_cancelled "circle" (inject_Z T)
                  (feed_of button_events (world st)) s)
        as (st' & E & Hst'); [reflexivity | | exact Hfeed | ]
  end.
  { unfold feed_of. cbn. now rewrite Hfeeds. }
  rewrite E.
  destruct Hst' as (Hself' & Hdir' & Hfile' & _ & Hsent' & _).
  cbn in Hself', Hdir', Hfile', Hsent'.
  eexists. split; [reflexivity|]. cbn.
  rewrite Hfile', Hdir', Hself', Hsent', Hf, Hd, Hs, Hself, <- !app_assoc.
  repeat split.
Qed.

Lemma take_control_forced_unconfirmed_witness :
  fst (take_control true
         (forcing [ok (held_by "8" "eve"); ok granted; ok window] late_press))
  = Return false
  /\ conf_file (world (snd (take_control true
         (forcing [ok (held_by "8" "eve"); ok granted; ok window] late_press))))
     = conf_file (world (forcing [] []))
  /\ _token (self (snd (take_control true
         (forcing [ok (held_by "8" "eve"); ok granted; ok window] late_press))))
     = _token (self (forcing [] [])).
Proof.
  destruct (take_control_forced_unconfirmed
              (forcing [ok (held_by "8" "eve"); ok granted; ok window] late_press)
              (mkToken "8" "eve" "")
              (snd (_get_active_token
                      (forcing [ok (held_by "8" "eve"); ok granted; ok window] late_press)))
              (ok (held_by "8" "eve")) (ok granted) (ok window) [] granted window 30)
    as (st' & E & Hfile & _ & Htoken & _);
    try reflexivity.
  - right. discriminate.
  - lia.
  - intros t e [[= <- <-] | [[= <- <-] | []]] Hlt.
    + split; reflexivity.
    + vm_compute in Hlt. discriminate.
  - rewrite E. cbn [fst snd]. auto.
Defined.

(** the scope of [move_on_after] when the scope around it expires first
    or at the same time: the body runs under that deadline, and a
    cancellation is not for this scope *)
Lemma move_on_after_under {A} (seconds d : Q) (body : M A) st :
  deadline (world st) = Some d -> (d <= seconds)%Q ->
  move_on_after seconds body st =
  match body (mkSt (self st) (with_deadline (Some d) (world st))) with
  | (Return _, st') => (Return false, mkSt (self st') (with_deadline (Some d) (world st')))
  | (Raise e, st') => (Raise e, mkSt (self st') (with_deadline (Some d) (world st')))
  | (Pending, st') => (Pending, st')
  | (IllTyped, st') => (IllTyped, st')
  end.
Proof.
  unfold move_on_after, expires_first. intros -> Hle.
  apply Qle_bool_iff in Hle. rewrite Hle. cbn [negb].
  destruct (body _) as [[a | e | |] st']; try reflexivity. now destruct e.
Qed.

(** X29: a forced [take_control] that reaches the wait for the circle
    button inside a cancel scope of its caller that expires before the
    confirmation window, or with it, and gets no circle press before
    that deadline does not return false: it is cancelled with its
    caller.  The store file, its directory and the held token are what
    they were, and the caller's deadline stands. *)
Theorem take_control_forced_cancelled_with_its_caller
    st active st1 ra rq rs rest jq js T d :
  _get_active_token st = (Return active, st1) ->
  _legacy (self st) = false ->
  id active = "" \/ id (_token (self st)) <> id active ->
  replies (world st) = ra :: rq :: rs :: rest ->
  status_code rq = 200 -> decoded rq = Some jq ->
  status_code rs = 200 -> decoded rs = Some js ->
  getitem js "tokenForceTimeout" = Return (JInt T) -> 0 <= T ->
  deadline (world st) = Some d -> (d <= inject_Z T)%Q ->
  (forall t e, In (t, e) (feed_of button_events (world st)) -> (t < d)%Q ->
               is_object e = true /\ is_press "circle" e = false) ->
  exists st',
    take_control true st = (Raise Cancelled, st')
    /\ conf_file (world st') = conf_file (world st)
    /\ conf_dir (world st') = conf_dir (world st)
    /\ _token (self st') = _token (self st)
    /\ deadline (world st') = Some d.
Proof.
  intros H L Hnot R Sq Dq Ss Ds G HT Hscope Hle Hfeed.
  destruct (_get_active_token_frame _ _ _ H) as (Hself & Hf & Hd & Hfeeds & Hdl & _ & Hsent).
  destruct (Hsent L) as [Hs Hr]. rewrite R in Hr. cbn [tail] in Hr.
  up_to_the_wait L H Hnot Hself Hr Sq Dq Ss Ds G HT.
  rewrite (move_on_after_under _ d) by first [exact Hle | cbn; now rewrite Hdl].
  match goal with
  | |- context [wait_for_press "circle" ?s] =>
      destruct (wait_for_press_cancelled "circle" d
                  (feed_of button_events (world st)) s)
        as (st' & E & Hst'); [reflexivity | | exact Hfeed | ]
  end.
  { unfold feed_of. cbn. now rewrite Hfeeds. }
  rewrite E.
  destruct Hst' as (Hself' & Hdir' & Hfile' & _).
  cbn in Hself', Hdir', Hfile'.
  eexists. split; [reflexivity|]. cbn.
  rewrite Hfile', Hdir', Hself', Hf, Hd, Hself.
  repeat split.
Qed.

Lemma take_control_forced_cancelled_with_its_caller_witness :
  fst (take_control true
         (under 5 (forcing [ok (held_by "8" "eve"); ok granted; ok window] late_press)))
  = Raise Cancelled
  /\ fst (take_control true
            (under 40 (forcing [ok (held_by "8" "eve"); ok granted; ok window] late_press)))
     = Return false.
Proof.
  destruct (take_control_forced_cancelled_with_its_caller
              (under 5 (forcing [ok (held_by "8" "eve"); ok granted; ok window] late_press))
              (mkToken "8" "eve" "")
              (snd (_get_active_token
                      (under 5 (forcing [ok (held_by "8" "eve"); ok granted; ok window]
                                        late_press))))
              (ok (held_by "8" "eve")) (ok granted) (ok window) [] granted window 30 5%Q)
    as (st' & E & _);
    try reflexivity.
  - right. discriminate.
  - lia.
  - discriminate.
  - intros t e [[= <- <-] | [[= <- <-] | []]] Hlt.
    + vm_compute in Hlt. discriminate.
    + vm_compute in Hlt. discriminate.
  - rewrite E. split; reflexivity.
Defined.

(** the events before the press, as the wait under the window sees
    them *)
Lemma before_the_press (T : Q) earlier st :
  deadline (world st) = Some T ->
  Forall (fun m => (fst m < T)%Q /\ is_object (snd m) = true
                   /\ is_press "circle" (snd m) = false) earlier ->
  Forall (fun m => in_time (fst m) st /\ is_object (snd m) = true
                   /\ is_press "circle" (snd m) = false) earlier.
Proof.
  intros Hd H. eapply Forall_impl; [exact H|]. intros m (Ht & Ho & Hp).
  unfold in_time. rewrite Hd. auto.
Qed.

(** C3, what the code does: a forced [take_control] that reaches the
    wait for the circle button and gets the circle press before the T
    seconds of the window are over does not yet return true: the wait
    for the press ends only when one more navigation event has come.
    When none comes before the window is over, the call returns false
    although the press came in time, and persists nothing: the store
    file, its directory and the held token are what they were. *)
Theorem take_control_forced_press_unheard
    st active st1 ra rq rs rest jq js T earlier t e later :
  _get_active_token st = (Return active, st1) ->
  _legacy (self st) = false ->
  id active = "" \/ id (_token (self st)) <> id active ->
  replies (world st) = ra :: rq :: rs :: rest ->
  status_code rq = 200 -> decoded rq = Some jq ->
  status_code rs = 200 -> decoded rs = Some js ->
  getitem js "tokenForceTimeout" = Return (JInt T) -> 0 <= T ->
  in_time (inject_Z T) st ->
  feed_of button_events (world st) = earlier ++ (t, e) :: later ->
  Forall (fun m => (fst m < inject_Z T)%Q /\ is_object (snd m) = true
                   /\ is_press "circle" (snd m) = false) earlier ->
  is_press "circle" e = true ->
  (t < inject_Z T)%Q ->
  match later with
  | [] => True
  | (t', _) :: _ => (inject_Z T <= t')%Q
  end ->
  exists st',
    take_control true st = (Return false, st')
    /\ conf_file (world st') = conf_file (world st)
    /\ conf_dir (world st') = conf_dir (world st)
    /\ _token (self st') = _token (self st)
    /\ feed_of button_events (world st') = later.
Proof.
  intros H L Hnot R Sq Dq Ss Ds G HT Hscope Hfeed Hearlier Hpress Ht Hlater.
  destruct (_get_active_token_frame _ _ _ H) as (Hself & Hf & Hd & Hfeeds & Hdl & _ & Hsent).
  destruct (Hsent L) as [Hs Hr]. rewrite R in Hr. cbn [tail] in Hr.
  up_to_the_wait L H Hnot Hself Hr Sq Dq Ss Ds G HT.
  rewrite move_on_after_runs by (unfold in_time in *; cbn; now rewrite Hdl).
  match goal with
  | |- context [wait_for_press "circle" ?s] =>
      rewrite (wait_for_press_unheard "circle" s earlier t e later)
  end.
  - cbn. eexists. split; [reflexivity|]. cbn.
    rewrite Hf, Hd, Hself. repeat split.
    unfold feed_of. cbn. now rewrite lookup_insert_eq.
  - unfold feed_of. cbn. rewrite Hfeeds. exact Hfeed.
  - now apply (before_the_press (inject_Z T)).
  - exact Ht.
  - exact Hpress.
  - destruct later as [|[t' e'] later']; [exact I|].
    cbn. unfold in_time. cbn. now apply Qle_not_lt.
Qed.

Lemma take_control_forced_press_unheard_witness :
  fst (take_control true
         (forcing [ok (held_by "8" "eve"); ok granted; ok window] last_press))
  = Return false
  /\ stored (world (snd (take_control true
         (forcing [ok (held_by "8" "eve"); ok granted; ok window] last_press)))) "robot"
     = Some (section_of (mkToken "3" "admin" "old")).
Proof.
  destruct (take_control_forced_press_unheard
              (forcing [ok (held_by "8" "eve"); ok granted; ok window] last_press)
              (mkToken "8" "eve" "")
              (snd (_get_active_token
                      (forcing [ok (held_by "8" "eve"); ok granted; ok window] last_press)))
              (ok (held_by "8" "eve")) (ok granted) (ok window) [] granted window 30
              (take 1 last_press) 12.5%Q (press "circle" true) [])
    as (st' & E & Hfile & _);
    try reflexivity.
  - right. discriminate.
  - lia.
  - repeat constructor.
  - rewrite E. cbn [fst snd]. split; [reflexivity|].
    unfold stored. now rewrite Hfile.
Defined.

(** the same call when one more event comes before the window is over:
    it returns true; the token it persists for the host is the one the
    device issued, as ConfigParser reads it back, with the session's
    user name as owner, and the session holds the token as issued *)
Theorem take_control_forced_confirmed
    st active st1 ra rq rs rest jq js T earlier t e next later i ident secret :
  _get_active_token st = (Return active, st1) ->
  _legacy (self st) = false ->
  id active = "" \/ id (_token (self st)) <> id active ->
  replies (world st) = ra :: rq :: rs :: rest ->
  status_code rq = 200 -> decoded rq = Some jq ->
  getitem jq "id" = Return i -> py_str i = Return ident ->
  getitem jq "token" = Return (JStr secret) ->
  status_code rs = 200 -> decoded rs = Some js ->
  getitem js "tokenForceTimeout" = Return (JInt T) -> 0 <= T ->
  in_time (inject_Z T) st ->
  feed_of button_events (world st) = earlier ++ (t, e) :: next :: later ->
  Forall (fun m => (fst m < inject_Z T)%Q /\ is_object (snd m) = true
                   /\ is_press "circle" (snd m) = false) earlier ->
  is_press "circle" e = true ->
  (t < inject_Z T)%Q ->
  (fst next < inject_Z T)%Q ->
  let issued := mkToken ident (_username (self st)) secret in
  storable (_hostname (self st)) issued = true ->
  exists st',
    take_control true st = (Return true, st')
    /\ stored (world st') (_hostname (self st)) = Some (section_of (read_back issued))
    /\ _token (self st') = issued
    /\ fst (_load_token st') = Return (read_back issued)
    /\ feed_of button_events (world st') = later.
Proof.
  intros H L Hnot R Sq Dq Gi Si Gt Ss Ds G HT Hscope Hfeed Hearlier Hpress Ht Hn issued Hst.
  destruct (_get_active_token_frame _ _ _ H) as (Hself & Hf & Hd & Hfeeds & Hdl & _ & Hsent).
  destruct (Hsent L) as [Hs Hr]. rewrite R in Hr. cbn [tail] in Hr.
  unfold storable in Hst.
  destruct (first_refused issued) as [v|] eqn:Hfirst; [discriminate|].
  up_to_the_wait L H Hnot Hself Hr Sq Dq Ss Ds G HT.
  rewrite move_on_after_runs by (unfold in_time in *; cbn; now rewrite Hdl).
  match goal with
  | |- context [wait_for_press "circle" ?s] =>
      rewrite (wait_for_press_returns "circle" s earlier t e next later)
  end.
  - cbn [ret after_feed self world]. rewrite !bind_run. cbn [lift]. rewrite Gi.
    rewrite !bind_run. cbn [ret lift]. rewrite Si.
    rewrite !bind_run. cbn [get_self lift self]. rewrite Gt.
    rewrite bind_run. cbn [lift]. rewrite bind_run. cbn [lift as_str].
    rewrite bind_run, _save_token_runs. cbn [self]. rewrite Hself. fold issued.
    rewrite Hfirst, Hst. rewrite bind_run. cbn [_logger set_world ret self world].
    eexists. split; [reflexivity|].
    assert (Hstored : forall w,
              stored (with_logged "Taken control." []
                        (with_conf (<[_hostname (self st) := section_of (read_back issued)]>
                                      (default ∅ (conf_file w))) w))
                     (_hostname (self st)) = Some (section_of (read_back issued))).
    { intros w. unfold stored. cbn. apply lookup_insert_eq. }
    repeat split.
    + apply Hstored.
    + apply _load_token_stored. apply Hstored.
    + unfold feed_of. cbn. now rewrite lookup_insert_eq.
  - unfold feed_of. cbn. rewrite Hfeeds. exact Hfeed.
  - now apply (before_the_press (inject_Z T)).
  - exact Ht.
  - exact Hn.
  - exact Hpress.
Qed.

Lemma take_control_forced_confirmed_witness :
  fst (take_control true
         (forcing [ok (held_by "8" "eve"); ok granted; ok window] timely_press))
  = Return true
  /\ stored (world (snd (take_control true
         (forcing [ok (held_by "8" "eve"); ok granted; ok window] timely_press)))) "robot"
     = Some (section_of (mkToken "12" "admin" "abc"))
  /\ _token (self (snd (take_control true
         (forcing [ok (held_by "8" "eve"); ok granted; ok window] timely_press))))
     = mkToken "12" "admin" "abc".
Proof.
  destruct (take_control_forced_confirmed
              (forcing [ok (held_by "8" "eve"); ok granted; ok window] timely_press)
              (mkToken "8" "eve" "")
              (snd (_get_active_token
                      (forcing [ok (held_by "8" "eve"); ok granted; ok window] timely_press)))
              (ok (held_by "8" "eve")) (ok granted) (ok window) [] granted window 30
              (take 2 timely_press) 12.5%Q (press "circle" true)
              (13%Q, press "circle" false) [] (JInt 12) "12" "abc")
    as (st' & E & Hstored & Htoken & _);
    try reflexivity.
  - right. discriminate.
  - lia.
  - repeat constructor.
  - rewrite E. cbn [fst snd]. auto.
Defined.

(** ** The legacy flag and the platform *)

(** C6, against the claim as stated: a session constructed for the
    platform "panda" takes control over the network (the query and the
    request for a token go out and the token is written to the store),
    and its [activate_fci] sends a request too. *)
Lemma panda_session_uses_the_network :
  __init__ "robot" "panda" (fresh_world [ok nobody; ok granted])
    = (Return panda_desk, fresh_world [ok nobody; ok granted])
  /\ sent (world (snd (take_control false
                         (mkSt panda_desk (fresh_world [ok nobody; ok granted])))))
     = [control_token_query panda_desk; token_request false panda_desk]
  /\ sent (world (snd (take_control false
                         (mkSt panda_desk (fresh_world [ok nobody; ok granted])))))
     <> []
  /\ stored (world (snd (take_control false
                           (mkSt panda_desk (fresh_world [ok nobody; ok granted])))))
            "robot"
     = Some (section_of (mkToken "12" "Not set" "abc"))
  /\ sent (world (snd (activate_fci (mkSt panda_desk (fresh_world [ok JNull]))))) <> [].
Proof.
  repeat split; try reflexivity; discriminate.
Qed.

(** C6, amended: with the legacy flag of the session set, [take_control]
    returns true and [activate_fci] and [deactivate_fci] return, all
    three without a request and without any other effect; the
    constructor leaves that flag unset for every platform it accepts;
    with the stored platform "panda", [set_mode] prints that the
    platform does not support the function and returns without a
    request. *)
Theorem legacy_flag_no_ops_and_panda_set_mode :
  (forall st force, _legacy (self st) = true ->
      take_control force st = (Return true, st)
      /\ activate_fci st = (Return tt, st)
      /\ deactivate_fci st = (Return tt, st))
  /\ (forall hostname platform w d w',
      __init__ hostname platform w = (Return d, w') ->
      _legacy d = false)
  /\ (forall st mode, _platform (self st) = "panda" ->
      set_mode mode st
      = (Return tt,
         mkSt (self st)
              (with_printed "Old panda platform does not support this function"
                            (world st)))).
Proof.
  split; [|split].
  - intros st force L. repeat split.
    + unfold take_control. rewrite bind_run. cbn [get_self]. now rewrite L.
    + unfold activate_fci. rewrite bind_run. cbn [get_self]. now rewrite L.
    + unfold deactivate_fci. rewrite bind_run. cbn [get_self]. now rewrite L.
  - intros hostname platform w d w'. unfold __init__.
    destruct (mem (lower platform) panda_names || mem (lower platform) fr3_names);
      [|discriminate].
    destruct (_load_token _) as [[t | e | |] st] eqn:E; try discriminate.
    intros [= <- <-].
    assert (Hst : st = mkSt (mkDesk false platform hostname false "Not set" no_token None) w).
    { eapply stateless_result; [|exact E]. unfold _load_token.
      apply stateless_bind; [intros ?; reflexivity|]. intros d.
      apply stateless_bind; [intros ?; reflexivity|]. intros w0.
      destruct (conf_file w0); [|apply stateless_ret].
      destruct (bool_decide _); [|apply stateless_ret].
      unfold config_get.
      repeat (apply stateless_bind;
              [match goal with |- stateless (match ?x with _ => _ end) => destruct x end;
               auto with stateless|]; intros ?).
      apply stateless_ret. }
    subst st. reflexivity.
  - intros st mode P. unfold set_mode. rewrite bind_run. cbn [get_self].
    rewrite P. reflexivity.
Qed.

Lemma legacy_flag_no_ops_and_panda_set_mode_witness :
  take_control true (mkSt legacy_desk (fresh_world [])) = (Return true, mkSt legacy_desk (fresh_world []))
  /\ _legacy panda_desk = false
  /\ fst (set_mode "execution" (mkSt panda_desk (fresh_world []))) = Return tt.
Proof.
  destruct legacy_flag_no_ops_and_panda_set_mode as (Hflag & Hinit & Hmode).
  split; [|split].
  - apply (Hflag (mkSt legacy_desk (fresh_world [])) true). reflexivity.
  - apply (Hinit "robot" "panda" (fresh_world []) panda_desk (fresh_world [])). reflexivity.
  - rewrite (Hmode (mkSt panda_desk (fresh_world [])) "execution"); reflexivity.
Defined.

(** the constructor takes "Panda" for the platform "panda" and stores it
    as given; [set_mode] then compares with "panda" and sends the
    request *)
Example set_mode_after_alias :
  fst (__init__ "robot" "Panda" (fresh_world [ok JNull]))
    = Return (mkDesk false "Panda" "robot" false "Not set" no_token None)
  /\ length (sent (world (snd (set_mode "execution"
       (mkSt (mkDesk false "Panda" "robot" false "Not set" no_token None)
             (fresh_world [ok JNull])))))) = 1%nat.
Proof. split; reflexivity. Qed.

(** * More of the class *)

(** ** What a call leaves alone *)

Section Frame.
Context {X : Type} (f : St -> X).

Lemma keeps_ret {A} (a : A) : keeps f (ret a).
Proof. now intros st o st' [= _ <-]. Qed.

Lemma keeps_raise {A} e : keeps f (@raise A e).
Proof. now intros st o st' [= _ <-]. Qed.

Lemma keeps_lift {A} (r : Outcome A) : keeps f (lift r).
Proof. now intros st o st' [= _ <-]. Qed.

Lemma keeps_get_self : keeps f get_self.
Proof. now intros st o st' [= _ <-]. Qed.

Lemma keeps_get_world : keeps f get_world.
Proof. now intros st o st' [= _ <-]. Qed.

Lemma keeps_json_of r : keeps f (json_of r).
Proof. unfold json_of. destruct (decoded r); [apply keeps_ret | apply keeps_raise]. Qed.

Lemma keeps_bind {A B} (c : M A) (k : A -> M B) :
  keeps f c -> (forall a, keeps f (k a)) -> keeps f (bind c k).
Proof.
  intros Hc Hk st o st'. rewrite bind_run.
  destruct (c st) as [[a | e | |] st1] eqn:E; specialize (Hc _ _ _ E).
  - intros E'. rewrite <- Hc. exact (Hk a _ _ _ E').
  - now intros [= _ <-].
  - now intros [= _ <-].
  - now intros [= _ <-].
Qed.

Lemma eta_St st : mkSt (self st) (world st) = st.
Proof. now destruct st. Qed.

Hypothesis f_logged : forall d w fmt args,
  f (mkSt d (with_logged fmt args w)) = f (mkSt d w).
Hypothesis f_printed : forall d w line,
  f (mkSt d (with_printed line w)) = f (mkSt d w).
Hypothesis f_exchange : forall d w rq rest,
  f (mkSt d (with_exchange rq rest w)) = f (mkSt d w).

Lemma keeps_logger fmt args : keeps f (_logger fmt args).
Proof. intros st o st' [= _ <-]. now rewrite f_logged, eta_St. Qed.

Lemma keeps_print line : keeps f (print line).
Proof. intros st o st' [= _ <-]. now rewrite f_printed, eta_St. Qed.

Lemma keeps_request method url headers json files timeout :
  keeps f (_request method url headers json files timeout).
Proof.
  intros st o st'.
  assert (Hm : method = DELETE \/ method <> DELETE)
    by (destruct method; [right | right | left]; congruence).
  destruct Hm as [-> | Hm]; [rewrite _request_delete; now intros [= _ <-]|].
  rewrite _request_runs by exact Hm. cbv zeta.
  destruct (replies (world st)) as [|r rest].
  - intros [= _ <-]. now rewrite f_exchange, eta_St.
  - destruct (status_code r =? 200); intros [= _ <-].
    + now rewrite f_exchange, eta_St.
    + now rewrite f_printed, f_exchange, eta_St.
Qed.

Lemma keeps_get_active_token : keeps f _get_active_token.
Proof.
  unfold _get_active_token.
  apply keeps_bind; [apply keeps_get_self|]. intros d.
  destruct (_legacy d); [apply keeps_ret|].
  apply keeps_bind; [apply keeps_request|]. intros r.
  apply keeps_bind; [apply keeps_json_of|]. intros j.
  apply keeps_bind; [apply keeps_lift|]. intros at_.
  assert (Hrest : keeps f
            (bind (lift (getitem at_ "id")) (fun i =>
             bind (lift (py_str i)) (fun i =>
             bind (lift (getitem at_ "ownedBy")) (fun o =>
             bind (lift (as_str o)) (fun o => ret (mkToken i o ""))))))).
  { repeat (apply keeps_bind; [apply keeps_lift|]; intros ?). apply keeps_ret. }
  destruct at_; first [apply keeps_ret | exact Hrest].
Qed.

Hypothesis f_feed : forall d w address rest,
  f (mkSt d (with_feed address rest w)) = f (mkSt d w).
Hypothesis f_deadline : forall d w t,
  f (mkSt d (with_deadline t w)) = f (mkSt d w).

Lemma keeps_checkpoint t : keeps f (checkpoint t).
Proof.
  unfold checkpoint. apply keeps_bind; [apply keeps_get_world|]. intros w.
  destruct (deadline w); [|apply keeps_ret].
  destruct (Qle_bool _ _); [apply keeps_raise | apply keeps_ret].
Qed.

Lemma keeps_silence {A} : keeps f (@silence A).
Proof.
  unfold silence. apply keeps_bind; [apply keeps_get_world|]. intros w.
  destruct (deadline w); [apply keeps_raise | apply keeps_lift].
Qed.

Lemma keeps_in_nursery {A} (body : M A) : keeps f body -> keeps f (in_nursery body).
Proof.
  intros Hbody st o st'. unfold in_nursery.
  destruct (body st) as [[a | e | |] st1] eqn:E; specialize (Hbody _ _ _ E);
    now intros [= _ <-].
Qed.

Lemma keeps_leave_generator address feed : keeps f (leave_generator address feed).
Proof.
  destruct feed as [|[t event] feed]; [apply keeps_silence|].
  cbn [leave_generator].
  apply keeps_bind; [apply keeps_checkpoint|]. intros _.
  intros st o st' [= _ <-]. now rewrite f_feed, eta_St.
Qed.

Lemma keeps_iterate {A} address (body : Json -> M (option A)) feed :
  (forall event, keeps f (body event)) -> keeps f (iterate address body feed).
Proof.
  intros Hbody. induction feed as [|[t event] feed IH]; [apply keeps_silence|].
  cbn [iterate].
  apply keeps_bind; [apply keeps_checkpoint|]. intros _.
  apply keeps_bind; [intros st o st' [= _ <-]; now rewrite f_feed, eta_St|]. intros _.
  apply keeps_bind; [apply keeps_in_nursery, Hbody|]. intros [a|]; [|exact IH].
  apply keeps_bind; [apply keeps_leave_generator|]. intros _. apply keeps_ret.
Qed.

Lemma keeps_async_for {A} address (body : Json -> M (option A)) :
  (forall event, keeps f (body event)) -> keeps f (async_for address body).
Proof.
  intros Hbody. unfold async_for.
  apply keeps_bind; [apply keeps_get_world|]. intros w. now apply keeps_iterate.
Qed.

Lemma keeps_move_on_after {A} seconds (body : M A) :
  keeps f body -> keeps f (move_on_after seconds body).
Proof.
  intros Hbody st o st'. unfold move_on_after.
  destruct (body _) as [[a | e | |] st1] eqn:E; specialize (Hbody _ _ _ E);
    rewrite f_deadline, eta_St in Hbody.
  - intros [= _ <-]. now rewrite f_deadline, eta_St.
  - destruct e; try destruct (expires_first _ _);
      intros [= _ <-]; now rewrite f_deadline, eta_St.
  - now intros [= _ <-].
  - now intros [= _ <-].
Qed.

Lemma keeps_wait_for_brakes_to_open : keeps f wait_for_brakes_to_open.
Proof.
  apply keeps_async_for. intros status.
  repeat (apply keeps_bind; [apply keeps_lift|]; intros ?).
  cbv zeta. match goal with |- context [if ?b then _ else _] => destruct b end;
    apply keeps_ret.
Qed.

Lemma keeps_wait_for_brakes_to_close : keeps f wait_for_brakes_to_close.
Proof.
  apply keeps_async_for. intros status.
  repeat (apply keeps_bind; [apply keeps_lift|]; intros ?).
  cbv zeta. match goal with |- context [if ?b then _ else _] => destruct b end;
    apply keeps_ret.
Qed.

Lemma keeps_wait_for_press button : keeps f (wait_for_press button).
Proof.
  apply keeps_async_for. intros e.
  apply keeps_bind; [apply keeps_lift|]. intros [|]; [|apply keeps_ret].
  apply keeps_bind; [apply keeps_lift|]. intros v.
  destruct (eq_True v); apply keeps_ret.
Qed.

Lemma keeps_wait_for_release button : keeps f (wait_for_release button).
Proof.
  apply keeps_async_for. intros e.
  apply keeps_bind; [apply keeps_lift|]. intros [|]; [|apply keeps_ret].
  apply keeps_bind; [apply keeps_lift|]. intros v.
  destruct (eq_False v); apply keeps_ret.
Qed.

End Frame.

(** ** Construction and the token store *)

Lemma stateless_config_get cfg section option_ : stateless (config_get cfg section option_).
Proof.
  unfold config_get. destruct (_ ≫= _); [apply stateless_ret | apply stateless_raise].
Qed.

Lemma stateless__load_token : stateless _load_token.
Proof.
  unfold _load_token.
  apply stateless_bind; [intros ?; reflexivity|]. intros d.
  apply stateless_bind; [intros ?; reflexivity|]. intros w.
  destruct (conf_file w); [|apply stateless_ret].
  destruct (bool_decide _); [|apply stateless_ret].
  repeat (apply stateless_bind; [apply stateless_config_get|]; intros ?).
  apply stateless_ret.
Qed.

Lemma __init__runs hostname platform w :
  __init__ hostname platform w =
  if accepted platform then
    (match fst (_load_token (mkSt (new_desk hostname platform no_token) w)) with
     | Return t => Return (new_desk hostname platform t)
     | Raise e => Raise e
     | Pending => Pending
     | IllTyped => IllTyped
     end, w)
  else (Raise (ValueError "Unknown platform! Must be either 'panda' or 'fr3'!"), w).
Proof.
  unfold __init__, accepted, new_desk.
  destruct (mem (lower platform) panda_names || mem (lower platform) fr3_names);
    [|reflexivity].
  destruct (_load_token _) as [o st] eqn:E.
  pose proof (stateless_result _ _ _ _ stateless__load_token E) as ->.
  destruct o; reflexivity.
Qed.

(** X1: the constructor reads and never writes: however it ends, the
    world is what it was (no request, no file written); the session it
    returns is not logged in, has the user name "Not set", no cookie,
    the host name and the platform text exactly as given. *)
Theorem init_leaves_the_world hostname platform w o w' :
  __init__ hostname platform w = (o, w') ->
  w' = w
  /\ forall d, o = Return d ->
       _hostname d = hostname /\ _platform d = platform
       /\ _logged_in d = false /\ _username d = "Not set" /\ cookie d = None.
Proof.
  rewrite __init__runs. destruct (accepted platform).
  - intros [= <- <-]. split; [reflexivity|]. intros d.
    destruct (fst (_load_token _)); intros [= <-]. repeat split.
  - intros [= <- <-]. split; [reflexivity|]. discriminate.
Qed.

Lemma init_leaves_the_world_witness :
  snd (__init__ "robot" "FR3" (world stocked)) = world stocked
  /\ _platform (new_desk "robot" "FR3" (mkToken "3" "admin" "old")) = "FR3".
Proof.
  destruct (init_leaves_the_world "robot" "FR3" (world stocked)
              (Return (new_desk "robot" "FR3" (mkToken "3" "admin" "old")))
              (snd (__init__ "robot" "FR3" (world stocked))) eq_refl) as [Hw Hd].
  split; [exact Hw|].
  destruct (Hd _ eq_refl) as (_ & Hp & _). exact Hp.
Defined.

(** X2: a platform name that, in lower case, is none of the seven
    names is refused with ValueError before the store is looked at; a
    name that is one of them is never refused for its platform. *)
Theorem init_checks_the_platform_first hostname platform w :
  (accepted platform = false ->
   __init__ hostname platform w
   = (Raise (ValueError "Unknown platform! Must be either 'panda' or 'fr3'!"), w))
  /\ (accepted platform = true ->
      forall msg, fst (__init__ hostname platform w) <> Raise (ValueError msg)).
Proof.
  rewrite __init__runs. split; intros ->; [reflexivity|].
  intros msg. cbn [fst].
  unfold _load_token. run.
  destruct (conf_file w) as [config|]; [|discriminate].
  destruct (bool_decide _); [|discriminate].
  unfold config_get.
  repeat (match goal with
          | |- context [match ?x ≫= ?g with _ => _ end] => destruct (x ≫= g)
          end; cbn; try discriminate).
Qed.

Lemma init_checks_the_platform_first_witness :
  fst (__init__ "robot" "ur5" damaged)
  = Raise (ValueError "Unknown platform! Must be either 'panda' or 'fr3'!")
  /\ fst (__init__ "robot" "Franka_Research_3" damaged) <> Raise (ValueError "x").
Proof.
  split.
  - rewrite (proj1 (init_checks_the_platform_first "robot" "ur5" damaged)); reflexivity.
  - apply (proj2 (init_checks_the_platform_first "robot" "Franka_Research_3" damaged)).
    reflexivity.
Defined.

(** the lower case of the KELVIN SIGN is "k": the name is accepted *)
Example kelvin_sign_is_accepted :
  accepted franka_with_kelvin_signs = true
  /\ fst (__init__ "robot" franka_with_kelvin_signs (fresh_world []))
     = Return (new_desk "robot" franka_with_kelvin_signs no_token).
Proof. split; reflexivity. Qed.

(** X3: what the constructor loads.  Without a store file, or without a
    record for the host, the session starts with the empty token; with a
    record that has the three fields it starts with them; a record that
    lacks a field makes the constructor raise NoOptionError for the first
    field missing among id, owned_by, token. *)
Theorem init_loads_the_record hostname platform w :
  accepted platform = true ->
  (stored w hostname = None ->
   fst (__init__ hostname platform w) = Return (new_desk hostname platform no_token))
  /\ (forall record,
      stored w hostname = Some record ->
      fst (__init__ hostname platform w) =
      match record !! "id", record !! "owned_by", record !! "token" with
      | Some i, Some o, Some t => Return (new_desk hostname platform (mkToken i o t))
      | None, _, _ => Raise (NoOptionError "id" hostname)
      | Some _, None, _ => Raise (NoOptionError "owned_by" hostname)
      | Some _, Some _, None => Raise (NoOptionError "token" hostname)
      end).
Proof.
  intros Hp. rewrite __init__runs, Hp. cbn [fst].
  unfold stored, _load_token. run.
  destruct (conf_file w) as [config|]; [|split; [reflexivity | discriminate]].
  split.
  - intros ->. reflexivity.
  - intros record E. rewrite E. cbn. unfold config_get. rewrite E. cbn.
    destruct (record !! "id"); [|reflexivity]. cbn.
    destruct (record !! "owned_by"); [|reflexivity]. cbn.
    destruct (record !! "token"); reflexivity.
Qed.

Lemma init_loads_the_record_witness :
  fst (__init__ "robot" "panda" damaged) = Raise (NoOptionError "token" "robot")
  /\ fst (__init__ "other" "panda" damaged) = Return (new_desk "other" "panda" no_token).
Proof.
  split.
  - rewrite (proj2 (init_loads_the_record "robot" "panda" damaged eq_refl)
               {[ "id" := "3"; "owned_by" := "admin" ]} eq_refl).
    reflexivity.
  - apply (proj1 (init_loads_the_record "other" "panda" damaged eq_refl)). reflexivity.
Defined.

Lemma _save_token_stores (t : Token) (st : St) :
  storable (_hostname (self st)) t = true ->
  _save_token t st
  = (Return tt,
     mkSt (with_token t (self st))
          (with_conf (<[_hostname (self st) := section_of (read_back t)]>
                        (default ∅ (conf_file (world st))))
                     (world st))).
Proof.
  unfold storable. intros H. rewrite _save_token_runs.
  destruct (first_refused t); [discriminate|]. now rewrite H.
Qed.

(** X4: a token that ConfigParser stores for the host is, the way it is
    read back (white space at the ends of a field gone, a doubled per
    cent sign read as one), the token of the next session constructed
    for the same host, whatever accepted platform it names; a token of
    plain fields is that token itself. *)
Theorem saved_token_is_held_by_the_next_session t st platform :
  accepted platform = true ->
  storable (_hostname (self st)) t = true ->
  fst (__init__ (_hostname (self st)) platform (world (snd (_save_token t st))))
  = Return (new_desk (_hostname (self st)) platform (read_back t))
  /\ (plain_token t = true -> read_back t = t).
Proof.
  intros Hp Hs. rewrite __init__runs, Hp, (_save_token_stores _ _ Hs). cbn [fst snd world].
  split.
  - rewrite (_load_token_stored (read_back t)); [reflexivity|].
    unfold stored. cbn. apply lookup_insert_eq.
  - intros Hplain. apply (plain_token_passes (_hostname (self st))); [|exact Hplain].
    unfold storable in Hs. destruct (first_refused t); [discriminate|].
    unfold writable in Hs. now apply andb_prop in Hs.
Qed.

Lemma saved_token_is_held_by_the_next_session_witness :
  fst (__init__ "robot" "fr3"
         (world (snd (_save_token (mkToken "7" "admin" "s3cret") stocked))))
  = Return (new_desk "robot" "fr3" (mkToken "7" "admin" "s3cret"))
  /\ fst (__init__ "robot" "fr3"
            (world (snd (_save_token (mkToken " 7" "admin" "100%%") stocked))))
     = Return (new_desk "robot" "fr3" (mkToken "7" "admin" "100%")).
Proof.
  split.
  - exact (proj1 (saved_token_is_held_by_the_next_session
                    (mkToken "7" "admin" "s3cret") stocked "fr3" eq_refl eq_refl)).
  - exact (proj1 (saved_token_is_held_by_the_next_session
                    (mkToken " 7" "admin" "100%%") stocked "fr3" eq_refl eq_refl)).
Defined.



(** ** Logging in and out *)

(** X6: a login the device answers with 200 posts the user name and the
    encoded password (not the password) to /admin/api/login, marks the
    session logged in under that user name and keeps the response text
    as cookie; [logged_in] then says true, and a channel opened next
    presents that text as authorization.  The held token and the store
    are untouched. *)
Theorem login_accepted username password st r rest :
  replies (world st) = r :: rest ->
  status_code r = 200 ->
  exists st',
    login username password st = (Return tt, st')
    /\ self st' = with_login username (text r) (self st)
    /\ sent (world st') = sent (world st) ++ [login_request (self st) username password]
    /\ held_and_store st' = held_and_store st
    /\ fst (logged_in st') = Return true
    /\ forall address,
         fst (connect address st')
         = Return (mkHandshake ("wss://" +:+ _hostname (self st) +:+ "/" +:+ address)
                               [("authorization", text r)]).
Proof.
  intros R S. unfold login. rewrite bind_run, _request_runs by discriminate; rewrite R. cbv zeta.
  rewrite S. cbn [Z.eqb Pos.eqb].
  eexists. split; [reflexivity|]. cbn. repeat split.
Qed.

Lemma login_accepted_witness :
  fst (login "admin" "secret" (arrived [welcome])) = Return tt
  /\ cookie (self (snd (login "admin" "secret" (arrived [welcome])))) = Some "eyJhbGciOi".
Proof.
  destruct (login_accepted "admin" "secret" (arrived [welcome]) welcome [] eq_refl eq_refl)
    as (st' & E & Hself & _).
  rewrite E. cbn [fst snd]. rewrite Hself. split; reflexivity.
Defined.

(** X7: a login the device answers with any other status raises
    ConnectionError with the response text; the session is as before
    (not marked logged in, user name and cookie unchanged), and so are
    the held token and the store. *)
Theorem login_refused username password st r rest :
  replies (world st) = r :: rest ->
  status_code r <> 200 ->
  exists st',
    login username password st = (Raise (ConnectionError (text r)), st')
    /\ session_and_store st' = session_and_store st
    /\ sent (world st') = sent (world st) ++ [login_request (self st) username password]
    /\ fst (logged_in st') = fst (logged_in st).
Proof.
  intros R S. unfold login. rewrite bind_run, _request_runs by discriminate; rewrite R. cbv zeta.
  apply Z.eqb_neq in S. rewrite S.
  eexists. split; [reflexivity|]. cbn. repeat split.
Qed.

Lemma login_refused_witness :
  fst (login "admin" "wrong" (arrived [denied])) = Raise (ConnectionError "Unauthorized")
  /\ fst (logged_in (snd (login "admin" "wrong" (arrived [denied])))) = Return false.
Proof.
  destruct (login_refused "admin" "wrong" (arrived [denied]) denied [] eq_refl)
    as (st' & E & _ & _ & Hin); [discriminate|].
  rewrite E. cbn [fst snd]. rewrite Hin. split; reflexivity.
Defined.

(** X8: a logout the device answers with 200 marks the session logged
    out and changes nothing else of it: the cookie, the user name and the
    held token stay, so a channel opened afterwards still presents the
    cookie.  A logout answered with another status raises ConnectionError
    and leaves the session logged in as it was. *)
Theorem logout_keeps_the_cookie st r rest :
  replies (world st) = r :: rest ->
  (status_code r = 200 ->
   exists st',
     logout st = (Return tt, st')
     /\ fst (logged_in st') = Return false
     /\ cookie (self st') = cookie (self st)
     /\ _username (self st') = _username (self st)
     /\ held_and_store st' = held_and_store st
     /\ forall address, fst (connect address st') = fst (connect address st))
  /\ (status_code r <> 200 ->
      exists st',
        logout st = (Raise (ConnectionError (text r)), st')
        /\ session_and_store st' = session_and_store st).
Proof.
  intros R. split; intros S; unfold logout; rewrite bind_run, _request_runs by discriminate; rewrite R; cbv zeta.
  - rewrite S. cbn [Z.eqb Pos.eqb].
    eexists. split; [reflexivity|]. cbn. repeat split.
  - apply Z.eqb_neq in S. rewrite S.
    eexists. split; [reflexivity|]. cbn. repeat split.
Qed.

Lemma logout_keeps_the_cookie_witness :
  cookie (self (snd (logout (on_fr3 [bye])))) = Some "cookie"
  /\ fst (logout (on_fr3 [denied])) = Raise (ConnectionError "Unauthorized").
Proof.
  destruct (logout_keeps_the_cookie (on_fr3 [bye]) bye [] eq_refl) as [Hok _].
  destruct (logout_keeps_the_cookie (on_fr3 [denied]) denied [] eq_refl) as [_ Hno].
  destruct (Hok eq_refl) as (st1 & E1 & _ & Hc & _).
  destruct Hno as (st2 & E2 & _); [discriminate|].
  rewrite E1, E2. cbn [fst snd]. rewrite Hc. split; reflexivity.
Defined.

(** X9: a session that never logged in opens its channels with the text
    "None" as authorization; the address is appended to "wss://host/"
    as it is, and opening a channel sends no request and changes
    nothing. *)
Theorem connect_before_login hostname platform w d address :
  fst (__init__ hostname platform w) = Return d ->
  connect address (mkSt d w)
  = (Return (mkHandshake ("wss://" +:+ hostname +:+ "/" +:+ address)
                         [("authorization", "None")]),
     mkSt d w).
Proof.
  rewrite __init__runs. destruct (accepted platform); [|discriminate].
  cbn [fst]. destruct (fst (_load_token _)); intros [= <-]. reflexivity.
Qed.

Lemma connect_before_login_witness :
  fst (connect robot_states (arrived []))
  = Return (mkHandshake "wss://robot//desk/api/robot/configuration"
                        [("authorization", "None")]).
Proof.
  unfold arrived.
  rewrite (connect_before_login "robot" "fr3" (fresh_world [])
             (new_desk "robot" "fr3" no_token) robot_states eq_refl).
  reflexivity.
Defined.

(** ** ControlArbiter: errors, the plain grant, and doing it again *)

Lemma _get_active_token_fails st r rest :
  _legacy (self st) = false ->
  replies (world st) = r :: rest ->
  (status_code r <> 200 ->
   fst (_get_active_token st) = Raise (ConnectionError (text r)))
  /\ (status_code r = 200 -> decoded r = None ->
      fst (_get_active_token st) = Raise JSONDecodeError)
  /\ (forall j, status_code r = 200 -> decoded r = Some j ->
      dict_get "activeToken" (match j with JObj fields => fields | _ => [] end) = None ->
      exists e, fst (_get_active_token st) = Raise e).
Proof.
  intros L R.
  unfold _get_active_token. rewrite bind_run. cbn [get_self]. rewrite L.
  rewrite bind_run, _request_runs by discriminate; rewrite R. cbv zeta.
  repeat split.
  - intros S. apply Z.eqb_neq in S. now rewrite S.
  - intros S D. rewrite S. cbn [Z.eqb Pos.eqb]. unfold json_of. rewrite D. reflexivity.
  - intros j S D G. rewrite S. cbn [Z.eqb Pos.eqb]. unfold json_of. rewrite D. run.
    destruct j; cbn; eauto. cbn in G. rewrite G. eauto.
Qed.

(** the branch of [take_control] for a session already in control *)
Lemma take_control_retaken force st active st1 :
  _get_active_token st = (Return active, st1) ->
  id active <> "" ->
  id (_token (self st)) = id active ->
  take_control force st
  = (Return true, mkSt (self st) (with_logged "Retaken control." [] (world st1))).
Proof.
  intros H Hid Hsame.
  pose proof (reported_token_not_legacy _ _ _ H Hid) as L.
  destruct (_get_active_token_frame _ _ _ H) as (Hself & _).
  enter_take_control L H.
  rewrite Hself, Hsame, String.eqb_refl, (eqb_differs _ _ Hid). cbn.
  now rewrite Hself.
Qed.

(** the branch of [take_control] without [force] when no token is
    active *)
Lemma take_control_granted st st1 ra rq rest jq i ident secret :
  _get_active_token st = (Return no_token, st1) ->
  _legacy (self st) = false ->
  replies (world st) = ra :: rq :: rest ->
  status_code rq = 200 -> decoded rq = Some jq ->
  getitem jq "id" = Return i -> py_str i = Return ident ->
  getitem jq "token" = Return (JStr secret) ->
  storable (_hostname (self st)) (mkToken ident (_username (self st)) secret) = true ->
  take_control false st
  = (Return true,
     mkSt (with_token (mkToken ident (_username (self st)) secret) (self st))
          (with_logged "Taken control." []
             (with_conf (<[_hostname (self st)
                           := section_of
                                (read_back (mkToken ident (_username (self st)) secret))]>
                           (default ∅ (conf_file (world st))))
                (with_exchange (token_request false (self st)) rest (world st1))))).
Proof.
  intros H L R Sq Dq Gi Si Gt Hst.
  destruct (_get_active_token_frame _ _ _ H) as (Hself & Hf & _ & _ & _ & _ & Hsent).
  destruct (Hsent L) as [_ Hr]. rewrite R in Hr. cbn [tail] in Hr.
  enter_take_control L H. cbn [id no_token String.eqb negb andb].
  rewrite bind_run, _request_runs by discriminate; rewrite Hr. cbv zeta. rewrite Sq. cbn [Z.eqb Pos.eqb].
  rewrite bind_run. unfold json_of. rewrite Dq. cbn [ret].
  rewrite bind_run. cbn [ret].
  rewrite bind_run. cbn [lift]. rewrite Gi.
  rewrite bind_run. cbn [lift]. rewrite Si.
  rewrite bind_run. cbn [get_self self].
  rewrite bind_run. cbn [lift]. rewrite Gt.
  rewrite bind_run. cbn [lift as_str].
  rewrite bind_run, _save_token_stores by (cbn [self]; now rewrite Hself).
  rewrite bind_run. cbn [_logger set_world ret self world].
  rewrite Hself. cbn [conf_file with_exchange]. rewrite Hf. reflexivity.
Qed.

(** X10: when the query for the active token fails, [take_control] and
    [check_has_control] end with the very same error and state as the
    query: nothing else is sent and nothing is written.  The query fails
    with ConnectionError carrying the body on a status other than 200,
    with JSONDecodeError on a 200 body that is not JSON, and with an
    error on a JSON object without "activeToken". *)
Theorem failed_query_is_passed_on force st e st1 :
  _get_active_token st = (Raise e, st1) ->
  take_control force st = (Raise e, st1)
  /\ check_has_control st = (Raise e, st1)
  /\ session_and_store st1 = session_and_store st
  /\ sent (world st1) = sent (world st) ++ [control_token_query (self st)].
Proof.
  intros H.
  assert (L : _legacy (self st) = false).
  { destruct (_legacy (self st)) eqn:L; [|reflexivity].
    pose proof (legacy_reports_nothing _ _ _ L H). discriminate. }
  destruct (_get_active_token_frame _ _ _ H) as (Hself & Hf & Hd & _ & _ & _ & Hsent).
  destruct (Hsent L) as [Hs _].
  repeat split.
  - unfold take_control. rewrite bind_run. cbn [get_self]. rewrite L.
    now rewrite bind_run, H.
  - unfold check_has_control. now rewrite bind_run, H.
  - unfold session_and_store. now rewrite Hself, Hf, Hd.
  - exact Hs.
Qed.

Lemma failed_query_is_passed_on_witness :
  fst (take_control true (on_fr3 [not_found])) = Raise (ConnectionError "File not found")
  /\ fst (check_has_control (on_fr3 [not_found])) = Raise (ConnectionError "File not found").
Proof.
  destruct (failed_query_is_passed_on true (on_fr3 [not_found])
              (ConnectionError "File not found")
              (snd (_get_active_token (on_fr3 [not_found]))) eq_refl)
    as (E1 & E2 & _).
  rewrite E1, E2. split; reflexivity.
Defined.

(** X11: without [force] and with no token active on the device,
    [take_control] sends the query and then one request to
    /admin/api/control-token/request (no "?force"), never asks for the
    confirmation window and never touches the channels.  When the token
    the device issued (id as text, owner the session's user name) is one
    that ConfigParser stores, the call stores it for the host, the way
    ConfigParser reads it back, holds it as issued from then on and
    returns true. *)
Theorem take_control_plain_grant st st1 ra rq rest jq i ident secret :
  _get_active_token st = (Return no_token, st1) ->
  _legacy (self st) = false ->
  replies (world st) = ra :: rq :: rest ->
  status_code rq = 200 -> decoded rq = Some jq ->
  getitem jq "id" = Return i -> py_str i = Return ident ->
  getitem jq "token" = Return (JStr secret) ->
  let issued := mkToken ident (_username (self st)) secret in
  storable (_hostname (self st)) issued = true ->
  exists st',
    take_control false st = (Return true, st')
    /\ sent (world st') = sent (world st)
         ++ [control_token_query (self st); token_request false (self st)]
    /\ replies (world st') = rest
    /\ channels st' = channels st
    /\ _token (self st') = issued
    /\ stored (world st') (_hostname (self st)) = Some (section_of (read_back issued))
    /\ conf_dir (world st') = true.
Proof.
  intros H L R Sq Dq Gi Si Gt issued Hst.
  destruct (_get_active_token_frame _ _ _ H) as (_ & _ & _ & Hfeeds & Hdl & _ & Hsent).
  destruct (Hsent L) as [Hs _].
  rewrite (take_control_granted st st1 ra rq rest jq i ident secret) by assumption.
  eexists. split; [reflexivity|]. unfold channels, stored. cbn.
  rewrite Hs, Hfeeds, Hdl, <- app_assoc, lookup_insert_eq. repeat split.
Qed.

Lemma take_control_plain_grant_witness :
  fst (take_control false (on_fr3 [ok nobody; ok granted])) = Return true
  /\ _token (self (snd (take_control false (on_fr3 [ok nobody; ok granted]))))
     = mkToken "12" "admin" "abc".
Proof.
  destruct (take_control_plain_grant (on_fr3 [ok nobody; ok granted])
              (snd (_get_active_token (on_fr3 [ok nobody; ok granted])))
              (ok nobody) (ok granted) [] granted (JInt 12) "12" "abc")
    as (st' & E & _ & _ & _ & Ht & _); try reflexivity.
  rewrite E. split; [reflexivity | exact Ht].
Defined.

(** X12: ids are compared as text.  Once a plain grant has stored the
    token (one that ConfigParser stores), and the device next reports an
    active token whose id has the same text (be it a JSON number or a
    JSON string), [check_has_control] says true, and a further
    [take_control], forced or not, returns true with that one query and
    writes nothing. *)
Theorem granted_token_is_recognised
    force st st1 ra rq rc rest jq i ident secret jc at_ i' owner :
  _get_active_token st = (Return no_token, st1) ->
  _legacy (self st) = false ->
  replies (world st) = ra :: rq :: rc :: rest ->
  status_code rq = 200 -> decoded rq = Some jq ->
  getitem jq "id" = Return i -> py_str i = Return ident -> ident <> "" ->
  getitem jq "token" = Return (JStr secret) ->
  storable (_hostname (self st)) (mkToken ident (_username (self st)) secret) = true ->
  status_code rc = 200 -> decoded rc = Some jc ->
  getitem jc "activeToken" = Return at_ -> at_ <> JNull ->
  getitem at_ "id" = Return i' -> py_str i' = Return ident ->
  getitem at_ "ownedBy" = Return (JStr owner) ->
  exists st' st'',
    take_control false st = (Return true, st')
    /\ fst (check_has_control st') = Return true
    /\ take_control force st' = (Return true, st'')
    /\ session_and_store st'' = session_and_store st'
    /\ sent (world st'') = sent (world st') ++ [control_token_query (self st')].
Proof.
  intros H L R Sq Dq Gi Si Hne Gt Hst Sc Dc Ga Hat Gi' Si' Go.
  rewrite (take_control_granted st st1 ra rq (rc :: rest) jq i ident secret) by assumption.
  eexists. eexists. split; [reflexivity|].
  match goal with |- context [check_has_control ?s] => set (st' := s) end.
  assert (Hq : _get_active_token st'
               = (Return (mkToken ident owner ""),
                  mkSt (self st') (with_exchange (control_token_query (self st')) rest
                                                 (world st')))).
  { apply (_get_active_token_reported st' rc rest jc at_ i' ident owner);
      try assumption; try reflexivity. }
  split; [|split].
  - unfold check_has_control. rewrite bind_run, Hq. cbn. now rewrite String.eqb_refl.
  - apply (take_control_retaken force st' _ _ Hq); [exact Hne | reflexivity].
  - split; reflexivity.
Qed.

Lemma granted_token_is_recognised_witness :
  let st := on_fr3 [ok nobody; ok granted;
                    ok (JObj [("activeToken",
                               JObj [("id", JInt 12); ("ownedBy", JStr "admin")])])] in
  fst (check_has_control (snd (take_control false st))) = Return true.
Proof.
  cbv zeta.
  destruct (granted_token_is_recognised true
              (on_fr3 [ok nobody; ok granted;
                       ok (JObj [("activeToken",
                                  JObj [("id", JInt 12); ("ownedBy", JStr "admin")])])])
              (snd (_get_active_token
                      (on_fr3 [ok nobody; ok granted;
                               ok (JObj [("activeToken",
                                          JObj [("id", JInt 12); ("ownedBy", JStr "admin")])])])))
              (ok nobody) (ok granted)
              (ok (JObj [("activeToken", JObj [("id", JInt 12); ("ownedBy", JStr "admin")])]))
              [] granted (JInt 12) "12" "abc"
              (JObj [("activeToken", JObj [("id", JInt 12); ("ownedBy", JStr "admin")])])
              (JObj [("id", JInt 12); ("ownedBy", JStr "admin")]) (JInt 12) "admin")
    as (st' & st'' & E & Hc & _); [try reflexivity; try discriminate .. |].
  rewrite E. exact Hc.
Defined.

(** ** Who writes the token *)

Ltac keeps_step :=
  first
    [ apply keeps_ret | apply keeps_raise | apply keeps_lift
    | apply keeps_get_self | apply keeps_get_world | apply keeps_json_of
    | apply keeps_logger; intros; reflexivity
    | apply keeps_print; intros; reflexivity
    | apply keeps_request; intros; reflexivity
    | apply keeps_get_active_token; intros; reflexivity
    | apply keeps_wait_for_press; intros; reflexivity
    | apply keeps_wait_for_release; intros; reflexivity
    | apply keeps_wait_for_brakes_to_open; intros; reflexivity
    | apply keeps_wait_for_brakes_to_close; intros; reflexivity
    | apply keeps_move_on_after; [intros; reflexivity .. |]
    | apply keeps_bind; [|intros ?]
    | match goal with
      | |- keeps _ (if ?b then _ else _) => destruct b
      end ].




Lemma keeps_channels_save_token t : keeps channels (_save_token t).
Proof.
  intros st o st'. rewrite _save_token_runs.
  destruct (first_refused _); [now intros [= _ <-]|].
  destruct (writable _ _); now intros [= _ <-].
Qed.

(** X14: without [force], [take_control] never opens a channel and
    never waits: however it ends, the messages to come on every channel
    and the deadline of the open cancel scope are what they were. *)
Theorem take_control_without_force_never_waits st o st' :
  take_control false st = (o, st') -> channels st' = channels st.
Proof.
  revert st o st'. change (keeps channels (take_control false)).
  unfold take_control.
  apply keeps_bind; [apply keeps_get_self|]. intros d.
  destruct (_legacy d); [apply keeps_ret|].
  apply keeps_bind; [apply keeps_get_active_token; intros; reflexivity|]. intros active.
  apply keeps_bind; [apply keeps_get_self|]. intros d'.
  destruct (negb _ && String.eqb _ _); [repeat keeps_step|].
  destruct (negb _ && negb false); [repeat keeps_step|].
  apply keeps_bind; [apply keeps_request; intros; reflexivity|]. intros response.
  apply keeps_bind; [apply keeps_json_of|]. intros jq.
  apply keeps_bind; [apply keeps_ret|]. intros [|]; [apply keeps_ret|].
  do 5 (apply keeps_bind; [first [apply keeps_lift | apply keeps_get_self]|]; intros ?).
  apply keeps_bind; [apply keeps_channels_save_token|]. intros _.
  repeat keeps_step.
Qed.

Lemma take_control_without_force_never_waits_witness :
  channels (snd (take_control false (forcing [ok nobody; ok granted] timely_press)))
  = channels (forcing [ok nobody; ok granted] timely_press).
Proof.
  apply (take_control_without_force_never_waits
           (forcing [ok nobody; ok granted] timely_press)
           (fst (take_control false (forcing [ok nobody; ok granted] timely_press)))).
  now destruct (take_control false _).
Defined.

Lemma keeps_held_set_self (g : Desk -> Desk) :
  (forall d, _token (g d) = _token d) -> keeps held_and_store (set_self g).
Proof. intros Hg st o st' [= _ <-]. unfold held_and_store. cbn. now rewrite Hg. Qed.

(** X15: nothing in the class but [take_control] changes the held token
    or the token store: logging in and out, asking who is in control,
    switching the mode, rebooting, switching the FCI, locking and
    unlocking the brakes and the four waits leave the held token, the
    store file and its directory as they were, however they end. *)
Theorem only_take_control_writes_the_token :
  (forall username password, keeps held_and_store (login username password))
  /\ keeps held_and_store logout
  /\ keeps held_and_store check_has_control
  /\ (forall mode, keeps held_and_store (set_mode mode))
  /\ keeps held_and_store reboot
  /\ keeps held_and_store activate_fci
  /\ keeps held_and_store deactivate_fci
  /\ (forall force, keeps held_and_store (lock force))
  /\ (forall force, keeps held_and_store (unlock force))
  /\ (forall button, keeps held_and_store (wait_for_press button))
  /\ (forall button, keeps held_and_store (wait_for_release button))
  /\ keeps held_and_store wait_for_brakes_to_open
  /\ keeps held_and_store wait_for_brakes_to_close.
Proof.
  repeat split; intros.
  - unfold login. apply keeps_bind; [keeps_step|]. intros r.
    apply keeps_bind; [now apply keeps_held_set_self|]. intros _. keeps_step.
  - unfold logout. apply keeps_bind; [keeps_step|]. intros r.
    apply keeps_bind; [now apply keeps_held_set_self|]. intros _. keeps_step.
  - unfold check_has_control. repeat keeps_step.
  - unfold set_mode. apply keeps_bind; [keeps_step|]. intros d.
    destruct (String.eqb _ _); [keeps_step|].
    apply keeps_bind.
    + destruct (String.eqb _ _); [keeps_step|]. destruct (String.eqb _ _); keeps_step.
    + intros url. repeat keeps_step.
  - unfold reboot. repeat keeps_step.
  - unfold activate_fci. repeat keeps_step.
  - unfold deactivate_fci. repeat keeps_step.
  - unfold lock. apply keeps_bind; [keeps_step|]. intros d. apply keeps_bind.
    + destruct (String.eqb _ _); [keeps_step|]. destruct (String.eqb _ _); keeps_step.
    + intros url. repeat keeps_step.
  - unfold unlock. apply keeps_bind; [keeps_step|]. intros d. apply keeps_bind.
    + destruct (String.eqb _ _); [keeps_step|]. destruct (String.eqb _ _); keeps_step.
    + intros url. repeat keeps_step.
  - keeps_step.
  - keeps_step.
  - keeps_step.
  - keeps_step.
Qed.

Lemma only_take_control_writes_the_token_witness :
  held_and_store (snd (login "admin" "secret" (forcing [welcome] [])))
  = held_and_store (forcing [welcome] [])
  /\ held_and_store (snd (lock true (forcing [denied] [])))
     = held_and_store (forcing [denied] []).
Proof.
  destruct only_take_control_writes_the_token as (Hlogin & _ & _ & _ & _ & _ & _ & Hlock & _).
  split.
  - apply (Hlogin "admin" "secret" (forcing [welcome] [])
             (fst (login "admin" "secret" (forcing [welcome] [])))).
    now destruct (login _ _ _).
  - apply (Hlock true (forcing [denied] []) (fst (lock true (forcing [denied] [])))).
    now destruct (lock _ _).
Defined.

(** ** The secret on privileged calls *)

(** X16: after a plain grant of a token that ConfigParser stores, the
    privileged calls present the token value the device issued in that
    grant, as issued: [activate_fci] posts it as the "token" field of
    the JSON body, [reboot] and [set_mode] send it as the X-Control-Token
    header; each of them sends that one request.  [deactivate_fci] sends
    nothing: the [delete] of the HTTP client takes no body, so the call
    raises TypeError and leaves everything as it was. *)
Theorem issued_secret_is_presented st st1 ra rq rest jq i ident secret :
  _get_active_token st = (Return no_token, st1) ->
  _legacy (self st) = false ->
  replies (world st) = ra :: rq :: rest ->
  status_code rq = 200 -> decoded rq = Some jq ->
  getitem jq "id" = Return i -> py_str i = Return ident ->
  getitem jq "token" = Return (JStr secret) ->
  storable (_hostname (self st)) (mkToken ident (_username (self st)) secret) = true ->
  let st' := snd (take_control false st) in
  let d := self st in
  sent (world (snd (activate_fci st'))) = sent (world st') ++ [fci_request POST d secret]
  /\ deactivate_fci st' = (Raise TypeError, st')
  /\ sent (world (snd (reboot st'))) = sent (world st') ++ [reboot_request d secret]
  /\ (_platform d <> "panda" ->
      sent (world (snd (set_mode "execution" st')))
        = sent (world st') ++ [mode_request d "execution" secret]
      /\ sent (world (snd (set_mode "programming" st')))
        = sent (world st') ++ [mode_request d "programming" secret]).
Proof.
  intros H L R Sq Dq Gi Si Gt Hst st' d. subst st' d.
  rewrite (take_control_granted st st1 ra rq rest jq i ident secret) by assumption.
  cbn [snd].
  repeat split.
  - unfold activate_fci. rewrite bind_run. cbn [get_self self with_token _legacy].
    rewrite L. cbn [negb]. rewrite bind_run, _request_runs by discriminate. cbv zeta.
    destruct rest as [|r rest']; [reflexivity|]. cbn [replies world with_logged with_conf with_exchange].
    destruct (status_code r =? 200); reflexivity.
  - unfold deactivate_fci. rewrite bind_run. cbn [get_self self with_token _legacy].
    rewrite L. cbn [negb]. now rewrite bind_run, _request_delete.
  - unfold reboot. rewrite bind_run. cbn [get_self].
    rewrite bind_run, _request_runs by discriminate. cbv zeta.
    destruct rest as [|r rest']; [reflexivity|]. cbn [replies world with_logged with_conf with_exchange].
    destruct (status_code r =? 200); reflexivity.
  - unfold set_mode. rewrite bind_run. cbn [get_self self with_token _platform].
    rewrite (eqb_differs _ _ H0). cbn [String.eqb Ascii.eqb Bool.eqb ret].
    rewrite !bind_run. cbn [ret]. rewrite bind_run, _request_runs by discriminate. cbv zeta.
    destruct rest as [|r rest']; [reflexivity|]. cbn [replies world with_logged with_conf with_exchange].
    destruct (status_code r =? 200); reflexivity.
  - unfold set_mode. rewrite bind_run. cbn [get_self self with_token _platform].
    rewrite (eqb_differs _ _ H0). cbn [String.eqb Ascii.eqb Bool.eqb ret].
    rewrite !bind_run. cbn [ret]. rewrite bind_run, _request_runs by discriminate. cbv zeta.
    destruct rest as [|r rest']; [reflexivity|]. cbn [replies world with_logged with_conf with_exchange].
    destruct (status_code r =? 200); reflexivity.
Qed.

(** ** ConditionWait: exactly when the waits return *)

Lemma button_verdict_meaning test button e :
  (forall a, button_verdict test button e = Return (Some a) <->
             a = e /\ exists fields v,
               e = JObj fields /\ dict_get button fields = Some v /\ test v = true)
  /\ (button_verdict test button e = Return None <->
      exists fields, e = JObj fields
        /\ match dict_get button fields with Some v => test v = false | None => True end)
  /\ (forall x, button_verdict test button e = Raise x <->
                x = AttributeError /\ is_object e = false).
Proof.
  destruct e as [ | | | | | fields]; cbn;
    try (repeat split; intros;
         repeat match goal with
                | H : _ /\ _ |- _ => destruct H
                | H : exists _, _ |- _ => destruct H
                end; congruence).
  destruct (dict_get button fields) as [v|] eqn:G; [destruct (test v) eqn:T|].
  all: repeat split; intros;
    repeat match goal with
           | H : _ /\ _ |- _ => destruct H
           | H : exists _, _ |- _ => destruct H
           | H : JObj _ = JObj _ |- _ => injection H as <-
           end; try congruence; eauto 6.
  all: try (eexists; split; [reflexivity|]; rewrite G; auto).
  rewrite G in *. congruence.
Qed.

(** X17: [wait_for_press] returns an event exactly when that event is
    the first one on the navigation channel, arriving before the
    deadline of the cancel scope around the call, that has the button
    with a value equal to True (true, or the number 1), every event
    before it being an object without such a value, and one more event
    arrives after it before the deadline; it takes the events up to that
    further one off the channel and changes nothing else. *)
Theorem wait_for_press_returns_exactly_the_first_press button st e st' :
  wait_for_press button st = (Return e, st')
  <-> exists earlier t next later,
        feed_of button_events (world st) = earlier ++ (t, e) :: next :: later
        /\ Forall (fun m => in_time (fst m) st /\ is_object (snd m) = true
                            /\ is_press button (snd m) = false) earlier
        /\ in_time t st
        /\ is_press button e = true
        /\ in_time (fst next) st
        /\ st' = after_feed button_events later st.
Proof.
  pose proof (wait_for_press_decides button) as D.
  split.
  - intros E.
    destruct (async_for_returned button_events _ _ D _ st e st' eq_refl E)
      as (e0 & earlier & t & next & later & Hf & Hall & Ht & Hn & Hv & ->).
    destruct (proj1 (proj1 (button_verdict_meaning eq_True button e0) e) Hv)
      as (-> & fields & v & -> & G & T).
    exists earlier, t, next, later. repeat split; auto.
    + eapply Forall_impl; [exact Hall|]. intros [t1 e1] [Ht1 Hv1]. cbn in *.
      destruct (proj1 (proj1 (proj2 (button_verdict_meaning eq_True button e1))) Hv1)
        as (fields1 & -> & Hno).
      repeat split; auto. cbn. now destruct (dict_get button fields1).
    + cbn. now rewrite G.
  - intros (earlier & t & next & later & Hf & Hall & Ht & Hp & Hn & ->).
    now apply (wait_for_press_returns button st earlier t e next later).
Qed.

Lemma wait_for_press_returns_exactly_the_first_press_witness :
  wait_for_press "circle" (listening button_events odd_events)
  = (Return (JObj [("circle", JInt 1); ("check", JBool false)]),
     after_feed button_events [] (listening button_events odd_events)).
Proof.
  apply (proj2 (wait_for_press_returns_exactly_the_first_press "circle"
                  (listening button_events odd_events)
                  (JObj [("circle", JInt 1); ("check", JBool false)])
                  (after_feed button_events [] (listening button_events odd_events)))).
  exists (take 1 odd_events), 2%Q, (3%Q, JArr []), [].
  repeat split; try reflexivity. repeat constructor.
Defined.

Lemma button_verdict_release button e :
  is_release button e = true -> button_verdict eq_False button e = Return (Some e).
Proof.
  destruct e as [ | | | | | fields]; try discriminate. cbn.
  destruct (dict_get button fields) as [v|]; [|discriminate]. now intros ->.
Qed.

Lemma button_verdict_no_release button e :
  is_object e = true -> is_release button e = false ->
  button_verdict eq_False button e = Return None.
Proof.
  destruct e as [ | | | | | fields]; try discriminate. cbn. intros _.
  destruct (dict_get button fields) as [v|]; [|reflexivity]. now intros ->.
Qed.

(** X18: [wait_for_release] returns an event exactly when that event is
    the first one, arriving before the deadline, that has the button
    with a value equal to False (false, or the number 0), every event
    before it being an object without such a value, and one more event
    arrives after it before the deadline; it takes the events up to that
    further one off the channel and changes nothing else. *)
Theorem wait_for_release_returns_exactly_the_first_release button st e st' :
  wait_for_release button st = (Return e, st')
  <-> exists earlier t next later,
        feed_of button_events (world st) = earlier ++ (t, e) :: next :: later
        /\ Forall (fun m => in_time (fst m) st /\ is_object (snd m) = true
                            /\ is_release button (snd m) = false) earlier
        /\ in_time t st
        /\ is_release button e = true
        /\ in_time (fst next) st
        /\ st' = after_feed button_events later st.
Proof.
  pose proof (wait_for_release_decides button) as D.
  split.
  - intros E.
    destruct (async_for_returned button_events _ _ D _ st e st' eq_refl E)
      as (e0 & earlier & t & next & later & Hf & Hall & Ht & Hn & Hv & ->).
    destruct (proj1 (proj1 (button_verdict_meaning eq_False button e0) e) Hv)
      as (-> & fields & v & -> & G & T).
    exists earlier, t, next, later. repeat split; auto.
    + eapply Forall_impl; [exact Hall|]. intros [t1 e1] [Ht1 Hv1]. cbn in *.
      destruct (proj1 (proj1 (proj2 (button_verdict_meaning eq_False button e1))) Hv1)
        as (fields1 & -> & Hno).
      repeat split; auto. cbn. now destruct (dict_get button fields1).
    + cbn. now rewrite G.
  - intros (earlier & t & next & later & Hf & Hall & Ht & Hp & Hn & ->).
    apply (async_for_stops button_events _ _ D st e e).
    exists earlier, t, next, later. repeat split; auto.
    + eapply Forall_impl; [exact Hall|]. intros [t1 e1] (Ht1 & Ho & Hno). cbn in *.
      split; [exact Ht1 | now apply button_verdict_no_release].
    + now apply button_verdict_release.
Qed.

Lemma wait_for_release_returns_exactly_the_first_release_witness :
  wait_for_release "check" (listening button_events odd_events)
  = (Return (JObj [("circle", JInt 1); ("check", JBool false)]),
     after_feed button_events [] (listening button_events odd_events)).
Proof.
  apply (proj2 (wait_for_release_returns_exactly_the_first_release "check"
                  (listening button_events odd_events)
                  (JObj [("circle", JInt 1); ("check", JBool false)])
                  (after_feed button_events [] (listening button_events odd_events)))).
  exists (take 1 odd_events), 2%Q, (3%Q, JArr []), [].
  repeat split; try reflexivity. repeat constructor.
Defined.

Lemma brakes_verdict_meaning word status :
  (forall u, brakes_verdict word status = Return (Some u) <->
     exists entries, entries_of status = Some entries
       /\ forallb (fun b => eq_str b word) entries = true)
  /\ (brakes_verdict word status = Return None <->
      exists entries, entries_of status = Some entries
        /\ forallb (fun b => eq_str b word) entries = false).
Proof.
  unfold brakes_verdict, entries_of.
  destruct (getitem status "brakeState") as [v | x | |];
    [destruct (py_iter v) as [entries | x | |];
       [destruct (forallb _ entries) eqn:F|..]|..].
  all: split; [intros []|]; split; intros H;
    repeat match goal with
           | H : exists _, _ |- _ => destruct H
           | H : _ /\ _ |- _ => destruct H
           | H : Some _ = Some _ |- _ => injection H as <-
           end; try congruence; eauto.
Qed.

(** the two brake waits, as loops over the safety channel *)
Lemma brake_wait_returns word (c : M unit) st st' :
  c = async_for safety_status (fun status =>
        brakeState <- lift (getitem status "brakeState");;
        entries <- lift (py_iter brakeState);;
        let flags := map (fun b => eq_str b word) entries in
        if forallb (fun b => b) flags then ret (Some tt) else ret None) ->
  c st = (Return tt, st')
  <-> exists earlier t status next later entries,
        feed_of safety_status (world st) = earlier ++ (t, status) :: next :: later
        /\ Forall (fun m => in_time (fst m) st
                            /\ exists es, entries_of (snd m) = Some es
                                 /\ forallb (fun b => eq_str b word) es = false) earlier
        /\ in_time t st
        /\ entries_of status = Some entries
        /\ forallb (fun b => eq_str b word) entries = true
        /\ in_time (fst next) st
        /\ st' = after_feed safety_status later st.
Proof.
  intros ->. pose proof (wait_for_brakes_decides word) as D. split.
  - intros E.
    destruct (async_for_returned safety_status _ _ D _ st tt st' eq_refl E)
      as (status & earlier & t & next & later & Hf & Hall & Ht & Hn & Hv & ->).
    destruct (proj1 (proj1 (brakes_verdict_meaning word status) tt) Hv) as (entries & He & Hu).
    exists earlier, t, status, next, later, entries. repeat split; auto.
    eapply Forall_impl; [exact Hall|]. intros [t1 m1] [Ht1 Hv1]. cbn in *.
    split; [exact Ht1|]. exact (proj1 (proj2 (brakes_verdict_meaning word m1)) Hv1).
  - intros (earlier & t & status & next & later & entries & Hf & Hall & Ht & He & Hu & Hn & ->).
    apply (async_for_stops safety_status _ _ D st status tt).
    exists earlier, t, next, later. repeat split; auto.
    + eapply Forall_impl; [exact Hall|]. intros [t1 m1] [Ht1 Hes]. cbn in *.
      split; [exact Ht1|]. exact (proj2 (proj2 (brakes_verdict_meaning word m1)) Hes).
    + apply (proj2 (proj1 (brakes_verdict_meaning word status) tt)). eauto.
Qed.

(** X19: each brake wait returns exactly when there is a first
    safety-status message, arriving before the deadline of the cancel
    scope around the call, whose brake-state entries all equal its word
    ("Unlocked" for [wait_for_brakes_to_open], "Locked" for
    [wait_for_brakes_to_close]), every message before it having entries
    that do not all equal the word, and one more message arrives after
    it before the deadline; it takes the messages up to that further one
    off the channel and changes nothing else.  The number of entries is
    not looked at. *)
Theorem brake_waits_return_exactly_on_the_first_agreement st st' :
  (wait_for_brakes_to_open st = (Return tt, st')
   <-> exists earlier t status next later entries,
         feed_of safety_status (world st) = earlier ++ (t, status) :: next :: later
         /\ Forall (fun m => in_time (fst m) st
                             /\ exists es, entries_of (snd m) = Some es
                                  /\ all_unlocked es = false) earlier
         /\ in_time t st
         /\ entries_of status = Some entries
         /\ all_unlocked entries = true
         /\ in_time (fst next) st
         /\ st' = after_feed safety_status later st)
  /\ (wait_for_brakes_to_close st = (Return tt, st')
      <-> exists earlier t status next later entries,
            feed_of safety_status (world st) = earlier ++ (t, status) :: next :: later
            /\ Forall (fun m => in_time (fst m) st
                                /\ exists es, entries_of (snd m) = Some es
                                     /\ all_locked es = false) earlier
            /\ in_time t st
            /\ entries_of status = Some entries
            /\ all_locked entries = true
            /\ in_time (fst next) st
            /\ st' = after_feed safety_status later st).
Proof.
  split.
  - exact (brake_wait_returns "Unlocked" wait_for_brakes_to_open st st' eq_refl).
  - exact (brake_wait_returns "Locked" wait_for_brakes_to_close st st' eq_refl).
Qed.

Lemma brake_waits_return_exactly_on_the_first_agreement_witness :
  wait_for_brakes_to_close (listening safety_status script)
  = (Return tt, after_feed safety_status (drop 2 script) (listening safety_status script))
  /\ wait_for_brakes_to_open (listening safety_status script_and_more)
     = (Return tt, after_feed safety_status [] (listening safety_status script_and_more)).
Proof.
  split.
  - apply (proj2 (proj2 (brake_waits_return_exactly_on_the_first_agreement
                           (listening safety_status script)
                           (after_feed safety_status (drop 2 script)
                                       (listening safety_status script))))).
    exists [], 0.1%Q, (brakes (repeat "Locked" 7)),
           (0.2%Q, brakes ["Unlocked"; "Unlocked"; "Locked"; "Unlocked"; "Locked"; "Locked";
                           "Unlocked"]),
           (drop 2 script), (map JStr (repeat "Locked" 7)).
    repeat split; try reflexivity. constructor.
  - apply (proj2 (proj1 (brake_waits_return_exactly_on_the_first_agreement
                           (listening safety_status script_and_more)
                           (after_feed safety_status []
                                       (listening safety_status script_and_more))))).
    exists (take 2 script), 0.3%Q, (brakes (repeat "Unlocked" 7)),
           (0.4%Q, brakes (repeat "Unlocked" 7)), [], (map JStr (repeat "Unlocked" 7)).
    repeat split; try reflexivity.
    repeat constructor; eexists; split; reflexivity.
Defined.

(** ** ConditionWait: malformed messages and silence *)

(** X20: how the waits take a first message that arrives in time and is
    not what they expect.  A navigation event that is not a JSON object
    makes both button waits raise AttributeError.  A safety-status
    message without "brakeState" makes both brake waits raise KeyError, a
    message that is no object, or whose "brakeState" is null, a boolean
    or a number, makes them raise TypeError.  The error comes out of the
    nursery of the generator: inside an ExceptionGroup when trio has
    strict exception groups, as it is otherwise; the message is taken
    off the channel.  An empty list of brake states counts as agreement
    for both brake waits: they return when one more message has come in
    time, and do not return when none does. *)
Theorem waits_on_an_unexpected_message button st t e later :
  in_time t st ->
  let strict := strict_exception_groups (world st) in
  (feed_of button_events (world st) = (t, e) :: later -> is_object e = false ->
   wait_for_press button st
   = (Raise (out_of_nursery strict AttributeError), after_feed button_events later st)
   /\ wait_for_release button st
      = (Raise (out_of_nursery strict AttributeError), after_feed button_events later st))
  /\ (forall x,
      feed_of safety_status (world st) = (t, e) :: later ->
      match e with
      | JObj fields =>
          match dict_get "brakeState" fields with
          | None => x = KeyError "brakeState"
          | Some (JNull | JBool _ | JInt _) => x = TypeError
          | Some _ => False
          end
      | _ => x = TypeError
      end ->
      wait_for_brakes_to_open st
      = (Raise (out_of_nursery strict x), after_feed safety_status later st)
      /\ wait_for_brakes_to_close st
         = (Raise (out_of_nursery strict x), after_feed safety_status later st))
  /\ (feed_of safety_status (world st) = (t, e) :: later ->
      entries_of e = Some [] ->
      (forall next later',
          later = next :: later' -> in_time (fst next) st ->
          wait_for_brakes_to_open st = (Return tt, after_feed safety_status later' st)
          /\ wait_for_brakes_to_close st = (Return tt, after_feed safety_status later' st))
      /\ (nothing_in_time later st ->
          wait_for_brakes_to_open st = (cut_short st, after_feed safety_status later st)
          /\ wait_for_brakes_to_close st = (cut_short st, after_feed safety_status later st))).
Proof.
  intros Ht strict. subst strict. split; [|split].
  - intros Hf Ho.
    assert (Hv : forall test, button_verdict test button e = Raise AttributeError)
      by (intros test; destruct e; try reflexivity; discriminate).
    split.
    + apply (async_for_raises button_events _ _ (wait_for_press_decides button) []
               st t e later AttributeError); auto.
    + apply (async_for_raises button_events _ _ (wait_for_release_decides button) []
               st t e later AttributeError); auto.
  - intros x Hf Hx.
    assert (Hv : forall word, brakes_verdict word e = Raise x).
    { intros word. unfold brakes_verdict.
      destruct e as [ | | | | | fields]; cbn; try now subst x.
      destruct (dict_get "brakeState" fields) as [[ | | | | | ]|];
        cbn; first [now subst x | now destruct Hx]. }
    split.
    + apply (async_for_raises safety_status _ _ (wait_for_brakes_decides "Unlocked") []
               st t e later x); auto.
    + apply (async_for_raises safety_status _ _ (wait_for_brakes_decides "Locked") []
               st t e later x); auto.
  - intros Hf He.
    assert (Hv : forall word, brakes_verdict word e = Return (Some tt)).
    { intros word. apply (proj2 (proj1 (brakes_verdict_meaning word e) tt)).
      exists []. now split. }
    split.
    + intros [t' e'] later' -> Hn. split.
      * apply (async_for_stops safety_status _ _ (wait_for_brakes_decides "Unlocked")
                 st e tt).
        exists [], t, (t', e'), later'. repeat split; auto.
      * apply (async_for_stops safety_status _ _ (wait_for_brakes_decides "Locked")
                 st e tt).
        exists [], t, (t', e'), later'. repeat split; auto.
    + intros Hn. split.
      * apply (async_for_unheard safety_status _ _ (wait_for_brakes_decides "Unlocked")
                 [] st t e tt later); auto.
      * apply (async_for_unheard safety_status _ _ (wait_for_brakes_decides "Locked")
                 [] st t e tt later); auto.
Qed.

Lemma waits_on_an_unexpected_message_witness :
  fst (wait_for_press "circle" (listening button_events (drop 2 odd_events)))
  = Raise (ExceptionGroup AttributeError)
  /\ fst (wait_for_brakes_to_open
            (listening safety_status [(1%Q, JObj [("brakeState", JArr [])])]))
     = Pending
  /\ fst (wait_for_brakes_to_open
            (listening safety_status [(1%Q, JObj [("brakeState", JArr [])]);
                                      (2%Q, JObj [("brakeState", JArr [])])]))
     = Return tt.
Proof.
  destruct (waits_on_an_unexpected_message "circle"
              (listening button_events (drop 2 odd_events)) 3%Q (JArr []) [] I)
    as (Hb & _ & _).
  destruct (waits_on_an_unexpected_message "circle"
              (listening safety_status [(1%Q, JObj [("brakeState", JArr [])])])
              1%Q (JObj [("brakeState", JArr [])]) [] I)
    as (_ & _ & He).
  destruct (waits_on_an_unexpected_message "circle"
              (listening safety_status [(1%Q, JObj [("brakeState", JArr [])]);
                                        (2%Q, JObj [("brakeState", JArr [])])])
              1%Q (JObj [("brakeState", JArr [])])
              [(2%Q, JObj [("brakeState", JArr [])])] I)
    as (_ & _ & He2).
  destruct (Hb eq_refl eq_refl) as [E1 _].
  destruct (He eq_refl eq_refl) as [_ Hnone].
  destruct (Hnone I) as [E2 _].
  destruct (He2 eq_refl eq_refl) as [Hnext _].
  destruct (Hnext (2%Q, JObj [("brakeState", JArr [])]) [] eq_refl I) as [E3 _].
  rewrite E1, E2, E3. repeat split.
Defined.

(** X21: the waits have no timeout of their own.  With no cancel scope
    open, a wait on a channel whose messages it all passes over (brake
    states that never all agree, events without the press or the
    release) never returns and never raises. *)
Theorem waits_never_give_up_on_their_own button st :
  deadline (world st) = None ->
  (Forall (fun m => exists es, entries_of (snd m) = Some es /\ all_unlocked es = false)
          (feed_of safety_status (world st)) ->
   fst (wait_for_brakes_to_open st) = Pending)
  /\ (Forall (fun m => exists es, entries_of (snd m) = Some es /\ all_locked es = false)
             (feed_of safety_status (world st)) ->
      fst (wait_for_brakes_to_close st) = Pending)
  /\ (Forall (fun m => is_object (snd m) = true /\ is_press button (snd m) = false)
             (feed_of button_events (world st)) ->
      fst (wait_for_press button st) = Pending)
  /\ (Forall (fun m => is_object (snd m) = true /\ is_release button (snd m) = false)
             (feed_of button_events (world st)) ->
      fst (wait_for_release button st) = Pending).
Proof.
  intros Hd. repeat split; intros Hall.
  - apply (async_for_never safety_status _ _ (wait_for_brakes_decides "Unlocked") _ st
             eq_refl Hd).
    eapply Forall_impl; [exact Hall|]. intros [t m] Hes.
    exact (proj2 (proj2 (brakes_verdict_meaning "Unlocked" m)) Hes).
  - apply (async_for_never safety_status _ _ (wait_for_brakes_decides "Locked") _ st
             eq_refl Hd).
    eapply Forall_impl; [exact Hall|]. intros [t m] Hes.
    exact (proj2 (proj2 (brakes_verdict_meaning "Locked" m)) Hes).
  - apply (async_for_never button_events _ _ (wait_for_press_decides button) _ st
             eq_refl Hd).
    eapply Forall_impl; [exact Hall|]. intros [t e] [Ho Hp]. cbn in *.
    destruct e; try discriminate. cbn in *.
    destruct (dict_get button fields); [now rewrite Hp | reflexivity].
  - apply (async_for_never button_events _ _ (wait_for_release_decides button) _ st
             eq_refl Hd).
    eapply Forall_impl; [exact Hall|]. intros [t e] [Ho Hp]. cbn in *.
    destruct e; try discriminate. cbn in *.
    destruct (dict_get button fields); [now rewrite Hp | reflexivity].
Qed.

Lemma waits_never_give_up_on_their_own_witness :
  fst (wait_for_brakes_to_close (listening safety_status (drop 1 script))) = Pending
  /\ fst (wait_for_press "circle" (listening button_events [])) = Pending.
Proof.
  destruct (waits_never_give_up_on_their_own "circle"
              (listening safety_status (drop 1 script)) eq_refl) as (_ & Hclose & _).
  destruct (waits_never_give_up_on_their_own "circle"
              (listening button_events []) eq_refl) as (_ & _ & Hpress & _).
  split.
  - apply Hclose. repeat constructor; eexists; split; reflexivity.
  - apply Hpress. constructor.
Defined.

(** ** The brakes *)

Lemma lock_runs force st :
  lock force st =
  match brakes_url (_platform (self st)) true with
  | None => (Raise (UnboundLocalError "url"), st)
  | Some url =>
      bind (_request POST url (Some [("X-Control-Token", token (_token (self st)))]) None
                     (Some [("force", encode_utf8 (str_bool force))]) 50)
           (fun _ => wait_for_brakes_to_close) st
  end.
Proof.
  unfold lock, brakes_url. rewrite bind_run. cbn [get_self].
  destruct (String.eqb (_platform (self st)) "panda"); [reflexivity|].
  destruct (String.eqb (_platform (self st)) "fr3"); reflexivity.
Qed.

Lemma unlock_runs force st :
  unlock force st =
  match brakes_url (_platform (self st)) false with
  | None => (Raise (UnboundLocalError "url"), st)
  | Some url =>
      bind (_request POST url (Some [("X-Control-Token", token (_token (self st)))]) None
                     (Some [("force", encode_utf8 (str_bool force))]) 50)
           (fun _ => wait_for_brakes_to_open) st
  end.
Proof.
  unfold unlock, brakes_url. rewrite bind_run. cbn [get_self].
  destruct (String.eqb (_platform (self st)) "panda"); [reflexivity|].
  destruct (String.eqb (_platform (self st)) "fr3"); reflexivity.
Qed.

(** X22: [lock] and [unlock] know the platform only by the exact texts
    "panda" and "fr3".  A session whose stored platform is any other
    text, as the constructor leaves it for an accepted name such as
    "fer" or "FR3", gets UnboundLocalError from both; nothing is sent
    and nothing changes. *)
Theorem lock_needs_the_exact_platform_text force st :
  _platform (self st) <> "panda" ->
  _platform (self st) <> "fr3" ->
  lock force st = (Raise (UnboundLocalError "url"), st)
  /\ unlock force st = (Raise (UnboundLocalError "url"), st).
Proof.
  intros Hp Hf. rewrite lock_runs, unlock_runs. unfold brakes_url.
  now rewrite (eqb_differs _ _ Hp), (eqb_differs _ _ Hf).
Qed.

Lemma lock_needs_the_exact_platform_text_witness :
  fst (__init__ "robot" "fer" (fresh_world [bye])) = Return (new_desk "robot" "fer" no_token)
  /\ lock true (mkSt (new_desk "robot" "fer" no_token) (fresh_world [bye]))
     = (Raise (UnboundLocalError "url"),
        mkSt (new_desk "robot" "fer" no_token) (fresh_world [bye])).
Proof.
  split; [reflexivity|].
  apply (lock_needs_the_exact_platform_text true
           (mkSt (new_desk "robot" "fer" no_token) (fresh_world [bye])));
    discriminate.
Defined.

(** X23: when the device answers the request of [lock] or [unlock] with
    a status other than 200, the call raises ConnectionError with the
    body and does not wait: the channels are untouched.  The request is
    the POST for the stored platform, with the held token's value as
    X-Control-Token, the text of [force] ("True" or "False") as the file
    "force", and a timeout of 50. *)
Theorem lock_raises_without_waiting force close st url r rest :
  brakes_url (_platform (self st)) close = Some url ->
  replies (world st) = r :: rest ->
  status_code r <> 200 ->
  exists st',
    (if close then lock force st else unlock force st)
    = (Raise (ConnectionError (text r)), st')
    /\ sent (world st') = sent (world st) ++ [brake_request (self st) url force]
    /\ channels st' = channels st
    /\ session_and_store st' = session_and_store st.
Proof.
  intros Hu R S. apply Z.eqb_neq in S.
  destruct close; [rewrite lock_runs | rewrite unlock_runs];
    rewrite Hu, bind_run, _request_runs by discriminate; rewrite R; cbv zeta; rewrite S;
    (eexists; split; [reflexivity|]); repeat split.
Qed.

Lemma lock_raises_without_waiting_witness :
  fst (unlock true (forcing [denied] timely_press)) = Raise (ConnectionError "Unauthorized").
Proof.
  destruct (lock_raises_without_waiting true false (forcing [denied] timely_press)
              "/desk/api/joints/unlock" denied [] eq_refl eq_refl)
    as (st' & E & _); [discriminate|].
  now rewrite E.
Defined.

(** X24: when the device answers the request with 200, [lock] is from
    there on [wait_for_brakes_to_close] and [unlock] is
    [wait_for_brakes_to_open], started after the request: the call ends
    exactly as that wait ends.  With no cancel scope open and a safety
    channel on which the brakes never all agree, the call never returns
    although the device accepted the request. *)
Theorem lock_is_the_request_and_then_the_wait force close st url r rest :
  brakes_url (_platform (self st)) close = Some url ->
  replies (world st) = r :: rest ->
  status_code r = 200 ->
  let st1 := answered (brake_request (self st) url force) rest st in
  (if close then lock force st else unlock force st)
  = (if close then wait_for_brakes_to_close st1 else wait_for_brakes_to_open st1)
  /\ (deadline (world st) = None ->
      Forall (fun m => exists es, entries_of (snd m) = Some es
                         /\ (if close then all_locked es else all_unlocked es) = false)
             (feed_of safety_status (world st)) ->
      fst (if close then lock force st else unlock force st) = Pending).
Proof.
  intros Hu R S st1.
  assert (E : (if close then lock force st else unlock force st)
              = (if close then wait_for_brakes_to_close st1 else wait_for_brakes_to_open st1)).
  { destruct close; [rewrite lock_runs | rewrite unlock_runs];
      rewrite Hu, bind_run, _request_runs by discriminate; rewrite R; cbv zeta; rewrite S; reflexivity. }
  split; [exact E|]. intros Hd Hall. rewrite E.
  destruct close.
  - apply (async_for_never safety_status _ _ (wait_for_brakes_decides "Locked") _ st1
             eq_refl Hd).
    eapply Forall_impl; [exact Hall|]. intros [t m] Hes.
    exact (proj2 (proj2 (brakes_verdict_meaning "Locked" m)) Hes).
  - apply (async_for_never safety_status _ _ (wait_for_brakes_decides "Unlocked") _ st1
             eq_refl Hd).
    eapply Forall_impl; [exact Hall|]. intros [t m] Hes.
    exact (proj2 (proj2 (brakes_verdict_meaning "Unlocked" m)) Hes).
Qed.

Lemma lock_is_the_request_and_then_the_wait_witness :
  fst (unlock true (braked [bye] script_and_more)) = Return tt
  /\ fst (lock true (braked [bye] (drop 1 script))) = Pending.
Proof.
  destruct (lock_is_the_request_and_then_the_wait true false (braked [bye] script_and_more)
              "/desk/api/joints/unlock" bye [] eq_refl eq_refl eq_refl) as [E _].
  destruct (lock_is_the_request_and_then_the_wait true true (braked [bye] (drop 1 script))
              "/desk/api/joints/lock" bye [] eq_refl eq_refl eq_refl) as [_ Hnever].
  split.
  - cbv beta iota in E. rewrite E. reflexivity.
  - apply Hnever; [reflexivity|].
    repeat constructor; eexists; split; reflexivity.
Defined.

Lemma issued_secret_is_presented_witness :
  sent (world (snd (reboot (snd (take_control false (on_fr3 [ok nobody; ok granted; bye]))))))
  = sent (world (snd (take_control false (on_fr3 [ok nobody; ok granted; bye]))))
    ++ [reboot_request (self (on_fr3 [])) "abc"].
Proof.
  destruct (issued_secret_is_presented (on_fr3 [ok nobody; ok granted; bye])
              (snd (_get_active_token (on_fr3 [ok nobody; ok granted; bye])))
              (ok nobody) (ok granted) [bye] granted (JInt 12) "12" "abc")
    as (_ & _ & Hreboot & _); [reflexivity .. |].
  exact Hreboot.
Defined.

(** ** The operating mode *)

(** X25: on a session whose stored platform is not "panda", [set_mode]
    accepts the modes "execution" and "programming" only: any other text
    raises ValueError naming it, with nothing sent and nothing changed.
    For the two modes it posts to /desk/api/operating-mode/<mode> with
    the held token's value as X-Control-Token and a timeout of 50; a 200
    makes it return, any other status raises ConnectionError with the
    body. *)
Theorem set_mode_on_the_current_platform mode st :
  _platform (self st) <> "panda" ->
  (mode <> "execution" -> mode <> "programming" ->
   set_mode mode st = (Raise (ValueError ("Unknown mode " +:+ mode)), st))
  /\ (mode = "execution" \/ mode = "programming" ->
      forall r rest,
        replies (world st) = r :: rest ->
        exists st',
          set_mode mode st
          = (if status_code r =? 200 then Return tt else Raise (ConnectionError (text r)),
             st')
          /\ sent (world st') = sent (world st)
               ++ [mode_request (self st) mode (token (_token (self st)))]
          /\ session_and_store st' = session_and_store st
          /\ channels st' = channels st).
Proof.
  intros Hp. split.
  - intros He Hg. unfold set_mode. rewrite bind_run. cbn [get_self].
    rewrite (eqb_differs _ _ Hp), bind_run, (eqb_differs _ _ He), (eqb_differs _ _ Hg).
    reflexivity.
  - intros Hmode r rest R. unfold set_mode. rewrite bind_run. cbn [get_self].
    rewrite (eqb_differs _ _ Hp), bind_run.
    destruct Hmode as [-> | ->]; cbn [String.eqb Ascii.eqb Bool.eqb ret];
      rewrite bind_run, _request_runs by discriminate; rewrite R; cbv zeta;
      (destruct (status_code r =? 200);
       (eexists; split; [reflexivity|]); repeat split).
Qed.

Lemma set_mode_on_the_current_platform_witness :
  set_mode "Execution" (on_fr3 [bye])
  = (Raise (ValueError "Unknown mode Execution"), on_fr3 [bye])
  /\ fst (set_mode "programming" (on_fr3 [bye])) = Return tt.
Proof.
  destruct (set_mode_on_the_current_platform "Execution" (on_fr3 [bye])) as [Hbad _];
    [discriminate|].
  destruct (set_mode_on_the_current_platform "programming" (on_fr3 [bye])) as [_ Hgood];
    [discriminate|].
  split.
  - apply Hbad; discriminate.
  - destruct (Hgood (or_intror eq_refl) bye [] eq_refl) as (st' & E & _).
    rewrite E. reflexivity.
Defined.

(** ** The shape of the password digest *)

Lemma length_be_bytes n x : length (Sha256.be_bytes n x) = n.
Proof. induction n as [|n IH]; [reflexivity|]. cbn. now rewrite IH. Qed.

Lemma length_compress h block :
  length h = 8%nat -> length (Sha256.compress h block) = 8%nat.
Proof.
  intros Hh. unfold Sha256.compress. cbv zeta.
  rewrite length_map, length_combine, Hh. reflexivity.
Qed.

Lemma length_fold_compress blocks :
  forall h, length h = 8%nat -> length (fold_left Sha256.compress blocks h) = 8%nat.
Proof.
  induction blocks as [|b blocks IH]; intros h Hh; [exact Hh|].
  cbn. apply IH. now apply length_compress.
Qed.

(** a SHA-256 digest has 32 octets *)
Lemma length_digest msg : length (Sha256.digest msg) = 32%nat.
Proof.
  unfold Sha256.digest.
  pose proof (length_fold_compress (chunks 64 (Sha256.pad msg)) Sha256.H0 eq_refl) as H.
  destruct (fold_left _ _ _) as [|a [|b [|c [|d [|e [|f [|g [|h [|]]]]]]]]];
    try discriminate.
  reflexivity.
Qed.

Lemma string_length_app (a b : string) :
  String.length (a +:+ b) = (String.length a + String.length b)%nat.
Proof. induction a as [|c a IH]; [reflexivity|]. simpl. now f_equal. Qed.

Lemma join_longer sep x y rest :
  (String.length sep <= String.length (join sep (x :: y :: rest)))%nat.
Proof.
  unfold join. cbn [String.concat].
  rewrite !string_length_app. lia.
Qed.

Lemma length_encode_utf8 s : length (encode_utf8 s) = String.length s.
Proof.
  unfold encode_utf8. rewrite length_map.
  induction s as [|c s IH]; [reflexivity|]. cbn. now rewrite IH.
Qed.

Lemma digits_of_not_empty username password :
  encode_utf8 (digits_of username password) <> [].
Proof.
  intros E. apply (f_equal (@length Z)) in E. rewrite length_encode_utf8 in E.
  unfold digits_of in E.
  pose proof (length_digest (encode_utf8 (password +:+ "#" +:+ username +:+ "@franka"))) as H.
  destruct (Sha256.digest _) as [|a [|b rest]]; try discriminate.
  pose proof (join_longer "," (str_int a) (str_int b) (map str_int rest)) as Hl.
  cbn [map] in E. rewrite E in Hl. cbn in Hl. lia.
Qed.

Lemma b64encode_not_empty (s : bytes) : s <> [] -> Base64.b64encode s <> [].
Proof. destruct s as [|a [|b [|c s]]]; [congruence | discriminate ..]. Qed.

Lemma chunks_not_empty {A} n (s : list A) : s <> [] -> chunks n s <> [].
Proof. destruct s; [congruence|]. discriminate. Qed.

Lemma lines_end_with_newline (ls : list bytes) :
  ls <> [] ->
  exists body, concat (map (fun l => l ++ [Base64.newline]) ls) = body ++ [Base64.newline].
Proof.
  induction ls as [|l ls IH]; [congruence|]. intros _.
  destruct ls as [|l' ls].
  - exists l. cbn. now rewrite app_nil_r.
  - destruct IH as [body Hb]; [discriminate|].
    exists (l ++ [Base64.newline] ++ body).
    cbn [map concat] in *. rewrite Hb. now rewrite <- !app_assoc.
Qed.

Lemma decode_utf8_app a b : decode_utf8 (a ++ b) = decode_utf8 a +:+ decode_utf8 b.
Proof.
  unfold decode_utf8. induction a as [|x a IH]; [reflexivity|].
  cbn. now rewrite IH.
Qed.

Lemma list_ascii_of_decode_utf8 b :
  list_ascii_of_string (decode_utf8 b) = map (fun z => ascii_of_N (Z.to_N z)) b.
Proof. unfold decode_utf8. apply list_ascii_of_string_of_list_ascii. Qed.

(** X26: for every user name and password, the text [encode_password]
    gives ends with a line feed, and it is never the plain base64
    encoding of the comma-joined digest octets, which has no line feed
    in it. *)
Theorem encode_password_always_ends_with_a_line_feed username password :
  (exists body, encode_password username password = body +:+ String "010"%char EmptyString)
  /\ ~ In "010"%char (list_ascii_of_string (spec_encodePassword username password))
  /\ encode_password username password <> spec_encodePassword username password.
Proof.
  assert (Hend : exists body,
             encode_password username password = body +:+ String "010"%char EmptyString).
  { unfold encode_password. fold (digits_of username password).
    rewrite encodebytes_lines.
    destruct (lines_end_with_newline
                (chunks 76 (Base64.b64encode (encode_utf8 (digits_of username password)))))
      as [body Hb].
    - apply chunks_not_empty, b64encode_not_empty, digits_of_not_empty.
    - exists (decode_utf8 body). now rewrite Hb, decode_utf8_app. }
  assert (Hspec : ~ In "010"%char
                      (list_ascii_of_string (spec_encodePassword username password))).
  { unfold spec_encodePassword. rewrite list_ascii_of_decode_utf8.
    intros Hin. apply in_map_iff in Hin. destruct Hin as (c & Hc & Hin).
    pose proof (b64encode_chars
                  (encode_utf8
                     (join ","
                        (map str_int
                           (Sha256.digest
                              (encode_utf8 (password +:+ "#" +:+ username +:+ "@franka")))))))
      as Hall.
    rewrite Forall_forall in Hall.
    apply (ascii_of_b64_char c); [|exact Hc].
    apply Hall. now apply list_elem_of_In. }
  split; [exact Hend|]. split; [exact Hspec|].
  intros E. apply Hspec. rewrite <- E. destruct Hend as [body ->].
  clear. induction body as [|c body IH]; simpl; [now left | right; exact IH].
Qed.

(** ** What [take_control] sends *)

Lemma bind_inv {A B} (c : M A) (k : A -> M B) st o st' :
  bind c k st = (o, st') ->
  (exists a st1, c st = (Return a, st1) /\ k a st1 = (o, st'))
  \/ (exists o', c st = (o', st') /\ forall a, o' <> Return a).
Proof.
  rewrite bind_run. destruct (c st) as [[a | e | |] st1]; intros E.
  - left. eauto.
  - injection E as <- <-. right. eexists. split; [reflexivity | discriminate].
  - injection E as <- <-. right. eexists. split; [reflexivity | discriminate].
  - injection E as <- <-. right. eexists. split; [reflexivity | discriminate].
Qed.

Lemma _request_sends method url headers json files timeout st o st' :
  _request method url headers json files timeout st = (o, st') ->
  method <> DELETE ->
  self st' = self st
  /\ sent (world st') = sent (world st)
       ++ [request_of (self st) method url headers json files timeout].
Proof.
  intros E Hm. revert E. rewrite _request_runs by exact Hm. cbv zeta.
  destruct (replies (world st)) as [|r rest]; [now intros [= _ <-]|].
  destruct (status_code r =? 200); now intros [= _ <-].
Qed.

Lemma keeps_sent_save_token t : keeps sent_so_far (_save_token t).
Proof.
  intros st o st'. rewrite _save_token_runs.
  destruct (first_refused _); [now intros [= _ <-]|].
  destruct (writable _ _); now intros [= _ <-].
Qed.

Lemma keeps_sent_after_the_grant (jq : Json) (given_up : bool) :
  keeps sent_so_far
    (if given_up then ret false else
       i <- lift (getitem jq "id");;
       i <- lift (py_str i);;
       d <- get_self;;
       t <- lift (getitem jq "token");;
       t <- lift (as_str t);;
       _save_token (mkToken i (_username d) t);;
       _logger "Taken control." [];;
       ret true).
Proof.
  destruct given_up; [apply keeps_ret|].
  do 5 (apply keeps_bind; [first [apply keeps_lift | apply keeps_get_self]|]; intros ?).
  apply keeps_bind; [apply keeps_sent_save_token|]. intros _.
  repeat keeps_step.
Qed.

Lemma keeps_sent_confirmation (r : Response) :
  keeps sent_so_far
    (r <- json_of r;;
     timeout <- lift (getitem r "tokenForceTimeout");;
     _logger "You have %d seconds to confirm control by pressing circle button on robot."
             [timeout];;
     seconds <- lift (seconds_of timeout);;
     cancel_called <- move_on_after seconds (wait_for_press "circle");;
     if cancel_called then
       _logger "Control not confirmed. Giving up." [];;
       ret true
     else ret false).
Proof. repeat keeps_step. Qed.

(** X27: the requests of [take_control].  On a session without the
    legacy flag it sends, in this order and nothing else: the query for
    the active token; then, unless it stops there, the request for a
    token (with "?force" exactly when forced, and the session's user
    name as requestedBy); then, only when forced and unless it stops
    there, the query for the confirmation window.  This holds however
    the call ends. *)
Theorem take_control_sends_at_most_three_requests force st o st' :
  _legacy (self st) = false ->
  take_control force st = (o, st') ->
  let d := self st in
  sent (world st') = sent (world st) ++ [control_token_query d]
  \/ sent (world st') = sent (world st) ++ [control_token_query d; token_request force d]
  \/ (force = true
      /\ sent (world st') = sent (world st)
           ++ [control_token_query d; token_request true d; safety_query d]).
Proof.
  intros L E d. subst d. unfold take_control in E. rewrite bind_run in E.
  cbn [get_self] in E. rewrite L in E.
  apply bind_inv in E.
  destruct E as [(active & st1 & H & E) | (o' & H & _)];
    destruct (_get_active_token_frame _ _ _ H) as (Hself & _ & _ & _ & _ & Hlog & Hsent);
    destruct (Hsent L) as [Hs _]; [|now left].
  rewrite bind_run in E. cbn [get_self] in E.
  destruct (negb _ && String.eqb _ _); [injection E as _ <-; now left|].
  destruct (negb _ && negb force); [injection E as _ <-; now left|].
  apply bind_inv in E.
  assert (Hrq : forall o2 st2,
            _request POST
              ("/admin/api/control-token/request" +:+ (if force then "?force" else ""))
              None (Some (JObj [("requestedBy", JStr (_username (self st1)))])) None 5 st1
            = (o2, st2) ->
            self st2 = self st
            /\ sent (world st2) = sent (world st)
                 ++ [control_token_query (self st); token_request force (self st)]).
  { intros o2 st2 H2. destruct (_request_sends _ _ _ _ _ _ _ _ _ H2 ltac:(discriminate)) as [Hself2 Hs2].
    rewrite Hself2, Hs2, Hs, Hself, <- app_assoc. now split. }
  destruct E as [(response & st2 & H2 & E) | (o' & H2 & _)];
    destruct (Hrq _ _ H2) as [Hself2 Hs2]; [|right; now left].
  apply bind_inv in E.
  destruct E as [(jq & st2' & Hj & E) | (o' & Hj & _)];
    pose proof (stateless_result _ _ _ _ (stateless_json_of response) Hj) as ->;
    [|right; now left].
  apply bind_inv in E.
  assert (Htail : forall (given_up : bool) (st3 : St),
            (if given_up then ret false else
               i <- lift (getitem jq "id");;
               i <- lift (py_str i);;
               d <- get_self;;
               t <- lift (getitem jq "token");;
               t <- lift (as_str t);;
               _save_token (mkToken i (_username d) t);;
               _logger "Taken control." [];;
               ret true) st3 = (o, st') ->
            sent (world st') = sent (world st3))
    by (intros given_up st3 Et;
        exact (keeps_sent_after_the_grant jq given_up _ _ _ Et)).
  destruct force.
  - destruct E as [(given_up & st3 & Hg & E) | (o' & Hg & _)].
    + apply Htail in E. apply bind_inv in Hg.
      destruct Hg as [(r & st2' & H3 & Hg) | (o' & H3 & _)];
        destruct (_request_sends _ _ _ _ _ _ _ _ _ H3 ltac:(discriminate)) as [_ Hs3].
      * pose proof (keeps_sent_confirmation r _ _ _ Hg) as Hk. unfold sent_so_far in Hk.
        right. right. split; [reflexivity|].
        rewrite E, Hk, Hs3, Hs2, Hself2, <- app_assoc. reflexivity.
      * right. right. split; [reflexivity|].
        rewrite E, Hs3, Hs2, Hself2, <- app_assoc. reflexivity.
    + apply bind_inv in Hg.
      destruct Hg as [(r & st2' & H3 & Hg) | (o'' & H3 & _)];
        destruct (_request_sends _ _ _ _ _ _ _ _ _ H3 ltac:(discriminate)) as [_ Hs3].
      * pose proof (keeps_sent_confirmation r _ _ _ Hg) as Hk. unfold sent_so_far in Hk.
        right. right. split; [reflexivity|].
        rewrite Hk, Hs3, Hs2, Hself2, <- app_assoc. reflexivity.
      * right. right. split; [reflexivity|].
        rewrite Hs3, Hs2, Hself2, <- app_assoc. reflexivity.
  - destruct E as [(given_up & st3 & Hg & E) | (o' & Hg & _)].
    + injection Hg as <- <-. apply (Htail false) in E. right. left. now rewrite E.
    + injection Hg as _ <-. right. left. exact Hs2.
Qed.

Lemma take_control_sends_at_most_three_requests_witness :
  sent (world (snd (take_control true
                      (forcing [ok (held_by "8" "eve"); ok granted; ok window] timely_press))))
  = [control_token_query (self (forcing [] []));
     token_request true (self (forcing [] []));
     safety_query (self (forcing [] []))].
Proof.
  destruct (take_control_sends_at_most_three_requests true
              (forcing [ok (held_by "8" "eve"); ok granted; ok window] timely_press)
              (fst (take_control true
                      (forcing [ok (held_by "8" "eve"); ok granted; ok window] timely_press)))
              (snd (take_control true
                      (forcing [ok (held_by "8" "eve"); ok granted; ok window] timely_press))))
    as [E | [E | [_ E]]].
  - reflexivity.
  - now destruct (take_control true _).
  - vm_compute in E. discriminate E.
  - vm_compute in E. discriminate E.
  - exact E.
Defined.
